(** * A shallow embedding of the sequelize Transformer

    The development follows the Python sources

    - [transformer/attention.py]         (modules [Attention] and
                                          [FloatAttention])
    - [transformer/common/attention.py]  (module [CommonAttention])
    - [transformer/transformer.py]       (modules [Transformer] and
                                          [ModelInit])
    - [server.py]                        (module [Server])

    Python integers are [Z], Python exceptions are the [Raise] branch of
    [result].  A torch tensor is its shape together with its element at
    every (row-major, logical) index.  Where only shapes, exceptions and
    control flow matter, floating-point numbers are idealised as the real
    numbers [R]; where the values a float can hold matter (infinities,
    NaN, rounding), the code is embedded over [Float.float]. *)

From Stdlib Require Import ZArith List Bool Lia Reals Lra FunctionalExtensionality.
From Stdlib Require String.
Import ListNotations.
Local Open Scope Z_scope.

(** ** Exceptions and the error monad *)

Inductive PyError : Type :=
| AssertionError
| ZeroDivisionError
| ValueError
| IndexError
| TypeError
| RuntimeError.

Inductive result (A : Type) : Type :=
| Ok (a : A)
| Raise (e : PyError).

Arguments Ok {A} a.
Arguments Raise {A} e.

Definition bind {A B : Type} (r : result A) (f : A -> result B) : result B :=
  match r with
  | Ok a => f a
  | Raise e => Raise e
  end.

Declare Scope py_scope.
Delimit Scope py_scope with py.
Notation "x <- c1 ;; c2" := (bind c1 (fun x => c2))
  (at level 100, c1 at next level, right associativity) : py_scope.
Notation "' pat <- c1 ;; c2" := (bind c1 (fun pat => c2))
  (at level 100, pat strict pattern, c1 at next level, right associativity) : py_scope.
Local Open Scope py_scope.

(** Python's [a % b] and [a // b] on integers: floored, like [Z.modulo] and
    [Z.div], except that a zero divisor raises. *)
Definition py_mod (a b : Z) : result Z :=
  if b =? 0 then Raise ZeroDivisionError else Ok (a mod b).

Definition py_floordiv (a b : Z) : result Z :=
  if b =? 0 then Raise ZeroDivisionError else Ok (a / b).

(** [assert c] *)
Definition py_assert (c : bool) : result unit :=
  if c then Ok tt else Raise AssertionError.

(** ** Tensors *)

Record Tensor (A : Type) : Type := mkTensor {
  shape : list Z;
  get : list Z -> A
}.

Arguments mkTensor {A} shape get.
Arguments shape {A} t.
Arguments get {A} t idx.

Definition numel (s : list Z) : Z := fold_right Z.mul 1 s.

(** Row-major position of an index, and the index at a row-major position. *)
Fixpoint ravel (s idx : list Z) : Z :=
  match s, idx with
  | n :: s', i :: idx' => i * numel s' + ravel s' idx'
  | _, _ => 0
  end.

Fixpoint unravel (s : list Z) (flat : Z) : list Z :=
  match s with
  | [] => []
  | n :: s' => flat / numel s' :: unravel s' (flat mod numel s')
  end.

(** Finite sums [f 0 + ... + f (n-1)] over the reals. *)
Definition sumR (n : Z) (f : Z -> R) : R :=
  fold_right (fun j acc => (f (Z.of_nat j) + acc)%R) 0%R (seq 0 (Z.to_nat n)).

(** ** State on top of the error monad

    A computation that reads and writes a state [S] and may raise; the
    state written before an exception stays written, as in Python. *)

Definition SE (S A : Type) : Type := S -> result A * S.

Definition se_ret {S A : Type} (a : A) : SE S A := fun s => (Ok a, s).

Definition se_bind {S A B : Type} (c : SE S A) (f : A -> SE S B) : SE S B :=
  fun s =>
    match c s with
    | (Ok a, s') => f a s'
    | (Raise e, s') => (Raise e, s')
    end.

Definition se_lift {S A : Type} (r : result A) : SE S A := fun s => (r, s).

Notation "x <~ c1 ;; c2" := (se_bind c1 (fun x => c2))
  (at level 100, c1 at next level, right associativity) : py_scope.
Notation "' pat <~ c1 ;; c2" := (se_bind c1 (fun pat => c2))
  (at level 100, pat strict pattern, c1 at next level, right associativity) : py_scope.

(** ** The torch operations the sources call *)

Module Torch.

(** [dim] may count from the end. *)
Definition wrap_dim (dim ndim : Z) : result nat :=
  if (- ndim <=? dim) && (dim <? ndim)
  then Ok (Z.to_nat (if dim <? 0 then dim + ndim else dim))
  else Raise IndexError.

Definition ndim {A : Type} (t : Tensor A) : Z := Z.of_nat (length (shape t)).

Fixpoint update_nth {X : Type} (n : nat) (f : X -> X) (l : list X) : list X :=
  match n, l with
  | _, [] => []
  | O, x :: l' => f x :: l'
  | S n', x :: l' => x :: update_nth n' f l'
  end.

Fixpoint insert_nth {X : Type} (n : nat) (x : X) (l : list X) : list X :=
  match n, l with
  | O, _ => x :: l
  | S n', y :: l' => y :: insert_nth n' x l'
  | S _, [] => [x]
  end.

Fixpoint remove_nth {X : Type} (n : nat) (l : list X) : list X :=
  match n, l with
  | _, [] => []
  | O, _ :: l' => l'
  | S n', y :: l' => y :: remove_nth n' l'
  end.

Definition swap_nth {X : Type} (d : X) (i j : nat) (l : list X) : list X :=
  map (fun p => nth (if Nat.eqb p i then j else if Nat.eqb p j then i else p) l d)
      (seq 0 (length l)).

(** [t.view(sizes...)]: at most one size is [-1] and is inferred; the sizes
    must account for every element.  The element at an index of the view
    is the element at the same row-major position of [t].  (torch also
    refuses a view whose strides cannot be expressed on the storage of
    [t]; both uses in the sources, a chunk of [split] along the last
    axis and a [contiguous()] tensor, pass that test.) *)
Definition infer_size (sizes : list Z) (n : Z) : result (list Z) :=
  if existsb (fun d => d <? -1) sizes then Raise RuntimeError else
  let known := numel (filter (fun d => negb (d =? -1)) sizes) in
  match count_occ Z.eq_dec sizes (-1) with
  | O => if known =? n then Ok sizes else Raise RuntimeError
  | S O =>
      if negb (known =? 0) && (n mod known =? 0)
      then Ok (map (fun d => if d =? -1 then n / known else d) sizes)
      else Raise RuntimeError
  | _ => Raise RuntimeError
  end.

Definition view {A : Type} (t : Tensor A) (sizes : list Z) : result (Tensor A) :=
  s <- infer_size sizes (numel (shape t)) ;;
  Ok (mkTensor s (fun idx => get t (unravel (shape t) (ravel s idx)))).

(** [t.transpose(d0, d1)] *)
Definition transpose {A : Type} (t : Tensor A) (d0 d1 : Z) : result (Tensor A) :=
  i <- wrap_dim d0 (ndim t) ;;
  j <- wrap_dim d1 (ndim t) ;;
  Ok (mkTensor (swap_nth 0 i j (shape t))
               (fun idx => get t (swap_nth 0 i j idx))).

(** [t.contiguous()] changes the memory layout only. *)
Definition contiguous {A : Type} (t : Tensor A) : Tensor A := t.

(** [t.unsqueeze(dim)] *)
Definition unsqueeze {A : Type} (t : Tensor A) (dim : Z) : result (Tensor A) :=
  i <- wrap_dim dim (ndim t + 1) ;;
  Ok (mkTensor (insert_nth i 1 (shape t))
               (fun idx => get t (remove_nth i idx))).

(** [t.split(split_size, dim)]: chunks of [split_size] along [dim], the
    last one possibly shorter; one (empty) chunk when the axis is empty. *)
Definition split {A : Type} (t : Tensor A) (split_size dim : Z)
  : result (list (Tensor A)) :=
  i <- wrap_dim dim (ndim t) ;;
  let n := nth i (shape t) 0 in
  if split_size <? 0 then Raise RuntimeError
  else if split_size =? 0 then
    (if n =? 0 then Ok [t] else Raise RuntimeError)
  else
    let chunks := Z.max ((n + split_size - 1) / split_size) 1 in
    Ok (map (fun c : nat =>
               let off := Z.of_nat c * split_size in
               mkTensor (update_nth i (fun _ => Z.min split_size (n - off)) (shape t))
                        (fun idx => get t (update_nth i (fun p => p + off) idx)))
            (seq 0 (Z.to_nat chunks))).

(** [B, S, E = x.size()] *)
Definition size3 {A : Type} (t : Tensor A) : result (Z * Z * Z) :=
  match shape t with
  | [b; s; e] => Ok (b, s, e)
  | _ => Raise ValueError
  end.

(** [a, b, c = xs] *)
Definition unpack3 {X : Type} (xs : list X) : result (X * X * X) :=
  match xs with
  | [a; b; c] => Ok (a, b, c)
  | _ => Raise ValueError
  end.

(** *** nn.Linear *)

Record Linear : Type := mkLinear {
  in_features : Z;
  out_features : Z;
  weight : Tensor R;   (* (out_features, in_features) *)
  bias : Tensor R      (* (out_features) *)
}.

(** [F.linear]: the last axis is contracted against the rows of [weight]. *)
Definition Linear_forward (l : Linear) (x : Tensor R) : result (Tensor R) :=
  match rev (shape x) with
  | [] => Raise RuntimeError
  | last_dim :: _ =>
      if last_dim =? in_features l then
        Ok (mkTensor
              (removelast (shape x) ++ [out_features l])
              (fun idx =>
                 let o := last idx 0 in
                 (sumR (in_features l)
                       (fun c => get x (removelast idx ++ [c]) * get (weight l) [o; c])
                  + get (bias l) [o])%R))
      else Raise RuntimeError
  end.

(** *** nn.Dropout

    In training mode an element is kept with probability [1 - p] and
    scaled by [1 / (1 - p)], or zeroed; which elements are kept is the
    draw [keep] of the random source.  In evaluation mode dropout is the
    identity. *)
Definition dropout (p : R) (training : bool) (keep : list Z -> bool)
           (t : Tensor R) : Tensor R :=
  if training
  then mkTensor (shape t)
                (fun idx => if keep idx then (get t idx / (1 - p))%R else 0%R)
  else t.

(** *** Construction of parameters

    A constructor runs in [SE] over the log of the parameter tensors
    created so far; the values a new tensor is initialised with are
    [init k] for the [k]-th tensor created. *)
Inductive TensorOp : Type :=
| Alloc (shape : list Z).

Definition Ctor (A : Type) : Type := SE (list TensorOp) A.

Definition empty (init : nat -> list Z -> R) (s : list Z) : Ctor (Tensor R) :=
  fun log =>
    if existsb (fun d => d <? 0) s
    then (Raise RuntimeError, log)
    else (Ok (mkTensor s (init (length log))), log ++ [Alloc s]).

(** [nn.Linear(in_features, out_features)] *)
Definition nn_Linear (init : nat -> list Z -> R) (i o : Z) : Ctor Linear :=
  w <~ empty init [o; i] ;;
  b <~ empty init [o] ;;
  se_ret (mkLinear i o w b).

End Torch.

(** ** The attention primitive *)

Module ScaledDP.
Import Torch.

(** Modelled from the spec: transformer/scaled_dp_attn.py, the class
    ScaledDotProductAttention that transformer/attention.py imports, is
    not among the sources.  Spec 4.1: the output is
    softmax((Q.K^T)/sqrt(d_k), masked).V; a masked position has its
    pre-softmax score set to negative infinity, hence weight zero;
    dropout is applied to the attention weights in training mode only.
    Spec 3: the mask has shape (batch, 1-or-heads, query_len, key_len),
    a [true] entry permits attending and a [false] entry forbids it. *)
Record ScaledDotProductAttention : Type := mkSDP {
  p : R
}.

(** A score is a real number or negative infinity ([None]). *)
Definition exp_ext (s : option R) : R :=
  match s with
  | Some r => exp r
  | None => 0%R
  end.

Fixpoint broadcastable (ms target : list Z) : bool :=
  match ms, target with
  | [], [] => true
  | m :: ms', n :: target' => ((m =? 1) || (m =? n)) && broadcastable ms' target'
  | _, _ => false
  end.

Fixpoint broadcast_index (ms idx : list Z) : list Z :=
  match ms, idx with
  | m :: ms', i :: idx' => (if m =? 1 then 0 else i) :: broadcast_index ms' idx'
  | _, _ => []
  end.

Definition permits (mask : option (Tensor bool)) (idx : list Z) : bool :=
  match mask with
  | None => true
  | Some m => get m (broadcast_index (shape m) idx)
  end.

Definition scores (q k : Tensor R) (d : Z) (idx : list Z) : R :=
  match idx with
  | [b; h; i; j] =>
      (sumR d (fun c => get q [b; h; i; c] * get k [b; h; j; c]) / sqrt (IZR d))%R
  | _ => 0%R
  end.

Definition masked_fill (mask : option (Tensor bool)) (s : list Z -> R)
           (idx : list Z) : option R :=
  if permits mask idx then Some (s idx) else None.

(** softmax along the last axis, of length [n] *)
Definition softmax (n : Z) (s : list Z -> option R) (idx : list Z) : R :=
  (exp_ext (s idx)
   / sumR n (fun j => exp_ext (s (removelast idx ++ [j]))))%R.

Definition forward (self : ScaledDotProductAttention) (training : bool)
           (keep : list Z -> bool) (q k v : Tensor R)
           (mask : option (Tensor bool)) : result (Tensor R) :=
  match shape q, shape k, shape v with
  | [b; h; sq; d], [bk; hk; sk; dk], [bv; hv; sv; dv] =>
      if (b =? bk) && (b =? bv) && (h =? hk) && (h =? hv)
         && (d =? dk) && (sk =? sv)
      then
        if match mask with
           | None => true
           | Some m => broadcastable (shape m) [b; h; sq; sk]
           end
        then
          let w := dropout (p self) training keep
                     (mkTensor [b; h; sq; sk]
                               (softmax sk (masked_fill mask (scores q k d)))) in
          Ok (mkTensor [b; h; sq; dv]
                (fun idx =>
                   match idx with
                   | [ib; ih; i; c] =>
                       sumR sk (fun j => get w [ib; ih; i; j] * get v [ib; ih; j; c])%R
                   | _ => 0%R
                   end))
        else Raise RuntimeError
      else Raise RuntimeError
  | _, _, _ => Raise RuntimeError
  end.

End ScaledDP.

(** ** transformer/attention.py *)

Module Attention.
Import Torch.

Record MultiHeadAttention : Type := mkMHA {
  c_attn : Linear;
  c_proj : Linear;
  n_head : Z;
  d_model : Z;
  attn : ScaledDP.ScaledDotProductAttention
}.

Definition __init__ (init : nat -> list Z -> R) (d_model n_head : Z) (dropout : R)
  : Ctor MultiHeadAttention :=
  (* embedding dimension must be divisible by number of heads *)
  r <~ se_lift (py_mod d_model n_head) ;;
  _ <~ se_lift (py_assert (r =? 0)) ;;
  (* key, query, value projections for all heads *)
  c_attn <~ nn_Linear init d_model (3 * d_model) ;;
  (* output projection *)
  c_proj <~ nn_Linear init d_model d_model ;;
  se_ret (mkMHA c_attn c_proj n_head d_model (ScaledDP.mkSDP dropout)).

(** [forward(self, x, *qkv, mask=None)]; [training] is the module's
    training flag and [keep] the draw of the dropout inside [self.attn]. *)
Definition forward (self : MultiHeadAttention) (training : bool)
           (keep : list Z -> bool) (x : Tensor R) (qkv : list (Tensor R))
           (mask : option (Tensor bool)) : result (Tensor R) :=
  '(B, S_, E) <- size3 x ;;
  (* for decoder's second attention layer we use encoder output as key and value *)
  '(q, k, v) <- match qkv with
                | _ :: _ => unpack3 qkv
                | [] =>
                    (* pull out the query, key, value from the concatenated projection *)
                    y <- Linear_forward (c_attn self) x ;;
                    chunks <- split y (d_model self) 2 ;;
                    unpack3 chunks
                end ;;
  (* split heads and transpose to (B, n_head, S, E // n_head) *)
  hq <- py_floordiv E (n_head self) ;;
  q <- view q [B; S_; n_head self; hq] ;;
  q <- transpose q 1 2 ;;
  hk <- py_floordiv E (n_head self) ;;
  k <- view k [B; S_; n_head self; hk] ;;
  k <- transpose k 1 2 ;;
  hv <- py_floordiv E (n_head self) ;;
  v <- view v [B; S_; n_head self; hv] ;;
  v <- transpose v 1 2 ;;
  (* apply attention *)
  mask <- match mask with
          | Some m =>
              (* for head axis broadcasting *)
              m' <- unsqueeze m 1 ;; Ok (Some m')
          | None => Ok None
          end ;;
  y <- ScaledDP.forward (attn self) training keep q k v mask ;;
  (* concatenate heads and transpose to (B, S, E) *)
  y <- transpose y 1 2 ;;
  y <- view (contiguous y) [B; S_; E] ;;
  (* apply final linear projection *)
  y <- Linear_forward (c_proj self) y ;;
  Ok y.

(** *** The value of [forward] in the self-attention case, index by index

    [gx] is the input, [S_] its length and [mask] the mask as the
    attention primitive receives it; heads have width
    [d_model / n_head], and feature [e] of the projected input belongs to
    head [e / head_dim] as its coordinate [e mod head_dim]. *)

Definition linear_at (l : Linear) (row : Z -> R) (o : Z) : R :=
  (sumR (in_features l) (fun c => row c * get (weight l) [o; c])
   + get (bias l) [o])%R.

Definition head_dim (self : MultiHeadAttention) : Z := d_model self / n_head self.

(** query ([part = 0]), key ([1]) and value ([2]) of position [s] *)
Definition qkv_at (self : MultiHeadAttention) (gx : list Z -> R) (part b s e : Z) : R :=
  linear_at (c_attn self) (fun c => gx [b; s; c]) (e + part * d_model self).

Definition score_at (self : MultiHeadAttention) (gx : list Z -> R) (b h i j : Z) : R :=
  (sumR (head_dim self)
        (fun c => qkv_at self gx 0 b i (h * head_dim self + c)
                  * qkv_at self gx 1 b j (h * head_dim self + c))
   / sqrt (IZR (head_dim self)))%R.

Definition exp_weight (self : MultiHeadAttention) (gx : list Z -> R)
           (mask : option (Tensor bool)) (b h i j : Z) : R :=
  if ScaledDP.permits mask [b; h; i; j] then exp (score_at self gx b h i j) else 0%R.

Definition attn_weight (self : MultiHeadAttention) (training : bool)
           (keep : list Z -> bool) (gx : list Z -> R) (S_ : Z)
           (mask : option (Tensor bool)) (b h i j : Z) : R :=
  let w := (exp_weight self gx mask b h i j
            / sumR S_ (fun j' => exp_weight self gx mask b h i j'))%R in
  if training
  then (if keep [b; h; i; j] then (w / (1 - ScaledDP.p (attn self)))%R else 0%R)
  else w.

Definition head_out (self : MultiHeadAttention) (training : bool)
           (keep : list Z -> bool) (gx : list Z -> R) (S_ : Z)
           (mask : option (Tensor bool)) (b h i d : Z) : R :=
  sumR S_ (fun j => (attn_weight self training keep gx S_ mask b h i j
                     * qkv_at self gx 2 b j (h * head_dim self + d))%R).

Definition mha_value (self : MultiHeadAttention) (training : bool)
           (keep : list Z -> bool) (gx : list Z -> R) (S_ : Z)
           (mask : option (Tensor bool)) (b i o : Z) : R :=
  linear_at (c_proj self)
            (fun e => head_out self training keep gx S_ mask b
                               (e / head_dim self) i (e mod head_dim self))
            o.

(** The mask as [forward] hands it to the primitive. *)
Definition unsqueezed (mask : option (Tensor bool)) : option (Tensor bool) :=
  match mask with
  | Some m => Some (mkTensor (insert_nth 1 1 (shape m))
                             (fun idx => get m (remove_nth 1 idx)))
  | None => None
  end.

(** A layer as [__init__] builds it from a positive width and head count. *)
Definition well_formed (self : MultiHeadAttention) : Prop :=
  0 < n_head self /\ 0 < d_model self
  /\ d_model self mod n_head self = 0
  /\ in_features (c_attn self) = d_model self
  /\ out_features (c_attn self) = 3 * d_model self
  /\ in_features (c_proj self) = d_model self
  /\ out_features (c_proj self) = d_model self.

(** A mask [(batch, query_len, key_len)], each axis of full size or 1. *)
Definition mask_fits (B S_ : Z) (mask : option (Tensor bool)) : bool :=
  match mask with
  | None => true
  | Some m =>
      match shape m with
      | [mb; mq; mk] =>
          ((mb =? 1) || (mb =? B)) && ((mq =? 1) || (mq =? S_))
          && ((mk =? 1) || (mk =? S_))
      | _ => false
      end
  end.

End Attention.


(** Masks that forbid attending to a later position: what the attention
    primitive is handed permits no pair [(i, j)] with [i < j]. *)
Definition is_causal (B S_ : Z) (mask : option (Tensor bool)) : Prop :=
  forall b h i j, 0 <= b < B -> 0 <= i < S_ -> 0 <= j < S_ -> i < j ->
    ScaledDP.permits (Attention.unsqueezed mask) [b; h; i; j] = false.

(** The look-ahead mask [torch.tril(torch.ones(B, S, S))]. *)
Definition tril (B S_ : Z) : Tensor bool :=
  mkTensor [B; S_; S_]
           (fun idx => match idx with
                       | [_; i; j] => j <=? i
                       | _ => false
                       end).

(** ** transformer/common/attention.py *)

Module CommonAttention.
Import Torch.

Record Dropout : Type := mkDropout {
  p : R
}.

(** [nn.Dropout(p)] refuses a probability outside [0, 1]. *)
Definition nn_Dropout (p : R) : Ctor Dropout :=
  if Rlt_dec p 0 then se_lift (Raise ValueError)
  else if Rlt_dec 1 p then se_lift (Raise ValueError)
  else se_ret (mkDropout p).

Record MultiHeadAttention : Type := mkMHA {
  c_attn : Linear;
  c_proj : Linear;
  n_head : Z;
  d_model : Z;
  dropout : R;
  resid_dropout : Dropout
}.

Definition __init__ (init : nat -> list Z -> R) (d_model n_head : Z) (dropout : R)
  : Ctor MultiHeadAttention :=
  (* embedding dimension must be divisible by number of heads *)
  r <~ se_lift (py_mod d_model n_head) ;;
  _ <~ se_lift (py_assert (r =? 0)) ;;
  (* key, query, value projections for all heads *)
  c_attn <~ nn_Linear init d_model (3 * d_model) ;;
  (* output projection *)
  c_proj <~ nn_Linear init d_model d_model ;;
  (* regularization *)
  resid_dropout <~ nn_Dropout dropout ;;
  se_ret (mkMHA c_attn c_proj n_head d_model dropout resid_dropout).

(** [forward(self, x, mask=None)]; [sdpa] stands for torch's
    [F.scaled_dot_product_attention] as this file calls it, with the
    keywords [dropout] and [is_causal]; [keep] is the draw of
    [self.resid_dropout]. *)
Definition forward
           (sdpa : Tensor R -> Tensor R -> Tensor R -> R -> option bool
                   -> result (Tensor R))
           (self : MultiHeadAttention) (training : bool) (keep : list Z -> bool)
           (x : Tensor R) (mask : option bool) : result (Tensor R) :=
  '(B, S_, E) <- size3 x ;;
  (* pull out the query, key, value from the concatenated projection *)
  y <- Linear_forward (c_attn self) x ;;
  chunks <- split y (d_model self) 2 ;;
  '(q, k, v) <- unpack3 chunks ;;
  (* split heads and transpose to (B, n_head, S, E // n_head) *)
  hq <- py_floordiv E (n_head self) ;;
  q <- view q [B; S_; n_head self; hq] ;;
  q <- transpose q 1 2 ;;
  hk <- py_floordiv E (n_head self) ;;
  k <- view k [B; S_; n_head self; hk] ;;
  k <- transpose k 1 2 ;;
  hv <- py_floordiv E (n_head self) ;;
  v <- view v [B; S_; n_head self; hv] ;;
  v <- transpose v 1 2 ;;
  (* apply attention *)
  y <- sdpa q k v (dropout self) mask ;;
  (* concatenate heads and transpose to (B, S, E) *)
  y <- transpose y 1 2 ;;
  y <- view (contiguous y) [B; S_; E] ;;
  (* apply drop out to final linear projection *)
  y <- Linear_forward (c_proj self) y ;;
  Ok (Torch.dropout (p (resid_dropout self)) training keep y).

End CommonAttention.

(** ** transformer/transformer.py *)

Module Transformer.
Import Torch.

(** A tensor of token ids, [(batch, length)], as its rows. *)
Definition LongTensor : Type := list (list Z).

Record TransformerConfig : Type := mkConfig {
  d_model : Z;
  n_stack : Z;
  n_head : Z;
  d_ffn_hidden : Z;
  dropout : R;
  src_max_len : Z;
  tgt_max_len : Z;
  src_vocab_size : Z;
  tgt_vocab_size : Z;
  pad_idx : Z
}.

(** *** nn.Module

    A module owns a training flag, parameters and buffers of its own
    (the payload) and its registered submodules. *)
#[local] Set Warnings "-register-all".
Inductive Module (P : Type) : Type :=
| Mod (training : bool) (payload : P) (children : list (Module P)).

Arguments Mod {P} training payload children.

(** [module.train(mode)]: the flag of the module and of every submodule. *)
Fixpoint train {P : Type} (mode : bool) (m : Module P) : Module P :=
  match m with
  | Mod _ payload children => Mod mode payload (map (train mode) children)
  end.

Fixpoint all_flags {P : Type} (mode : bool) (m : Module P) : bool :=
  match m with
  | Mod training _ children =>
      Bool.eqb training mode && forallb (all_flags mode) children
  end.

Fixpoint payloads {P : Type} (m : Module P) : list P :=
  match m with
  | Mod _ payload children => payload :: flat_map payloads children
  end.

(** The two [nn.ModuleDict]s of [Transformer.__init__] and the model. *)
Record EncBlock (P : Type) : Type := mkEncBlock {
  enc_training : bool;
  enc_p_emb : Module P;
  enc_encoder : Module P
}.

Record DecBlock (P : Type) : Type := mkDecBlock {
  dec_training : bool;
  dec_p_emb : Module P;
  dec_decoder : Module P;
  dec_gen : Module P
}.

Record Model (P : Type) : Type := mkModel {
  training : bool;
  config : TransformerConfig;
  enc_block : EncBlock P;
  dec_block : DecBlock P
}.

Arguments mkEncBlock {P}. Arguments enc_training {P}. Arguments enc_p_emb {P}.
Arguments enc_encoder {P}.
Arguments mkDecBlock {P}. Arguments dec_training {P}. Arguments dec_p_emb {P}.
Arguments dec_decoder {P}. Arguments dec_gen {P}.
Arguments mkModel {P}. Arguments training {P}. Arguments config {P}.
Arguments enc_block {P}. Arguments dec_block {P}.

Definition model_train {P : Type} (mode : bool) (m : Model P) : Model P :=
  mkModel mode (config m)
    (mkEncBlock mode
       (train mode (enc_p_emb (enc_block m)))
       (train mode (enc_encoder (enc_block m))))
    (mkDecBlock mode
       (train mode (dec_p_emb (dec_block m)))
       (train mode (dec_decoder (dec_block m)))
       (train mode (dec_gen (dec_block m)))).

Definition model_all_flags {P : Type} (mode : bool) (m : Model P) : bool :=
  Bool.eqb (training m) mode
  && Bool.eqb (enc_training (enc_block m)) mode
  && all_flags mode (enc_p_emb (enc_block m))
  && all_flags mode (enc_encoder (enc_block m))
  && Bool.eqb (dec_training (dec_block m)) mode
  && all_flags mode (dec_p_emb (dec_block m))
  && all_flags mode (dec_decoder (dec_block m))
  && all_flags mode (dec_gen (dec_block m)).

Definition model_payloads {P : Type} (m : Model P) : list P :=
  payloads (enc_p_emb (enc_block m)) ++ payloads (enc_encoder (enc_block m))
  ++ payloads (dec_p_emb (dec_block m)) ++ payloads (dec_decoder (dec_block m))
  ++ payloads (dec_gen (dec_block m)).

(** *** The classes whose files are not among the sources

    [Embedding], [PositionalEncoding], [Encoder], [Decoder] and
    [Generator] are taken as parameters: the forward pass of each reads
    its module (parameters and training flag) and threads the state
    [Rng] of the random source.  [draw probs n] is the categorical draw
    of [torch.multinomial] from [n] probabilities. *)
Record Submodules (P Rng : Type) : Type := mkSubmodules {
  p_emb_forward : Module P -> LongTensor -> SE Rng (Tensor R);
  Encoder_forward : Module P -> Tensor R -> option (Tensor bool) -> SE Rng (Tensor R);
  Decoder_forward : Module P -> Tensor R -> Tensor R -> option (Tensor bool)
                    -> option (Tensor bool) -> SE Rng (Tensor R);
  Generator_forward : Module P -> Tensor R -> SE Rng (Tensor R);
  draw : (Z -> R) -> Z -> SE Rng Z
}.

Arguments mkSubmodules {P Rng}.
Arguments p_emb_forward {P Rng}. Arguments Encoder_forward {P Rng}.
Arguments Decoder_forward {P Rng}. Arguments Generator_forward {P Rng}.
Arguments draw {P Rng}.

(** The state of a call: the model object and the random source. *)
Definition State (P Rng : Type) : Type := (Model P * Rng)%type.

Definition call {P Rng A : Type} (sel : Model P -> Module P)
           (f : Module P -> SE Rng A) : SE (State P Rng) A :=
  fun st =>
    let (r, g) := f (sel (fst st)) (snd st) in
    (r, (fst st, g)).

Definition with_rng {P Rng A : Type} (f : SE Rng A) : SE (State P Rng) A :=
  fun st => let (r, g) := f (snd st) in (r, (fst st, g)).

(** [self.eval()] *)
Definition eval {P Rng : Type} : SE (State P Rng) unit :=
  fun st => (Ok tt, (model_train false (fst st), snd st)).

Section Methods.
Context {P Rng : Type} (sub : Submodules P Rng).

Definition _encode (src : LongTensor) (mask : option (Tensor bool))
  : SE (State P Rng) (Tensor R) :=
  we <~ call (fun m => enc_p_emb (enc_block m))
             (fun md => p_emb_forward sub md src) ;;
  call (fun m => enc_encoder (enc_block m))
       (fun md => Encoder_forward sub md we mask).

Definition _decode (memory : Tensor R) (memory_mask : option (Tensor bool))
           (tgt : LongTensor) (mask : option (Tensor bool))
  : SE (State P Rng) (Tensor R) :=
  we <~ call (fun m => dec_p_emb (dec_block m))
             (fun md => p_emb_forward sub md tgt) ;;
  call (fun m => dec_decoder (dec_block m))
       (fun md => Decoder_forward sub md we memory mask memory_mask).

Definition gen (dec_out : Tensor R) : SE (State P Rng) (Tensor R) :=
  call (fun m => dec_gen (dec_block m))
       (fun md => Generator_forward sub md dec_out).

Definition forward (src tgt : LongTensor) (src_mask tgt_mask : option (Tensor bool))
  : SE (State P Rng) (Tensor R) :=
  enc_out <~ _encode src src_mask ;;
  dec_out <~ _decode enc_out src_mask tgt tgt_mask ;;
  gen dec_out.

(** [logits[:, -1, :]]: three indices need a tensor of three axes at
    least, and [-1] a second axis that is not empty. *)
Definition select_last (logits : Tensor R) : result (Tensor R) :=
  match shape logits with
  | b :: t :: n :: rest =>
      if t =? 0 then Raise IndexError
      else Ok (mkTensor (b :: n :: rest)
                        (fun idx => get logits (insert_nth 1 (t - 1) idx)))
  | _ => Raise IndexError
  end.

(** [torch.softmax(x, dim=-1)] *)
Definition softmax (x : Tensor R) : Tensor R :=
  mkTensor (shape x)
           (fun idx =>
              (exp (get x idx)
               / sumR (last (shape x) 1%Z)
                      (fun j => exp (get x (removelast idx ++ [j]))))%R).

(** [torch.multinomial(prob, num_samples=1)] on a [(rows, n)] tensor:
    one draw per row, a [(rows, 1)] tensor of ids.  (torch also takes
    a 1-D [prob]; [generate] never has one.) *)
Fixpoint draw_rows (prob : Tensor R) (n : Z) (rows : list nat)
  : SE Rng LongTensor :=
  match rows with
  | [] => se_ret []
  | i :: rows' =>
      t <~ draw sub (fun j => get prob [Z.of_nat i; j]) n ;;
      ts <~ draw_rows prob n rows' ;;
      se_ret ([t] :: ts)
  end.

Definition multinomial (prob : Tensor R) : SE Rng LongTensor :=
  match shape prob with
  | [rows; n] => draw_rows prob n (seq 0 (Z.to_nat rows))
  | _ => se_lift (Raise RuntimeError)
  end.

(** [torch.cat([a, b], dim=-1)] on 2-D tensors *)
Fixpoint cat_rows (a b : LongTensor) : result LongTensor :=
  match a, b with
  | [], [] => Ok []
  | ra :: a', rb :: b' => rest <- cat_rows a' b' ;; Ok ((ra ++ rb) :: rest)
  | _, _ => Raise RuntimeError
  end.

(** [t.item()] *)
Definition item (t : LongTensor) : result Z :=
  match t with
  | [[x]] => Ok x
  | _ => Raise RuntimeError
  end.

(** One pass through the body of the [for] loop of [generate], up to
    the test of the sampled token: the grown sequence and the token. *)
Definition generate_step (enc_mem : Tensor R) (generated_tokens : LongTensor)
  : SE (State P Rng) (LongTensor * Z) :=
  dec_out <~ _decode enc_mem None generated_tokens None ;;
  logits <~ gen dec_out ;;
  last_logits <~ se_lift (select_last logits) ;;
  let prob := softmax last_logits in
  (* sample from the probability distribution (random sampling) *)
  sampled_token <~ with_rng (multinomial prob) ;;
  (* Append the sampled token to the input sequence for the next time step *)
  generated_tokens <~ se_lift (cat_rows generated_tokens sampled_token) ;;
  t <~ se_lift (item sampled_token) ;;
  se_ret (generated_tokens, t).

(** [for _ in range(n): ...; if sampled_token.item() == end_token_idx: break] *)
Fixpoint generate_loop (enc_mem : Tensor R) (end_token_idx : Z) (n : nat)
         (generated_tokens : LongTensor) : SE (State P Rng) LongTensor :=
  match n with
  | O => se_ret generated_tokens
  | S n' =>
      '(generated_tokens, t) <~ generate_step enc_mem generated_tokens ;;
      (* check if the sampled token is the end token *)
      if t =? end_token_idx then se_ret generated_tokens
      else generate_loop enc_mem end_token_idx n' generated_tokens
  end.

(** [generate] runs under [@torch.no_grad()]; gradients are not part of
    the model of a tensor. *)
Definition generate (input : LongTensor) (max_new_tokens : Z)
           (start_token_idx end_token_idx : Z) : SE (State P Rng) LongTensor :=
  _ <~ eval ;;
  enc_mem <~ _encode input None ;;
  let generated_tokens := [[start_token_idx]] in
  generate_loop enc_mem end_token_idx (Z.to_nat max_new_tokens) generated_tokens.

(** [k] passes through the loop body without the test for the end
    token: the sequence grown by the [k] sampled tokens, and these. *)
Fixpoint iterate_step (enc_mem : Tensor R) (k : nat) (generated_tokens : LongTensor)
  : SE (State P Rng) (LongTensor * list Z) :=
  match k with
  | O => se_ret (generated_tokens, [])
  | S k' =>
      '(generated_tokens, t) <~ generate_step enc_mem generated_tokens ;;
      '(out, ts) <~ iterate_step enc_mem k' generated_tokens ;;
      se_ret (out, t :: ts)
  end.

End Methods.

(** A computation that leaves the model object as it found it. *)
Definition keeps_model {P Rng A : Type} (c : SE (State P Rng) A) : Prop :=
  forall st, fst (snd (c st)) = fst st.

(** The contract of [generate] on the returned row: it begins with the
    start token, has between 2 and [max_new_tokens + 1] elements, and holds
    the end token at its last position only. *)
Definition generate_contract (max_new_tokens start_token_idx end_token_idx : Z)
           (row : list Z) : Prop :=
  hd_error row = Some start_token_idx
  /\ 2 <= Z.of_nat (length row) <= max_new_tokens + 1
  /\ (forall i, nth_error row i = Some end_token_idx -> S i = length row).

(** [generate] with the loop replaced by exactly [k] passes of its body. *)
Definition generate_unrolled {P Rng : Type} (sub : Submodules P Rng) (k : nat)
           (input : LongTensor) (start_token_idx : Z)
  : SE (State P Rng) (LongTensor * list Z) :=
  _ <~ eval ;;
  enc_mem <~ _encode sub input None ;;
  iterate_step sub enc_mem k [[start_token_idx]].

End Transformer.

(** ** A small attention layer

    Width 4, two heads, dropout rate 1/2; the projections of query, key
    and value are zero and the output projection is the constant 1. *)

Module Example.
Import Torch.

Definition const (s : list Z) (r : R) : Tensor R := mkTensor s (fun _ => r).

Definition layer : Attention.MultiHeadAttention :=
  Attention.mkMHA
    (mkLinear 4 12 (const [12; 4] 0%R) (const [12] 0%R))
    (mkLinear 4 4 (const [4; 4] 0%R) (const [4] 1%R))
    2 4 (ScaledDP.mkSDP (1 / 2)%R).

(** Two inputs of shape (1, 2, 4) that agree at position 0 only. *)
Definition x1 : Tensor R := const [1; 2; 4] 1%R.

Definition x2 : Tensor R :=
  mkTensor [1; 2; 4]
           (fun idx => match idx with
                       | [_; s; _] => if s =? 0 then 1%R else 5%R
                       | _ => 0%R
                       end).


(** torch's functional attention refusing the keyword [dropout]. *)
Definition sdpa_refusing (q k v : Tensor R) (dropout : R) (is_causal : option bool)
  : result (Tensor R) := Raise TypeError.

(** A decoder state of length 1 and an encoder memory of length 3. *)
Definition query : Tensor R := const [1; 1; 4] 1%R.
Definition memory : Tensor R := const [1; 3; 4] 1%R.

End Example.

(** ** A small instance of the absent classes

    Used to run [generate] on concrete inputs: hidden states of width one,
    a vocabulary of three ids, and a random source that is the list of
    the ids still to be drawn. *)

Module Toy.
Import Torch Transformer.

Definition zeros (s : list Z) : Tensor R := mkTensor s (fun _ => 0%R).

Definition rows_cols (t : LongTensor) : list Z :=
  [Z.of_nat (length t); Z.of_nat (length (hd [] t))].

Definition pop : SE (list Z) Z :=
  fun g =>
    match g with
    | t :: g' => (Ok t, g')
    | [] => (Raise RuntimeError, [])
    end.

Definition sub : Submodules unit (list Z) :=
  mkSubmodules
    (fun _ toks => se_ret (zeros (rows_cols toks ++ [1])))
    (fun _ x _ => se_ret x)
    (fun _ x _ _ _ => se_ret x)
    (fun _ x => se_ret (zeros (removelast (shape x) ++ [3])))
    (fun _ _ => pop).

Definition leaf (training : bool) : Module unit := Mod training tt [].

Definition config : TransformerConfig :=
  mkConfig 32 2 4 64 0%R 20 20 50 50 0.

(** A model in training mode, as a constructor leaves it. *)
Definition model : Model unit :=
  mkModel true config
    (mkEncBlock true (Mod true tt [leaf true; leaf true]) (Mod true tt [leaf true]))
    (mkDecBlock true (Mod true tt [leaf true; leaf true]) (Mod true tt [leaf true])
                (leaf true)).

End Toy.
(** ** The decoder stack *)

Module Decoder.
Import Torch Transformer.

(** Modelled from the spec: transformer/decoder.py, embedding.py and
    position.py are not among the sources.  Spec 4.4: each block is
    (a) masked self-attention over the target-side hidden state, with the
    mask it is given, residual + normalize; (b) cross-attention where the
    query comes from the block's own hidden state and key/value come from
    the encoder memory, masked by the source-padding mask, residual +
    normalize; (c) feed-forward sublayer, residual + normalize; [n_stack]
    blocks in sequence.  Both attention sublayers are the
    MultiHeadAttention of transformer/attention.py, called the way its
    [forward(self, x, *qkv, mask=None)] is written: self-attention as
    [self_attn(x, mask=mask)] and cross-attention as
    [cross_attn(x, x, memory, memory, mask=memory_mask)].  Normalization
    and feed-forward act on one target position at a time and are any
    functions of the row of features at that position. *)
Definition Row : Type := Z -> R.

Record DecoderBlock : Type := mkBlock {
  self_attn : Attention.MultiHeadAttention;
  norm1 : Row -> Row;
  cross_attn : Attention.MultiHeadAttention;
  norm2 : Row -> Row;
  ffn : Row -> Row;
  norm3 : Row -> Row
}.

Definition rowwise (f : Row -> Row) (t : Tensor R) : Tensor R :=
  mkTensor (shape t)
           (fun idx => match idx with
                       | [b; s; e] => f (fun c => get t [b; s; c]) e
                       | _ => 0%R
                       end).

Definition add (a b : Tensor R) : Tensor R :=
  mkTensor (shape a) (fun idx => (get a idx + get b idx)%R).

Definition block_forward (blk : DecoderBlock) (training : bool) (keep : list Z -> bool)
           (x memory : Tensor R) (mask memory_mask : option (Tensor bool))
  : result (Tensor R) :=
  a <- Attention.forward (self_attn blk) training keep x [] mask ;;
  let x := rowwise (norm1 blk) (add x a) in
  c <- Attention.forward (cross_attn blk) training keep x [x; memory; memory]
                         memory_mask ;;
  let x := rowwise (norm2 blk) (add x c) in
  let x := rowwise (norm3 blk) (add x (rowwise (ffn blk) x)) in
  Ok x.

Fixpoint forward (blocks : list DecoderBlock) (training : bool) (keep : list Z -> bool)
         (x memory : Tensor R) (mask memory_mask : option (Tensor bool))
  : result (Tensor R) :=
  match blocks with
  | [] => Ok x
  | blk :: blocks' =>
      x' <- block_forward blk training keep x memory mask memory_mask ;;
      forward blocks' training keep x' memory mask memory_mask
  end.

(** Modelled from the spec: Embedding followed by PositionalEncoding
    (spec 2, 3 and 7): position [s] of the output is the (scaled)
    embedding of the token at [s] plus the encoding of [s]; a sequence
    longer than the configured maximum is a shape error.  Dropout is the
    identity in evaluation mode, the mode [generate] decodes in. *)
Record PositionalEmbedding : Type := mkPEmb {
  embed : Z -> Row;
  pe : Z -> Row;
  width : Z;
  max_len : Z
}.

Definition p_emb_forward (p : PositionalEmbedding) (toks : LongTensor)
  : result (Tensor R) :=
  let len := Z.of_nat (length (hd [] toks)) in
  if max_len p <? len then Raise RuntimeError
  else Ok (mkTensor [Z.of_nat (length toks); len; width p]
             (fun idx =>
                match idx with
                | [b; s; e] =>
                    (embed p (nth (Z.to_nat s) (nth (Z.to_nat b) toks []) 0%Z) e
                     + pe p s e)%R
                | _ => 0%R
                end)).

(** The parameters a module of the model owns. *)
Inductive Payload : Type :=
| NoParams
| EmbeddingParams (p : PositionalEmbedding)
| DecoderParams (blocks : list DecoderBlock).

Definition payload_of (m : Module Payload) : Payload :=
  match m with Mod _ payload _ => payload end.

Definition training_of (m : Module Payload) : bool :=
  match m with Mod training _ _ => training end.

(** The submodules of a model whose decoder side is the one above; the
    encoder side and the generator pass their input through, and the
    random source has a single state. *)
Definition sub : Submodules Payload unit :=
  mkSubmodules
    (fun md toks =>
       match payload_of md with
       | EmbeddingParams p => se_lift (p_emb_forward p toks)
       | _ => se_lift (Raise TypeError)
       end)
    (fun _ x _ => se_ret x)
    (fun md x memory mask memory_mask =>
       match payload_of md with
       | DecoderParams blocks =>
           se_lift (forward blocks (training_of md) (fun _ => true)
                            x memory mask memory_mask)
       | _ => se_lift (Raise TypeError)
       end)
    (fun _ x => se_ret x)
    (fun _ _ => se_lift (Ok 0)).

(** A model in evaluation mode around a decoder side. *)
Definition model (p : PositionalEmbedding) (blocks : list DecoderBlock)
  : Model Payload :=
  mkModel false Toy.config
    (mkEncBlock false (Mod false (EmbeddingParams p) []) (Mod false NoParams []))
    (mkDecBlock false (Mod false (EmbeddingParams p) [])
                (Mod false (DecoderParams blocks) [])
                (Mod false NoParams [])).

End Decoder.

(** ** A one-block decoder

    Width 4, two heads: the attention layer of [Example] for
    self-attention and for cross-attention, normalizations and
    feed-forward that leave a row as it is; token [t] is embedded as the
    row of value [t] and the positional encoding is zero, for sequences
    of up to 20 tokens. *)

Module OneBlock.
Import Torch Decoder.

Definition block : DecoderBlock :=
  mkBlock Example.layer (fun row => row) Example.layer (fun row => row)
          (fun row => row) (fun row => row).

Definition p_emb : PositionalEmbedding :=
  mkPEmb (fun tok _ => IZR tok) (fun _ _ => 0%R) 4 20.

(** The memory of a source of three tokens. *)
Definition memory3 : Tensor R := Example.const [1; 3; 4] 1%R.

End OneBlock.

(** ** Transformer.__init__ *)

Module ModelInit.
Import Torch.

(** What a module of the model owns. *)
Inductive Params : Type :=
| Container
| EmbeddingTable (weight : Tensor R)
| EncodingTable (pe : Tensor R) (drop : CommonAttention.Dropout)
| AttentionLayer (mha : Attention.MultiHeadAttention)
| LinearLayer (l : Linear)
| NormLayer (weight bias : Tensor R).

Definition leaf (p : Params) : Transformer.Module Params :=
  Transformer.Mod true p [].

(** Modelled from the spec: transformer/embedding.py is not among the
    sources.  Spec 2 and 3: Embedding maps token ids to dense vectors and
    owns a table with one row per vocabulary id, the row of the padding id
    set apart: [nn.Embedding(vocab_size, d_model, padding_idx)], which
    asserts that the padding id lies within the table and creates the
    table. *)
Definition Embedding (init : nat -> list Z -> R) (vocab_size d_model pad_idx : Z)
  : Ctor (Transformer.Module Params) :=
  _ <~ se_lift (py_assert (if 0 <? pad_idx then pad_idx <? vocab_size
                           else if pad_idx <? 0 then - vocab_size <=? pad_idx
                           else true)) ;;
  weight <~ empty init [vocab_size; d_model] ;;
  se_ret (leaf (EmbeddingTable weight)).

(** Modelled from the spec: transformer/position.py is not among the
    sources.  Spec 2 and 7: PositionalEncoding injects order information
    for positions up to the configured maximum length: a dropout of the
    given rate and a table with one row of width [d_model] per
    position. *)
Definition PositionalEncoding (init : nat -> list Z -> R) (d_model : Z) (dropout : R)
           (max_len : Z) : Ctor (Transformer.Module Params) :=
  drop <~ CommonAttention.nn_Dropout dropout ;;
  pe <~ empty init [max_len; d_model] ;;
  se_ret (leaf (EncodingTable pe drop)).

(** [nn.LayerNorm(d_model)]: a weight and a bias of width [d_model]. *)
Definition LayerNorm (init : nat -> list Z -> R) (d_model : Z)
  : Ctor (Transformer.Module Params) :=
  weight <~ empty init [d_model] ;;
  bias <~ empty init [d_model] ;;
  se_ret (leaf (NormLayer weight bias)).

(** Modelled from the spec: the feed-forward sublayer is not among the
    sources.  Spec 4.3: two linear transforms,
    [d_model -> d_ffn_hidden -> d_model]. *)
Definition FeedForward (init : nat -> list Z -> R) (d_model d_ffn_hidden : Z)
  : Ctor (Transformer.Module Params) :=
  l1 <~ nn_Linear init d_model d_ffn_hidden ;;
  l2 <~ nn_Linear init d_ffn_hidden d_model ;;
  se_ret (Transformer.Mod true Container [leaf (LinearLayer l1); leaf (LinearLayer l2)]).

(** [[c() for _ in range(n)]] *)
Fixpoint repeat_ctor {A : Type} (n : nat) (c : Ctor A) : Ctor (list A) :=
  match n with
  | O => se_ret []
  | S n' => a <~ c ;; rest <~ repeat_ctor n' c ;; se_ret (a :: rest)
  end.

(** Modelled from the spec: transformer/encoder.py is not among the
    sources.  Spec 4.3: each block is a self-attention sublayer, residual
    add and normalization, then a feed-forward sublayer, residual add and
    normalization; [n_stack] blocks.  Self-attention is the
    MultiHeadAttention of transformer/attention.py. *)
Definition EncoderBlock (init : nat -> list Z -> R) (d_model n_head d_ffn_hidden : Z)
           (dropout : R) : Ctor (Transformer.Module Params) :=
  self_attn <~ Attention.__init__ init d_model n_head dropout ;;
  norm1 <~ LayerNorm init d_model ;;
  ffn <~ FeedForward init d_model d_ffn_hidden ;;
  norm2 <~ LayerNorm init d_model ;;
  se_ret (Transformer.Mod true Container
            [leaf (AttentionLayer self_attn); norm1; ffn; norm2]).

Definition Encoder (init : nat -> list Z -> R) (d_model n_stack n_head d_ffn_hidden : Z)
           (dropout : R) : Ctor (Transformer.Module Params) :=
  blocks <~ repeat_ctor (Z.to_nat n_stack)
                        (EncoderBlock init d_model n_head d_ffn_hidden dropout) ;;
  se_ret (Transformer.Mod true Container blocks).

(** Modelled from the spec: transformer/decoder.py is not among the
    sources.  Spec 4.4: each block is masked self-attention,
    cross-attention over the encoder memory and a feed-forward sublayer,
    each followed by residual add and normalization; [n_stack] blocks. *)
Definition DecoderBlock (init : nat -> list Z -> R) (d_model n_head d_ffn_hidden : Z)
           (dropout : R) : Ctor (Transformer.Module Params) :=
  self_attn <~ Attention.__init__ init d_model n_head dropout ;;
  norm1 <~ LayerNorm init d_model ;;
  cross_attn <~ Attention.__init__ init d_model n_head dropout ;;
  norm2 <~ LayerNorm init d_model ;;
  ffn <~ FeedForward init d_model d_ffn_hidden ;;
  norm3 <~ LayerNorm init d_model ;;
  se_ret (Transformer.Mod true Container
            [leaf (AttentionLayer self_attn); norm1;
             leaf (AttentionLayer cross_attn); norm2; ffn; norm3]).

Definition Decoder (init : nat -> list Z -> R) (d_model n_stack n_head d_ffn_hidden : Z)
           (dropout : R) : Ctor (Transformer.Module Params) :=
  blocks <~ repeat_ctor (Z.to_nat n_stack)
                        (DecoderBlock init d_model n_head d_ffn_hidden dropout) ;;
  se_ret (Transformer.Mod true Container blocks).

(** Modelled from the spec: transformer/generator.py is not among the
    sources.  Spec 4.5: a linear projection from the model width to the
    target vocabulary size. *)
Definition Generator (init : nat -> list Z -> R) (d_model vocab_size : Z)
  : Ctor (Transformer.Module Params) :=
  proj <~ nn_Linear init d_model vocab_size ;;
  se_ret (leaf (LinearLayer proj)).

(** [Transformer.__init__(self, config)], lines 48-77: the arguments of
    [nn.Sequential] and of [dict] are evaluated from left to right, so
    the source embedding and positional encoding are built before the
    encoder, and the encoder side before the decoder side. *)
Definition __init__ (init : nat -> list Z -> R) (config : Transformer.TransformerConfig)
  : Ctor (Transformer.Model Params) :=
  src_emb <~ Embedding init (Transformer.src_vocab_size config)
                       (Transformer.d_model config) (Transformer.pad_idx config) ;;
  src_pos <~ PositionalEncoding init (Transformer.d_model config)
                                (Transformer.dropout config)
                                (Transformer.src_max_len config) ;;
  encoder <~ Encoder init (Transformer.d_model config) (Transformer.n_stack config)
                     (Transformer.n_head config) (Transformer.d_ffn_hidden config)
                     (Transformer.dropout config) ;;
  tgt_emb <~ Embedding init (Transformer.tgt_vocab_size config)
                       (Transformer.d_model config) (Transformer.pad_idx config) ;;
  tgt_pos <~ PositionalEncoding init (Transformer.d_model config)
                                (Transformer.dropout config)
                                (Transformer.tgt_max_len config) ;;
  decoder <~ Decoder init (Transformer.d_model config) (Transformer.n_stack config)
                     (Transformer.n_head config) (Transformer.d_ffn_hidden config)
                     (Transformer.dropout config) ;;
  gen <~ Generator init (Transformer.d_model config)
                   (Transformer.tgt_vocab_size config) ;;
  se_ret (Transformer.mkModel true config
            (Transformer.mkEncBlock true
               (Transformer.Mod true Container [src_emb; src_pos]) encoder)
            (Transformer.mkDecBlock true
               (Transformer.Mod true Container [tgt_emb; tgt_pos]) decoder gen)).


End ModelInit.


(** ** A layer as the constructor returns it *)

Module Built.
Import Torch.

(** The layer [MultiHeadAttention(4, 2, 0.5)] with all parameters
    initialised to zero, and what it returns on [Example.x1]. *)
Definition layer : Attention.MultiHeadAttention :=
  match fst (Attention.__init__ (fun _ _ => 0%R) 4 2 (1 / 2)%R []) with
  | Ok m => m
  | Raise _ => Example.layer
  end.

Definition out : Tensor R :=
  match Attention.forward layer false (fun _ => true) Example.x1 [] None with
  | Ok y => y
  | Raise _ => Example.x1
  end.

(** Two batches of two sequences, shape (2, 2, 4), that agree on the
    first sequence and differ on the second. *)
Definition batch_a : Tensor R := Example.const [2; 2; 4] 1%R.

Definition batch_b : Tensor R :=
  mkTensor [2; 2; 4]
           (fun idx => match idx with
                       | [b; _; _] => if b =? 0 then 1%R else 7%R
                       | _ => 0%R
                       end).

End Built.

(** The layer [MultiHeadAttention(4, 2, 0.5)] of
    transformer/common/attention.py with all parameters zero. *)
Module BuiltCommon.
Import Torch.

Definition layer : CommonAttention.MultiHeadAttention :=
  CommonAttention.mkMHA
    (mkLinear 4 12 (mkTensor [12; 4] (fun _ => 0%R)) (mkTensor [12] (fun _ => 0%R)))
    (mkLinear 4 4 (mkTensor [4; 4] (fun _ => 0%R)) (mkTensor [4] (fun _ => 0%R)))
    2 4 (1 / 2)%R (CommonAttention.mkDropout (1 / 2)%R).

End BuiltCommon.

(** ** Splitting into heads and merging them

    The two reshaping expressions of [MultiHeadAttention.forward], on
    their own. *)

Module Heads.
Import Torch.

(** [t.view(B, S, n_head, E // n_head).transpose(1, 2)] *)
Definition split_heads {A : Type} (t : Tensor A) (B S_ n_head E : Z)
  : result (Tensor A) :=
  hd <- py_floordiv E n_head ;;
  t <- view t [B; S_; n_head; hd] ;;
  transpose t 1 2.

(** [y.transpose(1, 2).contiguous().view(B, S, E)] *)
Definition merge_heads {A : Type} (y : Tensor A) (B S_ E : Z) : result (Tensor A) :=
  y <- transpose y 1 2 ;;
  view (contiguous y) [B; S_; E].

End Heads.

(** ** The loop body of [generate], from the logits on *)

Module Stepwise.
Import Torch Transformer.

Section Steps.
Context {P Rng : Type} (sub : Submodules P Rng).

(** Lines 145-154 of transformer.py: the last position of the logits,
    softmax, one multinomial draw, the draw appended. *)
Definition sample_next (logits : Tensor R) (generated_tokens : LongTensor)
  : SE (State P Rng) (LongTensor * Z) :=
  last_logits <~ se_lift (select_last logits) ;;
  let prob := softmax last_logits in
  sampled_token <~ with_rng (multinomial sub prob) ;;
  generated_tokens <~ se_lift (cat_rows generated_tokens sampled_token) ;;
  t <~ se_lift (item sampled_token) ;;
  se_ret (generated_tokens, t).

(** A pass that scores the sequence with [self.forward], without masks,
    encoding the source anew. *)
Definition step_by_forward (input generated_tokens : LongTensor)
  : SE (State P Rng) (LongTensor * Z) :=
  logits <~ forward sub input generated_tokens None None ;;
  sample_next logits generated_tokens.

End Steps.

End Stepwise.

(** ** Counting the calls of the encoder and of the decoder *)

Module Counted.
Import Transformer.

Record Calls : Type := mkCalls {
  encoder_calls : nat;
  decoder_calls : nat
}.

Definition tick_encoder (c : Calls) : Calls :=
  mkCalls (S (encoder_calls c)) (decoder_calls c).

Definition tick_decoder (c : Calls) : Calls :=
  mkCalls (encoder_calls c) (S (decoder_calls c)).

Section Counting.
Context {P Rng : Type} (sub : Submodules P Rng).

(** A forward pass run on the random source, the counters updated by
    [tick] whether it returns or raises. *)
Definition counted {A : Type} (tick : Calls -> Calls) (f : SE Rng A)
  : SE (Rng * Calls) A :=
  fun gc => let (r, g) := f (fst gc) in (r, (g, tick (snd gc))).

(** The submodules of [sub], with every call of the encoder and of the
    decoder counted. *)
Definition counting : Submodules P (Rng * Calls) :=
  mkSubmodules
    (fun md toks => counted (fun c => c) (p_emb_forward sub md toks))
    (fun md x mask => counted tick_encoder (Encoder_forward sub md x mask))
    (fun md x memory mask memory_mask =>
       counted tick_decoder (Decoder_forward sub md x memory mask memory_mask))
    (fun md x => counted (fun c => c) (Generator_forward sub md x))
    (fun probs n => counted (fun c => c) (draw sub probs n)).

End Counting.

(** The counters in a state of a call. *)
Definition calls {P Rng : Type} (st : State P (Rng * Calls)) : Calls :=
  snd (snd st).

(** The state with the counters forgotten. *)
Definition erase {P Rng : Type} (st : State P (Rng * Calls)) : State P Rng :=
  (fst st, fst (snd st)).

(** [c1], run with the counters, does what [c2] does without them, and
    when it returns it has called the encoder [enc] times and the decoder
    [dec] times. *)
Definition tracks {P Rng A : Type} (c1 : SE (State P (Rng * Calls)) A)
           (c2 : SE (State P Rng) A) (enc dec : nat) : Prop :=
  forall st,
    fst (c1 st) = fst (c2 (erase st))
    /\ erase (snd (c1 st)) = snd (c2 (erase st))
    /\ (forall a, fst (c1 st) = Ok a ->
          encoder_calls (calls (snd (c1 st))) = (encoder_calls (calls st) + enc)%nat
          /\ decoder_calls (calls (snd (c1 st)))
             = (decoder_calls (calls st) + dec)%nat).

End Counted.

(** ** Python dicts

    A dict is its items in insertion order; [dict_set] keeps the place of
    a key that is already there, as Python does. *)

Module PyDict.

Section Dict.
Context {K V : Type} (eqb : K -> K -> bool).

Definition dict : Type := list (K * V).

Fixpoint dict_get (d : dict) (k : K) : option V :=
  match d with
  | [] => None
  | (k', v) :: d' => if eqb k' k then Some v else dict_get d' k
  end.

(** [d[k] = v] *)
Fixpoint dict_set (d : dict) (k : K) (v : V) : dict :=
  match d with
  | [] => [(k, v)]
  | (k', v') :: d' =>
      if eqb k' k then (k', v) :: d' else (k', v') :: dict_set d' k v
  end.

(** [dict(pairs)] *)
Definition of_pairs (pairs : list (K * V)) : dict :=
  fold_left (fun d kv => dict_set d (fst kv) (snd kv)) pairs [].

(** [d.get(k, default)] *)
Definition get_default (d : dict) (k : K) (default : V) : V :=
  match dict_get d k with
  | Some v => v
  | None => default
  end.

End Dict.

End PyDict.

(** ** server.py

    The route [/generate].  Flask, the two tokenizers and the files read
    at start-up are outside the sources: the tokenizers are parameters,
    the token mappings are any dicts, and a request is the value of
    [req.get('query')] for a JSON body whose ['query'] is a string or
    absent. *)

Module Server.
Import String PyDict Transformer.

(** The exceptions of the model, and KeyError of a dict lookup. *)
Inductive Exn : Type :=
| KeyError
| ModelError (e : PyError).

Inductive outcome (A : Type) : Type :=
| Done (a : A)
| Fail (e : Exn).

Arguments Done {A} a.
Arguments Fail {A} e.

Definition and_then {A B : Type} (r : outcome A) (f : A -> outcome B) : outcome B :=
  match r with
  | Done a => f a
  | Fail e => Fail e
  end.

Declare Scope server_scope.
Delimit Scope server_scope with server.
Notation "x <- c1 ;; c2" := (and_then c1 (fun x => c2))
  (at level 100, c1 at next level, right associativity) : server_scope.
Local Open Scope server_scope.

(** [d[k]] *)
Definition index {K V : Type} (eqb : K -> K -> bool) (d : dict) (k : K)
  : outcome V :=
  match dict_get eqb d k with
  | Some v => Done v
  | None => Fail KeyError
  end.

(** [[f(x) for x in xs]], the elements evaluated from left to right *)
Fixpoint for_each {X Y : Type} (f : X -> outcome Y) (xs : list X)
  : outcome (list Y) :=
  match xs with
  | [] => Done []
  | x :: xs' => y <- f x ;; ys <- for_each f xs' ;; Done (y :: ys)
  end.

(** [tgt_idx2token = dict((idx, token) for token, idx in tgt_token2idx.items())] *)
Definition invert (token2idx : @dict string Z) : @dict Z string :=
  of_pairs Z.eqb (map (fun item => (snd item, fst item)) token2idx).

(** [model = Transformer(config); model.load_state_dict(...); model.eval();
    return model], on the model as constructed and loaded. *)
Definition load_model {P : Type} (constructed : Model P) : Model P :=
  model_train false constructed.

(** [jsonify(body), status] *)
Inductive Body : Type :=
| error_body (error : string)
| sql_body (sql : string).

Record Response : Type := mkResponse {
  body : Body;
  status : Z
}.

(** [not query] *)
Definition falsy (query : option string) : bool :=
  match query with
  | None => true
  | Some q => String.eqb q EmptyString
  end.

Section Route.
Context {P Rng : Type} (sub : Submodules P Rng).
(** [get_tokenizer('spacy', ...)], [bpe_tokenizer.token_to_id] and
    [bpe_tokenizer.decode] *)
Variable src_tokenizer : string -> list string.
Variable token_to_id : string -> option Z.
Variable bpe_decode : list (option Z) -> outcome string.
Variables src_token2idx tgt_token2idx : @dict string Z.

Definition tgt_idx2token : @dict Z string := invert tgt_token2idx.

(** Line 39: the ids of the source tokens between [<sos>] and [<eos>];
    the default [src_token2idx['<unk>']] is evaluated for every token. *)
Definition source_ids (src_tokens : list string) : outcome (list Z) :=
  sos <- index String.eqb src_token2idx "<sos>"%string ;;
  ids <- for_each (fun token =>
                     unk <- index String.eqb src_token2idx "<unk>"%string ;;
                     Done (get_default String.eqb src_token2idx token unk))
                  src_tokens ;;
  eos <- index String.eqb src_token2idx "<eos>"%string ;;
  Done ([sos] ++ ids ++ [eos]).

(** Line 43: the tokens of the ids that are not [<sos>], [<eos>] or
    [<pad>]; the list of the three ids is evaluated for every id. *)
Fixpoint target_tokens (res : list Z) : outcome (list string) :=
  match res with
  | [] => Done []
  | idx :: res' =>
      sos <- index String.eqb tgt_token2idx "<sos>"%string ;;
      eos <- index String.eqb tgt_token2idx "<eos>"%string ;;
      pad <- index String.eqb tgt_token2idx "<pad>"%string ;;
      if existsb (Z.eqb idx) [sos; eos; pad]
      then target_tokens res'
      else
        token <- index Z.eqb tgt_idx2token idx ;;
        tokens <- target_tokens res' ;;
        Done (token :: tokens)
  end.

(** Lines 42-43 on what [generate] returned.  [squeeze(0)] drops the
    batch axis of a one-row tensor; on a tensor of several rows it does
    nothing and the first row, a list, is no key of [tgt_idx2token]. *)
Definition response_tokens (res : LongTensor) : outcome (list string) :=
  match res with
  | [] => Done []
  | [row] => target_tokens row
  | _ :: _ :: _ =>
      sos <- index String.eqb tgt_token2idx "<sos>"%string ;;
      eos <- index String.eqb tgt_token2idx "<eos>"%string ;;
      pad <- index String.eqb tgt_token2idx "<pad>"%string ;;
      Fail (ModelError TypeError)
  end.

(** The route: the reply or the exception, and the state of the model
    and of the random source afterwards. *)
Definition generate (query : option string) (st : State P Rng)
  : outcome Response * State P Rng :=
  if falsy query
  then (Done (mkResponse (error_body "query is required"%string) 400), st)
  else
    let query := match query with Some q => q | None => EmptyString end in
    let src_tokens := src_tokenizer query in
    match source_ids src_tokens with
    | Fail e => (Fail e, st)
    | Done src_tokens =>
        let src_tensor := [src_tokens] in
        match Transformer.generate sub src_tensor 100 1 2 st with
        | (Raise e, st') => (Fail (ModelError e), st')
        | (Ok res, st') =>
            (res <- response_tokens res ;;
             let token_ids := map token_to_id res in
             res <- bpe_decode token_ids ;;
             Done (mkResponse (sql_body res) 200),
             st')
        end
    end.

(** Requests served one after the other; an exception in one is that
    request's failure and the next is served from the state it left. *)
Fixpoint serve (queries : list (option string)) (st : State P Rng)
  : list (outcome Response) * State P Rng :=
  match queries with
  | [] => ([], st)
  | query :: queries' =>
      let (r, st1) := generate query st in
      let (rs, st2) := serve queries' st1 in
      (r :: rs, st2)
  end.

End Route.

End Server.

(** ** Token mappings to run the route on *)

Module ToyServer.
Import String PyDict Server.

Definition src_token2idx : @dict string Z :=
  [("<pad>", 0); ("<sos>", 1); ("<eos>", 2); ("<unk>", 3); ("show", 4)]%string.

Definition tgt_token2idx : @dict string Z :=
  [("<pad>", 0); ("<sos>", 1); ("<eos>", 2); ("SELECT", 3)]%string.

(** A mapping that gives two tokens the same id. *)
Definition clashing : @dict string Z := [("a", 5); ("b", 5)]%string.

(** A tokenizer that makes one token of the query, and a sub-word
    tokenizer that knows no token and decodes to the empty string. *)
Definition src_tokenizer (query : string) : list string := [query].

Definition token_to_id (token : string) : option Z := None.

Definition bpe_decode (ids : list (option Z)) : outcome string := Done EmptyString.

End ToyServer.

(** ** Floating-point tensors

    The tensors of the program hold floats.  A float is a real number, an
    infinity or NaN; an operation on finite values is the operation on
    the reals followed by [round], the rounding of the format, which may
    overflow to an infinity, and on the other values it follows IEEE 754
    (signed zeros are not told apart).  [Attention] above is the program
    on finite values under exact arithmetic; [FloatAttention] below is
    the same code with the values a float tensor can hold. *)

Module Float.

Inductive float : Type :=
| Fin (r : R)
| PInf
| NInf
| NaN.

Definition is_finite (x : float) : bool :=
  match x with
  | Fin _ => true
  | _ => false
  end.

Section Format.
Variable round : R -> float.

Definition add (x y : float) : float :=
  match x, y with
  | NaN, _ => NaN
  | _, NaN => NaN
  | Fin a, Fin b => round (a + b)
  | PInf, NInf => NaN
  | NInf, PInf => NaN
  | PInf, _ => PInf
  | _, PInf => PInf
  | NInf, _ => NInf
  | _, NInf => NInf
  end.

(** [infinity * a] for a finite [a]: NaN for zero, else by sign. *)
Definition scaled_inf (a : R) (negative : bool) : float :=
  if Req_dec_T a 0 then NaN
  else if Bool.eqb (if Rlt_dec a 0 then true else false) negative then PInf
       else NInf.

Definition mul (x y : float) : float :=
  match x, y with
  | NaN, _ => NaN
  | _, NaN => NaN
  | Fin a, Fin b => round (a * b)
  | Fin a, PInf => scaled_inf a false
  | Fin a, NInf => scaled_inf a true
  | PInf, Fin b => scaled_inf b false
  | NInf, Fin b => scaled_inf b true
  | PInf, PInf => PInf
  | NInf, NInf => PInf
  | PInf, NInf => NInf
  | NInf, PInf => NInf
  end.

Definition div (x y : float) : float :=
  match x, y with
  | NaN, _ => NaN
  | _, NaN => NaN
  | Fin a, Fin b =>
      if Req_dec_T b 0
      then (if Req_dec_T a 0 then NaN else if Rlt_dec a 0 then NInf else PInf)
      else round (a / b)
  | Fin _, PInf => Fin 0
  | Fin _, NInf => Fin 0
  | PInf, Fin b => if Rlt_dec b 0 then NInf else PInf
  | NInf, Fin b => if Rlt_dec b 0 then PInf else NInf
  | _, _ => NaN
  end.

Definition exp (x : float) : float :=
  match x with
  | NaN => NaN
  | PInf => PInf
  | NInf => Fin 0
  | Fin a => round (Rtrigo_def.exp a)
  end.

Definition sqrt (x : float) : float :=
  match x with
  | NaN => NaN
  | PInf => PInf
  | NInf => NaN
  | Fin a => if Rlt_dec a 0 then NaN else round (R_sqrt.sqrt a)
  end.

Definition of_Z (n : Z) : float := round (IZR n).

(** Finite sums [f 0 + (f 1 + ... (f (n-1) + 0))]. *)
Definition sumF (n : Z) (f : Z -> float) : float :=
  fold_right (fun j acc => add (f (Z.of_nat j)) acc) (Fin 0) (seq 0 (Z.to_nat n)).

End Format.

End Float.

Module FloatTorch.
Import Torch Float.

Record Linear : Type := mkLinear {
  in_features : Z;
  out_features : Z;
  weight : Tensor float;   (* (out_features, in_features) *)
  bias : Tensor float      (* (out_features) *)
}.

Section Format.
Variable round : R -> float.

(** [F.linear] *)
Definition Linear_forward (l : Linear) (x : Tensor float) : result (Tensor float) :=
  match rev (shape x) with
  | [] => Raise RuntimeError
  | last_dim :: _ =>
      if last_dim =? in_features l then
        Ok (mkTensor
              (removelast (shape x) ++ [out_features l])
              (fun idx =>
                 let o := last idx 0 in
                 add round
                     (sumF round (in_features l)
                           (fun c => mul round (get x (removelast idx ++ [c]))
                                         (get (weight l) [o; c])))
                     (get (bias l) [o])))
      else Raise RuntimeError
  end.

(** [nn.Dropout] *)
Definition dropout (p : R) (training : bool) (keep : list Z -> bool)
           (t : Tensor float) : Tensor float :=
  if training
  then mkTensor (shape t)
                (fun idx => if keep idx
                            then div round (get t idx) (round (1 - p))
                            else Fin 0)
  else t.

End Format.

End FloatTorch.

Module FloatSDP.
Import Torch Float FloatTorch.

(** Modelled from the spec: transformer/scaled_dp_attn.py is not among
    the sources.  Spec 4.1, as in [ScaledDP]: the output is
    softmax((Q.K^T)/sqrt(d_k), masked).V, a masked position has its
    pre-softmax score set to negative infinity, and dropout is applied to
    the attention weights in training mode only. *)
Section Format.
Variable round : R -> float.

Definition scores (q k : Tensor float) (d : Z) (idx : list Z) : float :=
  match idx with
  | [b; h; i; j] =>
      div round
          (sumF round d (fun c => mul round (get q [b; h; i; c]) (get k [b; h; j; c])))
          (sqrt round (of_Z round d))
  | _ => Fin 0
  end.

Definition masked_fill (mask : option (Tensor bool)) (s : list Z -> float)
           (idx : list Z) : float :=
  if ScaledDP.permits mask idx then s idx else NInf.

(** softmax along the last axis, of length [n] *)
Definition softmax (n : Z) (s : list Z -> float) (idx : list Z) : float :=
  div round (exp round (s idx))
      (sumF round n (fun j => exp round (s (removelast idx ++ [j])))).

Definition forward (self : ScaledDP.ScaledDotProductAttention) (training : bool)
           (keep : list Z -> bool) (q k v : Tensor float)
           (mask : option (Tensor bool)) : result (Tensor float) :=
  match shape q, shape k, shape v with
  | [b; h; sq; d], [bk; hk; sk; dk], [bv; hv; sv; dv] =>
      if (b =? bk) && (b =? bv) && (h =? hk) && (h =? hv)
         && (d =? dk) && (sk =? sv)
      then
        if match mask with
           | None => true
           | Some m => ScaledDP.broadcastable (shape m) [b; h; sq; sk]
           end
        then
          let w := dropout round (ScaledDP.p self) training keep
                     (mkTensor [b; h; sq; sk]
                               (softmax sk (masked_fill mask (scores q k d)))) in
          Ok (mkTensor [b; h; sq; dv]
                (fun idx =>
                   match idx with
                   | [ib; ih; i; c] =>
                       sumF round sk
                            (fun j => mul round (get w [ib; ih; i; j])
                                          (get v [ib; ih; j; c]))
                   | _ => Fin 0
                   end))
        else Raise RuntimeError
      else Raise RuntimeError
  | _, _, _ => Raise RuntimeError
  end.

End Format.

End FloatSDP.

(** ** transformer/attention.py on float tensors *)

Module FloatAttention.
Import Torch Float.

Record MultiHeadAttention : Type := mkMHA {
  c_attn : FloatTorch.Linear;
  c_proj : FloatTorch.Linear;
  n_head : Z;
  d_model : Z;
  attn : ScaledDP.ScaledDotProductAttention
}.

Section Format.
Variable round : R -> float.

(** [forward(self, x, *qkv, mask=None)] *)
Definition forward (self : MultiHeadAttention) (training : bool)
           (keep : list Z -> bool) (x : Tensor float) (qkv : list (Tensor float))
           (mask : option (Tensor bool)) : result (Tensor float) :=
  '(B, S_, E) <- size3 x ;;
  (* for decoder's second attention layer we use encoder output as key and value *)
  '(q, k, v) <- match qkv with
                | _ :: _ => unpack3 qkv
                | [] =>
                    (* pull out the query, key, value from the concatenated projection *)
                    y <- FloatTorch.Linear_forward round (c_attn self) x ;;
                    chunks <- split y (d_model self) 2 ;;
                    unpack3 chunks
                end ;;
  (* split heads and transpose to (B, n_head, S, E // n_head) *)
  hq <- py_floordiv E (n_head self) ;;
  q <- view q [B; S_; n_head self; hq] ;;
  q <- transpose q 1 2 ;;
  hk <- py_floordiv E (n_head self) ;;
  k <- view k [B; S_; n_head self; hk] ;;
  k <- transpose k 1 2 ;;
  hv <- py_floordiv E (n_head self) ;;
  v <- view v [B; S_; n_head self; hv] ;;
  v <- transpose v 1 2 ;;
  (* apply attention *)
  mask <- match mask with
          | Some m =>
              (* for head axis broadcasting *)
              m' <- unsqueeze m 1 ;; Ok (Some m')
          | None => Ok None
          end ;;
  y <- FloatSDP.forward round (attn self) training keep q k v mask ;;
  (* concatenate heads and transpose to (B, S, E) *)
  y <- transpose y 1 2 ;;
  y <- view (contiguous y) [B; S_; E] ;;
  (* apply final linear projection *)
  y <- FloatTorch.Linear_forward round (c_proj self) y ;;
  Ok y.

(** *** The value of [forward] in the self-attention case, index by index *)

Definition linear_at (l : FloatTorch.Linear) (row : Z -> float) (o : Z) : float :=
  add round
      (sumF round (FloatTorch.in_features l)
            (fun c => mul round (row c) (get (FloatTorch.weight l) [o; c])))
      (get (FloatTorch.bias l) [o]).

Definition head_dim (self : MultiHeadAttention) : Z := d_model self / n_head self.

(** query ([part = 0]), key ([1]) and value ([2]) of position [s] *)
Definition qkv_at (self : MultiHeadAttention) (gx : list Z -> float)
           (part b s e : Z) : float :=
  linear_at (c_attn self) (fun c => gx [b; s; c]) (e + part * d_model self).

Definition score_at (self : MultiHeadAttention) (gx : list Z -> float)
           (b h i j : Z) : float :=
  div round
      (sumF round (head_dim self)
            (fun c => mul round (qkv_at self gx 0 b i (h * head_dim self + c))
                          (qkv_at self gx 1 b j (h * head_dim self + c))))
      (sqrt round (of_Z round (head_dim self))).

Definition exp_weight (self : MultiHeadAttention) (gx : list Z -> float)
           (mask : option (Tensor bool)) (b h i j : Z) : float :=
  exp round (if ScaledDP.permits mask [b; h; i; j]
             then score_at self gx b h i j else NInf).

Definition attn_weight (self : MultiHeadAttention) (training : bool)
           (keep : list Z -> bool) (gx : list Z -> float) (S_ : Z)
           (mask : option (Tensor bool)) (b h i j : Z) : float :=
  let w := div round (exp_weight self gx mask b h i j)
               (sumF round S_ (fun j' => exp_weight self gx mask b h i j')) in
  if training
  then (if keep [b; h; i; j]
        then div round w (round (1 - ScaledDP.p (attn self)))
        else Fin 0)
  else w.

Definition head_out (self : MultiHeadAttention) (training : bool)
           (keep : list Z -> bool) (gx : list Z -> float) (S_ : Z)
           (mask : option (Tensor bool)) (b h i d : Z) : float :=
  sumF round S_
       (fun j => mul round (attn_weight self training keep gx S_ mask b h i j)
                     (qkv_at self gx 2 b j (h * head_dim self + d))).

Definition mha_value (self : MultiHeadAttention) (training : bool)
           (keep : list Z -> bool) (gx : list Z -> float) (S_ : Z)
           (mask : option (Tensor bool)) (b i o : Z) : float :=
  linear_at (c_proj self)
            (fun e => head_out self training keep gx S_ mask b
                               (e / head_dim self) i (e mod head_dim self))
            o.

(** The value projections of [x] at the positions after [i], the third
    chunk of [self.c_attn(x)], are finite: no NaN, no infinity, no
    overflow. *)
Definition future_values_finite (self : MultiHeadAttention) (x : Tensor float)
           (B S_ i : Z) : Prop :=
  forall y, FloatTorch.Linear_forward round (c_attn self) x = Ok y ->
    forall b j c, 0 <= b < B -> i < j < S_ -> 0 <= c < d_model self ->
      is_finite (get y [b; j; 2 * d_model self + c]) = true.

(** Under the causal mask [mask], self-attention on (B, S, d_model)
    inputs gives the output at position [i] whatever the inputs hold at
    the positions after [i]. *)
Definition ignores_future (self : MultiHeadAttention) (mask : option (Tensor bool))
           (B S_ i : Z) : Prop :=
  forall (training : bool) (keep : list Z -> bool) (x x' y y' : Tensor float),
    shape x = [B; S_; d_model self] -> shape x' = [B; S_; d_model self] ->
    (forall b s c, 0 <= b < B -> 0 <= s <= i -> 0 <= c < d_model self ->
                   get x [b; s; c] = get x' [b; s; c]) ->
    forward self training keep x [] mask = Ok y ->
    forward self training keep x' [] mask = Ok y' ->
    forall b o, 0 <= b < B -> 0 <= o < d_model self ->
                get y [b; i; o] = get y' [b; i; o].

End Format.

(** A layer as the constructor builds it from a positive width and head
    count. *)
Definition well_formed (self : MultiHeadAttention) : Prop :=
  0 < n_head self /\ 0 < d_model self
  /\ d_model self mod n_head self = 0
  /\ FloatTorch.in_features (c_attn self) = d_model self
  /\ FloatTorch.out_features (c_attn self) = 3 * d_model self
  /\ FloatTorch.in_features (c_proj self) = d_model self
  /\ FloatTorch.out_features (c_proj self) = d_model self.

End FloatAttention.

(** ** A small attention layer on floats

    Width 1, one head, no dropout; every weight is 1 and every bias 0, so
    that query, key and value of a position are its input.  Arithmetic is
    exact: [round] is [Fin]. *)

Module FloatExample.
Import Torch Float.

Definition ones (s : list Z) : Tensor float := mkTensor s (fun _ => Fin 1).
Definition zeros (s : list Z) : Tensor float := mkTensor s (fun _ => Fin 0).

Definition layer : FloatAttention.MultiHeadAttention :=
  FloatAttention.mkMHA
    (FloatTorch.mkLinear 1 3 (ones [3; 1]) (zeros [3]))
    (FloatTorch.mkLinear 1 1 (ones [1; 1]) (zeros [1]))
    1 1 (ScaledDP.mkSDP 0%R).

(** Inputs of shape (1, 2, 1) that hold 1 at position 0 and, at position
    1, the value 1, the value 2 and positive infinity. *)
Definition input (future : float) : Tensor float :=
  mkTensor [1; 2; 1]
           (fun idx => match idx with
                       | [_; s; _] => if s =? 0 then Fin 1 else future
                       | _ => Fin 0
                       end).

Definition x1 : Tensor float := input (Fin 1).
Definition x2 : Tensor float := input (Fin 2).
Definition x_inf : Tensor float := input PInf.

End FloatExample.

(** * Theorems *)

(** ** Construction of MultiHeadAttention *)

Section Construction.
Import Torch.
Variable init : nat -> list Z -> R.
Variables (d h : Z) (p : R).
Variable log : list TensorOp.

Lemma attention_init_guard :
  Attention.__init__ init d h p log =
  if h =? 0 then (Raise ZeroDivisionError, log)
  else if d mod h =? 0
       then (c_attn <~ nn_Linear init d (3 * d) ;;
             c_proj <~ nn_Linear init d d ;;
             se_ret (Attention.mkMHA c_attn c_proj h d (ScaledDP.mkSDP p))) log
       else (Raise AssertionError, log).
Proof.
  unfold Attention.__init__, py_mod, py_assert.
  unfold se_bind at 1. unfold se_lift at 1.
  destruct (h =? 0); [reflexivity |].
  unfold se_bind at 1. unfold se_lift at 1.
  destruct (d mod h =? 0); reflexivity.
Qed.

Lemma common_init_guard :
  CommonAttention.__init__ init d h p log =
  if h =? 0 then (Raise ZeroDivisionError, log)
  else if d mod h =? 0
       then (c_attn <~ nn_Linear init d (3 * d) ;;
             c_proj <~ nn_Linear init d d ;;
             resid_dropout <~ CommonAttention.nn_Dropout p ;;
             se_ret (CommonAttention.mkMHA c_attn c_proj h d p resid_dropout)) log
       else (Raise AssertionError, log).
Proof.
  unfold CommonAttention.__init__, py_mod, py_assert.
  unfold se_bind at 1. unfold se_lift at 1.
  destruct (h =? 0); [reflexivity |].
  unfold se_bind at 1. unfold se_lift at 1.
  destruct (d mod h =? 0); reflexivity.
Qed.

(** What a successful construction establishes. *)
Lemma attention_init_ok (m : Attention.MultiHeadAttention) (log' : list TensorOp) :
  Attention.__init__ init d h p log = (Ok m, log') ->
  h <> 0 /\ d mod h = 0 /\ 0 <= d
  /\ Attention.n_head m = h /\ Attention.d_model m = d
  /\ in_features (Attention.c_attn m) = d
  /\ out_features (Attention.c_attn m) = 3 * d
  /\ in_features (Attention.c_proj m) = d
  /\ out_features (Attention.c_proj m) = d.
Proof.
  rewrite attention_init_guard.
  destruct (Z.eqb_spec h 0) as [? | Hh]; [discriminate |].
  destruct (Z.eqb_spec (d mod h) 0) as [Hm | ?]; [| discriminate].
  unfold nn_Linear, se_bind, se_ret, empty. cbn [existsb orb].
  destruct (3 * d <? 0) eqn:H3; cbn [orb]; [discriminate |].
  destruct (d <? 0) eqn:Hd; cbn [orb]; [discriminate |].
  intros Heq. inversion Heq; subst; cbn.
  apply Z.ltb_ge in Hd. repeat split; auto.
Qed.

End Construction.

(** ** Construction of the model *)

Section ModelConstruction.
Import Torch ModelInit.
Variable init : nat -> list Z -> R.










End ModelConstruction.




(** ** nn.Module: train and eval *)

Section ModuleTree.
Import Transformer.
Context {P : Type}.

(** Induction over a module and all its submodules. *)
Lemma Module_tree_ind (Q : Module P -> Prop) :
  (forall training payload children,
      Forall Q children -> Q (Mod training payload children)) ->
  forall m, Q m.
Proof.
  intros Hstep. fix IH 1. intros [t p cs]. apply Hstep.
  induction cs as [| c cs IHcs]; constructor; [apply IH | exact IHcs].
Qed.

Lemma train_all_flags (mode : bool) (m : Module P) :
  all_flags mode (train mode m) = true.
Proof.
  induction m as [t p cs IH] using Module_tree_ind. cbn [train all_flags].
  rewrite Bool.eqb_reflx. cbn [andb].
  rewrite forallb_forall. intros c Hc.
  apply in_map_iff in Hc. destruct Hc as [c0 [<- Hc0]].
  rewrite Forall_forall in IH. apply IH, Hc0.
Qed.

Lemma train_payloads (mode : bool) (m : Module P) :
  payloads (train mode m) = payloads m.
Proof.
  induction m as [t p cs IH] using Module_tree_ind. cbn [train payloads].
  f_equal. induction IH as [| c cs Hc _ IHcs]; cbn; [reflexivity |].
  rewrite Hc, IHcs. reflexivity.
Qed.

Lemma train_train (mode : bool) (m : Module P) :
  train mode (train mode m) = train mode m.
Proof.
  induction m as [t p cs IH] using Module_tree_ind. cbn [train].
  f_equal. rewrite map_map. apply map_ext_in. intros c Hc.
  rewrite Forall_forall in IH. apply IH, Hc.
Qed.

Lemma model_train_all_flags (mode : bool) (m : Model P) :
  model_all_flags mode (model_train mode m) = true.
Proof.
  unfold model_all_flags, model_train. cbn.
  rewrite !train_all_flags, Bool.eqb_reflx. reflexivity.
Qed.

Lemma model_train_payloads (mode : bool) (m : Model P) :
  model_payloads (model_train mode m) = model_payloads m.
Proof.
  unfold model_payloads, model_train. cbn. rewrite !train_payloads. reflexivity.
Qed.

Lemma model_train_train (mode : bool) (m : Model P) :
  model_train mode (model_train mode m) = model_train mode m.
Proof.
  unfold model_train. cbn. rewrite !train_train. reflexivity.
Qed.

End ModuleTree.

(** ** The generation loop *)

Section Generate.
Import Transformer.
Context {P Rng : Type}.
Variable sub : Submodules P Rng.

Lemma keeps_model_ret {A : Type} (a : A) :
  keeps_model (se_ret a : SE (State P Rng) A).
Proof. intros st. reflexivity. Qed.

Lemma keeps_model_lift {A : Type} (r : result A) :
  keeps_model (se_lift r : SE (State P Rng) A).
Proof. intros st. reflexivity. Qed.

Lemma keeps_model_bind {A B : Type} (c : SE (State P Rng) A)
      (f : A -> SE (State P Rng) B) :
  keeps_model c -> (forall a, keeps_model (f a)) -> keeps_model (se_bind c f).
Proof.
  intros Hc Hf st. unfold se_bind. specialize (Hc st).
  destruct (c st) as [[a | e] st1]; cbn in *; [| exact Hc].
  rewrite Hf. exact Hc.
Qed.

Lemma keeps_model_call {A : Type} (sel : Model P -> Module P)
      (f : Module P -> SE Rng A) : keeps_model (call sel f).
Proof. intros st. unfold call. destruct (f _ _). reflexivity. Qed.

Lemma keeps_model_with_rng {A : Type} (f : SE Rng A) :
  keeps_model (with_rng f : SE (State P Rng) A).
Proof. intros st. unfold with_rng. destruct (f _). reflexivity. Qed.

Create HintDb keeps.
Hint Resolve keeps_model_ret keeps_model_lift keeps_model_call
     keeps_model_with_rng : keeps.

Ltac keeps :=
  repeat (first [ apply keeps_model_bind; [| intros ? ]
                | solve [ auto with keeps ] ]).

Lemma keeps_model_encode src mask : keeps_model (_encode sub src mask).
Proof. unfold _encode. keeps. Qed.

Lemma keeps_model_decode mem mm tgt mask : keeps_model (_decode sub mem mm tgt mask).
Proof. unfold _decode. keeps. Qed.

Lemma keeps_model_step mem toks : keeps_model (generate_step sub mem toks).
Proof.
  unfold generate_step, gen. keeps.
Qed.

Lemma keeps_model_loop mem e n : forall toks,
  keeps_model (generate_loop sub mem e n toks).
Proof.
  induction n as [| n IH]; intros toks; cbn [generate_loop].
  - apply keeps_model_ret.
  - apply keeps_model_bind; [apply keeps_model_step |].
    intros [toks' t]. destruct (t =? e); [apply keeps_model_ret | apply IH].
Qed.

(** The model object after [generate]: the one [eval] produced. *)
Lemma generate_model input n s e (st : State P Rng) :
  fst (snd (generate sub input n s e st)) = model_train false (fst st).
Proof.
  unfold generate. unfold se_bind at 1. unfold eval at 1.
  set (st1 := (model_train false (fst st), snd st)).
  change (model_train false (fst st)) with (fst st1).
  apply (keeps_model_bind (_encode sub input None)
           (fun mem => generate_loop sub mem e (Z.to_nat n) [[s]])).
  - apply keeps_model_encode.
  - intros mem. apply keeps_model_loop.
Qed.

(** [generate] reads the model through [eval] only. *)
Lemma generate_after_eval input n s e (m : Model P) (g : Rng) :
  generate sub input n s e (model_train false m, g) = generate sub input n s e (m, g).
Proof.
  unfold generate. unfold se_bind at 1 3. unfold eval. cbn [fst snd].
  rewrite model_train_train. reflexivity.
Qed.

(** One pass through the loop body appends the sampled token to the one
    row of the sequence. *)
Lemma generate_step_appends mem row st toks' t st' :
  generate_step sub mem [row] st = (Ok (toks', t), st') ->
  toks' = [row ++ [t]].
Proof.
  unfold generate_step.
  unfold se_bind at 1. destruct (_decode _ _ _ _ _ _) as [[dec_out | ?] st1]; [| discriminate].
  unfold se_bind at 1. destruct (gen _ _ _) as [[logits | ?] st2]; [| discriminate].
  unfold se_bind at 1. unfold se_lift at 1.
  destruct (select_last logits) as [ll | ?]; [| discriminate].
  unfold se_bind at 1. destruct (with_rng _ _) as [[sampled | ?] st3]; [| discriminate].
  unfold se_bind, se_lift, se_ret.
  destruct (cat_rows [row] sampled) as [cat | ?] eqn:Hcat; [| discriminate].
  destruct (item sampled) as [x | ?] eqn:Hitem; [| discriminate].
  intros Heq. inversion Heq; subst; clear Heq.
  destruct sampled as [| [| y [| ? ?]] [| ? ?]]; try discriminate.
  cbn in Hitem. inversion Hitem; subst.
  cbn in Hcat. inversion Hcat. reflexivity.
Qed.

Lemma iterate_step_appends mem k : forall row st out ts st',
  iterate_step sub mem k [row] st = (Ok (out, ts), st') ->
  out = [row ++ ts] /\ length ts = k.
Proof.
  induction k as [| k IH]; intros row st out ts st'; cbn [iterate_step].
  - unfold se_ret. intros Heq. inversion Heq. rewrite app_nil_r. auto.
  - unfold se_bind at 1.
    destruct (generate_step sub mem [row] st) as [[[toks' t] | ?] st1] eqn:Hstep;
      [| discriminate].
    apply generate_step_appends in Hstep. subst toks'.
    unfold se_bind at 1.
    destruct (iterate_step sub mem k [row ++ [t]] st1) as [[[out' ts'] | ?] st2] eqn:Hit;
      [| discriminate].
    unfold se_ret. intros Heq. inversion Heq; subst; clear Heq.
    apply IH in Hit. destruct Hit as [-> <-].
    rewrite <- app_assoc. cbn. auto.
Qed.

Lemma generate_loop_S mem e n toks st :
  generate_loop sub mem e (S n) toks st =
  match generate_step sub mem toks st with
  | (Ok (toks', t), st1) =>
      if t =? e then (Ok toks', st1) else generate_loop sub mem e n toks' st1
  | (Raise err, st1) => (Raise err, st1)
  end.
Proof.
  cbn [generate_loop]. unfold se_bind.
  destruct (generate_step sub mem toks st) as [[[toks' t] | err] st1]; [| reflexivity].
  destruct (t =? e); reflexivity.
Qed.

Lemma iterate_step_S mem k toks st :
  iterate_step sub mem (S k) toks st =
  match generate_step sub mem toks st with
  | (Ok (toks', t), st1) =>
      match iterate_step sub mem k toks' st1 with
      | (Ok (out, ts), st2) => (Ok (out, t :: ts), st2)
      | (Raise err, st2) => (Raise err, st2)
      end
  | (Raise err, st1) => (Raise err, st1)
  end.
Proof.
  cbn [iterate_step]. unfold se_bind.
  destruct (generate_step sub mem toks st) as [[[toks' t] | err] st1]; [| reflexivity].
  destruct (iterate_step sub mem k toks' st1) as [[[out ts] | err] st2]; reflexivity.
Qed.

Lemma iterate_step_length mem k : forall toks st out ts st',
  iterate_step sub mem k toks st = (Ok (out, ts), st') -> length ts = k.
Proof.
  induction k as [| k IH]; intros toks st out ts st'.
  - cbn. unfold se_ret. intros H. inversion H. reflexivity.
  - rewrite iterate_step_S.
    destruct (generate_step sub mem toks st) as [[[toks' t] | err] st1]; [| discriminate].
    destruct (iterate_step sub mem k toks' st1) as [[[out' ts'] | err] st2] eqn:Hit;
      [| discriminate].
    intros H. inversion H; subst. cbn. f_equal. eapply IH, Hit.
Qed.

(** The loop is a number [k] of passes through its body: at most [n],
    none only if [n = 0]; no sampled token but the last is the end token,
    and the last is the end token when fewer than [n] passes were made.
    An exception is the exception of the [k]-th pass. *)
Lemma generate_loop_unroll mem e n : forall toks st,
  exists k : nat,
    (k <= n)%nat /\ ((0 < n)%nat -> (0 < k)%nat) /\
    match iterate_step sub mem k toks st with
    | (Ok (out, ts), st') =>
        generate_loop sub mem e n toks st = (Ok out, st')
        /\ (forall i, (S i < k)%nat -> nth i ts 0 <> e)
        /\ ((k < n)%nat -> last ts 0 = e)
    | (Raise err, st') =>
        generate_loop sub mem e n toks st = (Raise err, st')
    end.
Proof.
  induction n as [| n IH]; intros toks st.
  - exists 0%nat. cbn. unfold se_ret. repeat split; try lia.
  - rewrite generate_loop_S.
    destruct (generate_step sub mem toks st) as [[[toks' t] | err] st1] eqn:Hstep.
    + destruct (Z.eqb_spec t e) as [Hte | Hte].
      * exists 1%nat. rewrite iterate_step_S, Hstep. cbn. unfold se_ret.
        repeat split; lia.
      * destruct (IH toks' st1) as [k [Hk [Hpos Hrun]]].
        exists (S k). split; [lia |]. split; [lia |].
        rewrite iterate_step_S, Hstep.
        destruct (iterate_step sub mem k toks' st1) as [[[out ts] | err] st2] eqn:Hit;
          [| exact Hrun].
        destruct Hrun as [Hloop [Hnot Hlast]].
        split; [exact Hloop |]. split.
        -- intros [| i] Hi; cbn; [exact Hte | apply Hnot; lia].
        -- intros Hlt. apply iterate_step_length in Hit.
           destruct ts as [| t0 ts0]; [cbn in Hit; lia |].
           cbn [last]. apply Hlast. lia.
    + exists 1%nat. rewrite iterate_step_S, Hstep. repeat split; lia.
Qed.

End Generate.

Section GenerateClaims.
Import Transformer.
Context {P Rng : Type}.
Variable sub : Submodules P Rng.

Lemma generate_eq input max_new_tokens s e (st : State P Rng) :
  generate sub input max_new_tokens s e st =
  match _encode sub input None (model_train false (fst st), snd st) with
  | (Ok mem, st2) => generate_loop sub mem e (Z.to_nat max_new_tokens) [[s]] st2
  | (Raise err, st2) => (Raise err, st2)
  end.
Proof.
  unfold generate, se_bind, eval.
  destruct (_encode sub input None _) as [[mem | err] st2]; reflexivity.
Qed.

Lemma generate_unrolled_eq k input s (st : State P Rng) :
  generate_unrolled sub k input s st =
  match _encode sub input None (model_train false (fst st), snd st) with
  | (Ok mem, st2) => iterate_step sub mem k [[s]] st2
  | (Raise err, st2) => (Raise err, st2)
  end.
Proof.
  unfold generate_unrolled, se_bind, eval.
  destruct (_encode sub input None _) as [[mem | err] st2]; reflexivity.
Qed.

(** [generate] is [eval], [_encode] and a number of passes of the loop
    body that the bound and the end token determine. *)
Lemma generate_unroll input max_new_tokens s e (st : State P Rng) :
  exists k : nat,
    (k <= Z.to_nat max_new_tokens)%nat
    /\ ((0 < Z.to_nat max_new_tokens)%nat -> (0 < k)%nat)
    /\ match generate_unrolled sub k input s st with
       | (Ok (out, ts), st') =>
           generate sub input max_new_tokens s e st = (Ok out, st')
           /\ out = [s :: ts] /\ length ts = k
           /\ (forall i, (S i < k)%nat -> nth i ts 0 <> e)
           /\ ((k < Z.to_nat max_new_tokens)%nat -> last ts 0 = e)
       | (Raise err, st') =>
           generate sub input max_new_tokens s e st = (Raise err, st')
       end.
Proof.
  destruct (_encode sub input None (model_train false (fst st), snd st))
    as [[mem | err] st2] eqn:Henc.
  - destruct (generate_loop_unroll sub mem e (Z.to_nat max_new_tokens) [[s]] st2)
      as [k [Hk [Hpos Hrun]]].
    exists k. split; [exact Hk |]. split; [exact Hpos |].
    rewrite generate_eq, generate_unrolled_eq, Henc.
    destruct (iterate_step sub mem k [[s]] st2) as [[[out ts] | err] st3] eqn:Hit;
      [| exact Hrun].
    destruct Hrun as [Hloop [Hnot Hlast]].
    apply iterate_step_appends in Hit. destruct Hit as [Hout Hlen].
    repeat split; assumption.
  - exists (Z.to_nat max_new_tokens).
    rewrite generate_eq, generate_unrolled_eq, Henc. repeat split; lia.
Qed.

End GenerateClaims.



(** C1, as amended.  Whenever [generate] returns, it returns one row that
    begins with [start_token_idx]; the row has between 1 and
    [max(max_new_tokens, 0) + 1] elements, at least 2 if
    [max_new_tokens >= 1]; [end_token_idx] stands at no position between
    the first and the last, so that it occurs as the last element only
    when the two marker ids differ. *)
Theorem generate_returns_framed_row :
  forall (P Rng : Type) (sub : Transformer.Submodules P Rng)
         (input : Transformer.LongTensor) (max_new_tokens s e : Z)
         (st st' : Transformer.State P Rng) (out : Transformer.LongTensor),
    Transformer.generate sub input max_new_tokens s e st = (Ok out, st') ->
    exists row,
      out = [row]
      /\ hd_error row = Some s
      /\ 1 <= Z.of_nat (length row) <= Z.max max_new_tokens 0 + 1
      /\ (1 <= max_new_tokens -> 2 <= Z.of_nat (length row))
      /\ (forall i, (0 < i)%nat -> nth_error row i = Some e -> S i = length row)
      /\ (s <> e -> forall i, nth_error row i = Some e -> S i = length row).
Proof.
  intros P Rng sub input n s e st st' out Hgen.
  destruct (generate_unroll sub input n s e st) as [k [Hk [Hpos Hrun]]].
  destruct (Transformer.generate_unrolled sub k input s st) as [[[out' ts] | err] st''].
  2:{ rewrite Hgen in Hrun. discriminate. }
  destruct Hrun as [Hgen' [Hout [Hlen [Hnot Hlast]]]].
  rewrite Hgen in Hgen'. inversion Hgen'; subst out' st''. clear Hgen'.
  assert (Hmid : forall i, (0 < i)%nat -> nth_error (s :: ts) i = Some e ->
                           S i = length (s :: ts)).
  { intros [| i] Hi Hnth; [lia |]. cbn in Hnth. cbn [length].
    assert (Hlt : (i < length ts)%nat) by (apply nth_error_Some; congruence).
    destruct (Nat.eq_dec (S i) (length ts)) as [Heq | Hne]; [lia |].
    exfalso. apply (Hnot i); [lia |].
    apply nth_error_nth with (d := 0) in Hnth. exact Hnth. }
  exists (s :: ts). cbn [length hd_error]. subst out.
  split; [reflexivity |]. split; [reflexivity |].
  split; [lia |]. split; [intros; assert (0 < k)%nat by (apply Hpos; lia); lia |].
  split; [exact Hmid |].
  intros Hse [| i] Hnth; [cbn in Hnth; congruence |].
  apply Hmid; [lia | exact Hnth].
Qed.

Lemma generate_returns_framed_row_witness :
  exists row,
    [[1; 0; 1; 2]] = [row]
    /\ hd_error row = Some 1
    /\ 1 <= Z.of_nat (length row) <= Z.max 10 0 + 1
    /\ (1 <= 10 -> 2 <= Z.of_nat (length row))
    /\ (forall i, (0 < i)%nat -> nth_error row i = Some 2 -> S i = length row)
    /\ (1 <> 2 -> forall i, nth_error row i = Some 2 -> S i = length row).
Proof.
  apply (generate_returns_framed_row unit (list Z) Toy.sub [[1; 7; 9; 2]] 10 1 2
           (Toy.model, [0; 1; 2; 0; 0])
           (Transformer.model_train false Toy.model, [0; 0])).
  vm_compute. reflexivity.
Defined.

(** C1, as stated, fails: with [max_new_tokens = 0] the loop body never
    runs and the single start token is returned, a row of length 1; and
    with equal marker ids the end token stands first in a longer row. *)
Lemma generate_contract_counterexample :
  (fst (Transformer.generate Toy.sub [[1; 7; 9; 2]] 0 1 2 (Toy.model, [0; 1]))
   = Ok [[1]]
   /\ ~ Transformer.generate_contract 0 1 2 [1])
  /\ (fst (Transformer.generate Toy.sub [[1; 7; 9; 2]] 2 2 2 (Toy.model, [0; 1]))
      = Ok [[2; 0; 1]]
      /\ ~ Transformer.generate_contract 2 2 2 [2; 0; 1]).
Proof.
  split; (split; [vm_compute; reflexivity |]).
  - intros [_ [[Hlen _] _]]. cbn in Hlen. lia.
  - intros [_ [_ Hend]]. specialize (Hend 0%nat eq_refl). cbn in Hend. lia.
Qed.

(** C9.  A run of [generate] is a function of the model, the input and the
    state of the random source: repeated from the same source state, on
    the model as the first run left it, the call returns the same ids and
    ends in the same state.  From different source states the sampled ids
    differ: the loop is stochastic through the multinomial draw. *)
Theorem generate_reproducible_under_seed :
  (forall (P Rng : Type) (sub : Transformer.Submodules P Rng)
          (input : Transformer.LongTensor) (max_new_tokens s e : Z)
          (m : Transformer.Model P) (seed : Rng),
      let run1 := Transformer.generate sub input max_new_tokens s e (m, seed) in
      Transformer.generate sub input max_new_tokens s e (fst (snd run1), seed) = run1)
  /\ fst (Transformer.generate Toy.sub [[1; 7; 9; 2]] 10 1 2 (Toy.model, [0; 2]))
     <> fst (Transformer.generate Toy.sub [[1; 7; 9; 2]] 10 1 2 (Toy.model, [1; 2])).
Proof.
  split.
  - intros P Rng sub input n s e m seed run1. subst run1.
    rewrite generate_model. cbn [fst]. apply generate_after_eval.
  - vm_compute. discriminate.
Qed.

(** C10.  After [generate], whether it returned or raised, the model
    object is the one [eval] made of it: the training flag of the
    Transformer, of its two module dictionaries and of every submodule is
    [False], and the parameters and buffers of every module and the
    configuration are those from before the call. *)
Theorem generate_leaves_model_in_eval_mode :
  forall (P Rng : Type) (sub : Transformer.Submodules P Rng)
         (input : Transformer.LongTensor) (max_new_tokens s e : Z)
         (m : Transformer.Model P) (g : Rng),
    let m' := fst (snd (Transformer.generate sub input max_new_tokens s e (m, g))) in
    m' = Transformer.model_train false m
    /\ Transformer.model_all_flags false m' = true
    /\ Transformer.model_payloads m' = Transformer.model_payloads m
    /\ Transformer.config m' = Transformer.config m.
Proof.
  intros P Rng sub input n s e m g m'. subst m'.
  rewrite generate_model. cbn [fst].
  split; [reflexivity |]. split; [apply model_train_all_flags |].
  split; [apply model_train_payloads | reflexivity].
Qed.

(** ** Sums and row-major indices *)

Lemma sumR_ext (n : Z) (f g : Z -> R) :
  (forall j, 0 <= j < n -> f j = g j) -> sumR n f = sumR n g.
Proof.
  intros Hfg. unfold sumR.
  assert (Hl : forall l : list nat,
             (forall x, In x l -> f (Z.of_nat x) = g (Z.of_nat x)) ->
             fold_right (fun j acc => (f (Z.of_nat j) + acc)%R) 0%R l
             = fold_right (fun j acc => (g (Z.of_nat j) + acc)%R) 0%R l).
  { induction l as [| x l IH]; intros Hin; cbn; [reflexivity |].
    rewrite Hin by (left; reflexivity). rewrite IH; [reflexivity |].
    intros y Hy. apply Hin. right. exact Hy. }
  apply Hl. intros x Hx. apply in_seq in Hx. apply Hfg. lia.
Qed.



Lemma div_mod_pos (q r n : Z) :
  0 <= r < n -> (q * n + r) / n = q /\ (q * n + r) mod n = r.
Proof.
  intros Hr. split.
  - symmetry. apply (Z.div_unique _ _ q r); [left; exact Hr | ring].
  - symmetry. apply (Z.mod_unique _ _ q r); [left; exact Hr | ring].
Qed.

(** Splitting the last axis [E = H * D] into heads keeps batch and
    position and maps feature [h * D + d] to head [h], coordinate [d]. *)
Lemma unravel_heads (B S_ H D E b s h d : Z) :
  E = H * D ->
  0 <= b < B -> 0 <= s < S_ -> 0 <= h < H -> 0 <= d < D ->
  unravel [B; S_; E] (ravel [B; S_; H; D] [b; s; h; d]) = [b; s; h * D + d].
Proof.
  intros -> Hb Hs Hh Hd. cbn [ravel unravel numel fold_right].
  rewrite !Z.mul_1_r, Z.add_0_r, Z.div_1_r.
  assert (Hhd : 0 <= h * D + d < H * D) by nia.
  assert (Hshd : 0 <= s * (H * D) + (h * D + d) < S_ * (H * D)) by nia.
  destruct (div_mod_pos b (s * (H * D) + (h * D + d)) (S_ * (H * D)) Hshd) as [E1 E2].
  destruct (div_mod_pos s (h * D + d) (H * D) Hhd) as [E3 E4].
  rewrite E1, E2, E3, E4. reflexivity.
Qed.

(** Merging the heads back: feature [e] comes from head [e / D],
    coordinate [e mod D]. *)
Lemma unravel_merge (B S_ H D E b s e : Z) :
  E = H * D ->
  0 <= b < B -> 0 <= s < S_ -> 0 < D -> 0 <= e < E ->
  unravel [B; S_; H; D] (ravel [B; S_; E] [b; s; e]) = [b; s; e / D; e mod D].
Proof.
  intros -> Hb Hs HD He. cbn [ravel unravel numel fold_right].
  rewrite !Z.mul_1_r, Z.add_0_r, Z.div_1_r.
  assert (Hse : 0 <= s * (H * D) + e < S_ * (H * D)) by nia.
  destruct (div_mod_pos b (s * (H * D) + e) (S_ * (H * D)) Hse) as [E1 E2].
  destruct (div_mod_pos s e (H * D) He) as [E3 E4].
  rewrite E1, E2, E3, E4. reflexivity.
Qed.

(** ** The torch operations on the shapes the attention layer meets *)

Section TorchLemmas.
Import Torch.

Lemma no_size_below_minus_one (sizes : list Z) :
  Forall (fun d => 0 <= d) sizes -> existsb (fun d => d <? -1) sizes = false.
Proof.
  intros Hpos. induction Hpos as [| d l Hd _ IH]; cbn [existsb]; [reflexivity |].
  rewrite IH. replace (d <? -1) with false by (symmetry; apply Z.ltb_ge; lia).
  reflexivity.
Qed.

Lemma no_size_to_infer (sizes : list Z) :
  Forall (fun d => 0 <= d) sizes ->
  count_occ Z.eq_dec sizes (-1) = 0%nat
  /\ filter (fun d => negb (d =? -1)) sizes = sizes.
Proof.
  intros Hpos. split.
  - apply count_occ_not_In. intros Hin.
    rewrite Forall_forall in Hpos. apply Hpos in Hin. lia.
  - induction Hpos as [| d l Hd _ IH]; cbn [filter]; [reflexivity |].
    replace (d =? -1) with false by (symmetry; apply Z.eqb_neq; lia).
    cbn [negb]. rewrite IH. reflexivity.
Qed.

Lemma infer_size_exact (sizes : list Z) (n : Z) :
  Forall (fun d => 0 <= d) sizes -> numel sizes = n ->
  infer_size sizes n = Ok sizes.
Proof.
  intros Hpos Hn. unfold infer_size.
  rewrite (no_size_below_minus_one sizes Hpos).
  destruct (no_size_to_infer sizes Hpos) as [Hc Hf].
  rewrite Hc, Hf, Hn, Z.eqb_refl. reflexivity.
Qed.

Lemma infer_size_mismatch (sizes : list Z) (n : Z) :
  Forall (fun d => 0 <= d) sizes -> numel sizes <> n ->
  infer_size sizes n = Raise RuntimeError.
Proof.
  intros Hpos Hn. unfold infer_size.
  rewrite (no_size_below_minus_one sizes Hpos).
  destruct (no_size_to_infer sizes Hpos) as [Hc Hf].
  rewrite Hc, Hf. apply Z.eqb_neq in Hn. rewrite Hn. reflexivity.
Qed.

Lemma view_exact {A : Type} (t : Tensor A) (sizes : list Z) :
  Forall (fun d => 0 <= d) sizes -> numel sizes = numel (shape t) ->
  view t sizes
  = Ok (mkTensor sizes (fun idx => get t (unravel (shape t) (ravel sizes idx)))).
Proof.
  intros Hpos Hn. unfold view. rewrite infer_size_exact by assumption. reflexivity.
Qed.

Lemma view_mismatch {A : Type} (t : Tensor A) (sizes : list Z) :
  Forall (fun d => 0 <= d) sizes -> numel sizes <> numel (shape t) ->
  view t sizes = Raise RuntimeError.
Proof.
  intros Hpos Hn. unfold view. rewrite infer_size_mismatch by assumption. reflexivity.
Qed.

Lemma split_thirds {A : Type} (g : list Z -> A) (B S_ E : Z) :
  0 < E ->
  split (mkTensor [B; S_; 3 * E] g) E 2
  = Ok [ mkTensor [B; S_; E] (fun idx => g (update_nth 2 (fun p => p + 0 * E) idx));
         mkTensor [B; S_; E] (fun idx => g (update_nth 2 (fun p => p + 1 * E) idx));
         mkTensor [B; S_; E] (fun idx => g (update_nth 2 (fun p => p + 2 * E) idx)) ].
Proof.
  intros HE. unfold split.
  change (wrap_dim 2 (ndim (mkTensor [B; S_; 3 * E] g))) with (Ok (A := nat) 2%nat).
  cbn [bind nth shape].
  replace (E <? 0) with false by (symmetry; apply Z.ltb_ge; lia).
  replace (E =? 0) with false by (symmetry; apply Z.eqb_neq; lia).
  replace ((3 * E + E - 1) / E) with 3.
  2:{ apply (Z.div_unique _ _ 3 (E - 1)); [left; lia | ring]. }
  change (Z.to_nat (Z.max 3 1)) with 3%nat.
  cbn [seq map update_nth].
  change (Z.of_nat 0) with 0. change (Z.of_nat 1) with 1. change (Z.of_nat 2) with 2.
  rewrite !Z.min_l by lia. reflexivity.
Qed.

Lemma transpose_heads {A : Type} (g : list Z -> A) (a b c d : Z) :
  transpose (mkTensor [a; b; c; d] g) 1 2
  = Ok (mkTensor [a; c; b; d] (fun idx => g (swap_nth 0 1 2 idx))).
Proof. reflexivity. Qed.

Lemma unsqueeze_head_axis {A : Type} (g : list Z -> A) (a b c : Z) :
  unsqueeze (mkTensor [a; b; c] g) 1
  = Ok (mkTensor [a; 1; b; c] (fun idx => g (remove_nth 1 idx))).
Proof. reflexivity. Qed.

Lemma Linear_forward_3d (l : Linear) (g : list Z -> R) (B S_ E : Z) :
  E = in_features l ->
  Linear_forward l (mkTensor [B; S_; E] g)
  = Ok (mkTensor [B; S_; out_features l]
          (fun idx =>
             (sumR (in_features l)
                   (fun c => g (removelast idx ++ [c]) * get (weight l) [last idx 0%Z; c])
              + get (bias l) [last idx 0%Z])%R)).
Proof.
  intros ->. unfold Linear_forward. cbn [shape rev app get].
  rewrite Z.eqb_refl. reflexivity.
Qed.

End TorchLemmas.

(** ** MultiHeadAttention.forward, self-attention *)

Section SelfAttention.
Import Torch Attention.

Lemma heads_times_dim (self : MultiHeadAttention) :
  well_formed self ->
  n_head self * head_dim self = d_model self /\ 0 < head_dim self.
Proof.
  intros (HH & HE & Hmod & _). unfold head_dim.
  assert (Heq : d_model self = n_head self * (d_model self / n_head self)).
  { apply Z.div_exact; lia. }
  split; [lia | nia].
Qed.

Lemma head_of_feature (H D e : Z) :
  0 < D -> 0 <= e < H * D -> 0 <= e / D < H /\ 0 <= e mod D < D.
Proof.
  intros HD He. split.
  - split; [apply Z.div_pos; lia | apply Z.div_lt_upper_bound; lia].
  - apply Z.mod_pos_bound. exact HD.
Qed.

Lemma exp_ext_masked_fill (m : option (Tensor bool)) (s : list Z -> R) (idx : list Z) :
  ScaledDP.exp_ext (ScaledDP.masked_fill m s idx)
  = if ScaledDP.permits m idx then exp (s idx) else 0%R.
Proof. unfold ScaledDP.masked_fill. destruct (ScaledDP.permits m idx); reflexivity. Qed.

(** The mask [forward] passes on is the mask unsqueezed, and it
    broadcasts against the scores. *)
Lemma unsqueeze_mask (B H S_ : Z) (mask : option (Tensor bool)) :
  mask_fits B S_ mask = true ->
  match mask with
  | Some m => m' <- unsqueeze m 1 ;; Ok (Some m')
  | None => Ok None
  end = Ok (unsqueezed mask)
  /\ match unsqueezed mask with
     | None => true
     | Some m => ScaledDP.broadcastable (shape m) [B; H; S_; S_]
     end = true.
Proof.
  intros Hmask. destruct mask as [[sm gm] |]; cbn [unsqueezed].
  - cbn [mask_fits shape] in Hmask.
    destruct sm as [| mb [| mq [| mk [| ? ?]]]]; try discriminate.
    rewrite unsqueeze_head_axis. cbn [bind shape insert_nth get].
    split; [reflexivity |].
    cbn [ScaledDP.broadcastable shape]. rewrite Z.eqb_refl. cbn [orb andb].
    rewrite andb_true_r. rewrite <- andb_assoc in Hmask. exact Hmask.
  - split; reflexivity.
Qed.

(** In the self-attention case [forward] returns a tensor of the shape of
    its input whose elements are [mha_value]. *)
Lemma forward_self_value (self : MultiHeadAttention) (training : bool)
      (keep : list Z -> bool) (x : Tensor R) (mask : option (Tensor bool)) (B S_ : Z) :
  well_formed self ->
  shape x = [B; S_; d_model self] -> 0 <= B -> 0 <= S_ ->
  mask_fits B S_ mask = true ->
  exists y,
    forward self training keep x [] mask = Ok y
    /\ shape y = [B; S_; d_model self]
    /\ forall b i o, 0 <= b < B -> 0 <= i < S_ ->
         get y [b; i; o]
         = mha_value self training keep (get x) S_ (unsqueezed mask) b i o.
Proof.
  intros Hwf Hx HB HS Hmask.
  destruct (heads_times_dim self Hwf) as [HHD HD].
  destruct Hwf as (HH & HE & Hmod & Hai & Hao & Hpi & Hpo).
  destruct x as [sx gx]. cbn [shape get] in *. subst sx.
  unfold forward.
  change (size3 (mkTensor [B; S_; d_model self] gx)) with (Ok (B, S_, d_model self)).
  cbn [bind].
  rewrite Linear_forward_3d by (symmetry; exact Hai). cbn [bind].
  rewrite Hao, split_thirds by exact HE. cbn [bind unpack3].
  unfold py_floordiv.
  replace (n_head self =? 0) with false by (symmetry; apply Z.eqb_neq; lia).
  cbn [bind]. fold (head_dim self).
  assert (Hsz : Forall (fun d => 0 <= d) [B; S_; n_head self; head_dim self]).
  { repeat constructor; lia. }
  assert (Hnum : numel [B; S_; n_head self; head_dim self]
                 = numel [B; S_; d_model self]).
  { cbn [numel fold_right]. rewrite <- HHD. ring. }
  rewrite !view_exact by (cbn [shape]; assumption). cbn [bind shape].
  rewrite !transpose_heads. cbn [bind].
  match goal with
  | |- context [ScaledDP.forward _ _ _ ?q ?k ?v _] =>
      set (Q := q); set (K := k); set (V := v)
  end.
  (* the three projections, head by head *)
  assert (Hheads : forall b h s d,
             0 <= b < B -> 0 <= h < n_head self -> 0 <= s < S_ ->
             0 <= d < head_dim self ->
             get Q [b; h; s; d] = qkv_at self gx 0 b s (h * head_dim self + d)
             /\ get K [b; h; s; d] = qkv_at self gx 1 b s (h * head_dim self + d)
             /\ get V [b; h; s; d] = qkv_at self gx 2 b s (h * head_dim self + d)).
  { intros b h s d Hb Hh Hs Hd. subst Q K V. cbn [get].
    cbn [swap_nth length seq map nth Nat.eqb].
    rewrite (unravel_heads B S_ (n_head self) (head_dim self) (d_model self))
      by (auto; lia).
    cbn [update_nth removelast last app].
    unfold qkv_at, linear_at. repeat split; reflexivity. }
  assert (HQs : shape Q = [B; n_head self; S_; head_dim self]) by reflexivity.
  assert (HKs : shape K = [B; n_head self; S_; head_dim self]) by reflexivity.
  assert (HVs : shape V = [B; n_head self; S_; head_dim self]) by reflexivity.
  clearbody Q K V.
  destruct (unsqueeze_mask B (n_head self) S_ mask Hmask) as [-> Hbc].
  cbn [bind]. unfold ScaledDP.forward. rewrite HQs, HKs, HVs.
  rewrite !Z.eqb_refl. cbn [andb]. rewrite Hbc. cbn [bind].
  rewrite transpose_heads. cbn [bind]. unfold contiguous.
  rewrite view_exact;
    [| repeat constructor; lia | cbn [shape]; symmetry; exact Hnum].
  cbn [bind shape].
  rewrite Linear_forward_3d by (symmetry; exact Hpi).
  eexists. split; [reflexivity |]. cbn [shape get].
  split; [rewrite Hpo; reflexivity |].
  intros b i o Hb Hi. cbn [removelast last app].
  unfold mha_value, linear_at. f_equal.
  apply sumR_ext. intros e He. rewrite Hpi in He. f_equal.
  rewrite (unravel_merge B S_ (n_head self) (head_dim self) (d_model self))
    by (auto; lia).
  cbn [swap_nth length seq map nth Nat.eqb].
  destruct (head_of_feature (n_head self) (head_dim self) e HD) as [Hh Hd];
    [rewrite HHD; exact He |].
  unfold head_out. apply sumR_ext. intros j Hj.
  destruct (Hheads b (e / head_dim self) j (e mod head_dim self)) as (_ & _ & ->);
    try assumption.
  f_equal.
  assert (Hexp : forall j', 0 <= j' < S_ ->
             ScaledDP.exp_ext
               (ScaledDP.masked_fill (unsqueezed mask)
                  (ScaledDP.scores Q K (head_dim self))
                  [b; e / head_dim self; i; j'])
             = exp_weight self gx (unsqueezed mask) b (e / head_dim self) i j').
  { intros j' Hj'. rewrite exp_ext_masked_fill. unfold exp_weight.
    destruct (ScaledDP.permits _ _); [| reflexivity].
    f_equal. unfold ScaledDP.scores, score_at. f_equal.
    apply sumR_ext. intros c Hc.
    destruct (Hheads b (e / head_dim self) i c) as (-> & _ & _); try assumption.
    destruct (Hheads b (e / head_dim self) j' c) as (_ & -> & _); try assumption.
    reflexivity. }
  assert (Hsoft : ScaledDP.softmax S_
                    (ScaledDP.masked_fill (unsqueezed mask)
                       (ScaledDP.scores Q K (head_dim self)))
                    [b; e / head_dim self; i; j]
                  = (exp_weight self gx (unsqueezed mask) b (e / head_dim self) i j
                     / sumR S_ (fun j' => exp_weight self gx (unsqueezed mask) b
                                            (e / head_dim self) i j'))%R).
  { unfold ScaledDP.softmax. cbn [removelast app]. rewrite Hexp by exact Hj.
    f_equal. apply sumR_ext. intros j' Hj'. apply Hexp. exact Hj'. }
  unfold attn_weight, dropout. destruct training; cbn [get]; rewrite Hsoft; reflexivity.
Qed.

End SelfAttention.

(** ** Claims on MultiHeadAttention.forward *)

Section AttentionClaims.
Import Torch Attention.

Lemma init_well_formed (init : nat -> list Z -> R) (d h : Z) (p : R)
      (log log' : list TensorOp) (m : MultiHeadAttention) :
  __init__ init d h p log = (Ok m, log') -> 0 < d -> 0 < h -> well_formed m.
Proof.
  intros Hinit Hd Hh.
  destruct (attention_init_ok init d h p log m log' Hinit)
    as (_ & Hmod & _ & Hn & Hdm & H1 & H2 & H3 & H4).
  unfold well_formed. rewrite Hn, Hdm, H1, H2, H3, H4. repeat split; assumption.
Qed.

Lemma example_layer_well_formed : well_formed Example.layer.
Proof. unfold well_formed. cbn. repeat split; lia. Qed.


(** With keys of a length other than that of [x], reshaping the keys to
    the length of [x] raises. *)
Lemma forward_cross_length_mismatch (self : MultiHeadAttention) (training : bool)
      (keep : list Z -> bool) (x q k v : Tensor R) (mask : option (Tensor bool))
      (B S_ Sk : Z) :
  well_formed self ->
  shape x = [B; S_; d_model self] -> shape q = [B; S_; d_model self] ->
  shape k = [B; Sk; d_model self] ->
  0 < B -> 0 <= S_ -> Sk <> S_ ->
  forward self training keep x [q; k; v] mask = Raise RuntimeError.
Proof.
  intros Hwf Hx Hq Hk HB HS Hne.
  destruct (heads_times_dim self Hwf) as [HHD HD].
  destruct Hwf as (HH & HE & _).
  unfold forward, size3. rewrite Hx. cbn [bind unpack3].
  unfold py_floordiv.
  replace (n_head self =? 0) with false by (symmetry; apply Z.eqb_neq; lia).
  cbn [bind]. fold (head_dim self).
  assert (Hsz : Forall (fun d => 0 <= d) [B; S_; n_head self; head_dim self]).
  { repeat constructor; lia. }
  rewrite (view_exact q) by (try exact Hsz; rewrite Hq; cbn [numel fold_right];
                             rewrite <- HHD; ring).
  cbn [bind]. rewrite transpose_heads. cbn [bind].
  rewrite (view_mismatch k); [reflexivity | exact Hsz |].
  rewrite Hk. cbn [numel fold_right]. rewrite <- HHD, !Z.mul_1_r.
  intros Heq. apply Z.mul_reg_l in Heq; [| lia].
  apply Z.mul_reg_r in Heq; [| nia]. lia.
Qed.

(** With key and value of the length of [x], cross-attention returns a
    tensor of the shape of [x]. *)
Lemma forward_cross_equal_lengths (self : MultiHeadAttention) (training : bool)
      (keep : list Z -> bool) (x q k v : Tensor R) (mask : option (Tensor bool))
      (B S_ : Z) :
  well_formed self ->
  shape x = [B; S_; d_model self] -> shape q = [B; S_; d_model self] ->
  shape k = [B; S_; d_model self] -> shape v = [B; S_; d_model self] ->
  0 <= B -> 0 <= S_ -> mask_fits B S_ mask = true ->
  exists y, forward self training keep x [q; k; v] mask = Ok y
            /\ shape y = [B; S_; d_model self].
Proof.
  intros Hwf Hx Hq Hk Hv HB HS Hmask.
  destruct (heads_times_dim self Hwf) as [HHD HD].
  destruct Hwf as (HH & HE & Hmod & Hai & Hao & Hpi & Hpo).
  unfold forward, size3. rewrite Hx. cbn [bind unpack3].
  unfold py_floordiv.
  replace (n_head self =? 0) with false by (symmetry; apply Z.eqb_neq; lia).
  cbn [bind]. fold (head_dim self).
  assert (Hsz : Forall (fun d => 0 <= d) [B; S_; n_head self; head_dim self]).
  { repeat constructor; lia. }
  assert (Hnum : numel [B; S_; n_head self; head_dim self]
                 = numel [B; S_; d_model self]).
  { cbn [numel fold_right]. rewrite <- HHD. ring. }
  rewrite (view_exact q), (view_exact k), (view_exact v)
    by (try exact Hsz; rewrite ?Hq, ?Hk, ?Hv; exact Hnum).
  cbn [bind]. rewrite !transpose_heads. cbn [bind].
  destruct (unsqueeze_mask B (n_head self) S_ mask Hmask) as [-> Hbc].
  cbn [bind]. unfold ScaledDP.forward. cbn [shape].
  rewrite !Z.eqb_refl. cbn [andb]. rewrite Hbc. cbn [bind].
  rewrite transpose_heads. cbn [bind]. unfold contiguous.
  rewrite view_exact;
    [| repeat constructor; lia | cbn [shape]; symmetry; exact Hnum].
  cbn [bind]. rewrite Linear_forward_3d by (symmetry; exact Hpi).
  eexists. split; [reflexivity |]. cbn [shape]. rewrite Hpo. reflexivity.
Qed.


End AttentionClaims.

(** C6.  In the self-attention case, for every batch size [B], sequence
    length [S] and input of shape [(B, S, d_model)], with or without a
    mask, [forward] returns a tensor of the shape of its input. *)
Theorem forward_self_preserves_shape :
  forall (self : Attention.MultiHeadAttention) (training : bool)
         (keep : list Z -> bool) (x : Tensor R) (mask : option (Tensor bool))
         (B S_ : Z),
    Attention.well_formed self ->
    shape x = [B; S_; Attention.d_model self] -> 0 <= B -> 0 <= S_ ->
    Attention.mask_fits B S_ mask = true ->
    exists y, Attention.forward self training keep x [] mask = Ok y
              /\ shape y = shape x.
Proof.
  intros self training keep x mask B S_ Hwf Hx HB HS Hmask.
  destruct (forward_self_value self training keep x mask B S_ Hwf Hx HB HS Hmask)
    as (y & Hy & Hshape & _).
  exists y. rewrite Hx. split; assumption.
Qed.

Lemma forward_self_preserves_shape_witness :
  exists y, Attention.forward Example.layer true (fun _ => true) Example.x1 []
                              (Some (tril 1 2)) = Ok y
            /\ shape y = shape Example.x1.
Proof.
  apply (forward_self_preserves_shape Example.layer true (fun _ => true) Example.x1
           (Some (tril 1 2)) 1 2).
  - unfold Attention.well_formed. cbn. repeat split; lia.
  - reflexivity.
  - lia.
  - lia.
  - reflexivity.
Defined.

(** C4.  Cross-attention over a memory whose length (3) differs from the
    length of the query (1) raises, where the claim has the call succeed;
    with memory of the length of the query the same call succeeds with
    the query's shape. *)
Theorem forward_cross_attention_unequal_lengths_raises :
  Attention.forward Example.layer false (fun _ => true) Example.query
                    [Example.query; Example.memory; Example.memory] None
  = Raise RuntimeError
  /\ exists y, Attention.forward Example.layer false (fun _ => true) Example.x1
                                 [Example.x1; Example.x2; Example.x2] None = Ok y
               /\ shape y = [1; 2; 4].
Proof.
  split.
  - apply (forward_cross_length_mismatch Example.layer false (fun _ => true)
             Example.query Example.query Example.memory Example.memory None 1 1 3);
      try reflexivity; try lia.
    unfold Attention.well_formed. cbn. repeat split; lia.
  - eexists. split; reflexivity.
Qed.




(** ** Causal masking *)

Section Causality.
Import Torch Attention.
Variable self : MultiHeadAttention.
Hypothesis Hwf : well_formed self.
Variables (training : bool) (keep : list Z -> bool).

Lemma qkv_at_local (gx gx' : list Z -> R) (part b s e : Z) :
  (forall c, 0 <= c < d_model self -> gx [b; s; c] = gx' [b; s; c]) ->
  qkv_at self gx part b s e = qkv_at self gx' part b s e.
Proof.
  intros Hagree. destruct Hwf as (_ & _ & _ & Hai & _).
  unfold qkv_at, linear_at. f_equal. apply sumR_ext. intros c Hc.
  rewrite Hai in Hc. rewrite Hagree by exact Hc. reflexivity.
Qed.

End Causality.

Lemma tril_is_causal (B S_ : Z) : is_causal B S_ (Some (tril B S_)).
Proof.
  intros b h i j Hb Hi Hj Hij. cbn.
  destruct (S_ =? 1) eqn:HS; [apply Z.eqb_eq in HS; lia |].
  destruct (B =? 1); apply Z.leb_gt; exact Hij.
Qed.


(** ** Floats *)

Section FloatLemmas.
Import Float.
Variable round : R -> float.

Lemma add_nan_r (x : float) : add round x NaN = NaN.
Proof. destruct x; reflexivity. Qed.

Lemma mul_nan_r (x : float) : mul round x NaN = NaN.
Proof. destruct x; reflexivity. Qed.

Lemma sumF_ext (n : Z) (f g : Z -> float) :
  (forall j, 0 <= j < n -> f j = g j) -> sumF round n f = sumF round n g.
Proof.
  intros Hfg. unfold sumF.
  assert (Hl : forall l : list nat,
             (forall x, In x l -> f (Z.of_nat x) = g (Z.of_nat x)) ->
             fold_right (fun j acc => add round (f (Z.of_nat j)) acc) (Fin 0) l
             = fold_right (fun j acc => add round (g (Z.of_nat j)) acc) (Fin 0) l).
  { induction l as [| x l IH]; intros Hin; cbn; [reflexivity |].
    rewrite Hin by (left; reflexivity). rewrite IH; [reflexivity |].
    intros y Hy. apply Hin. right. exact Hy. }
  apply Hl. intros x Hx. apply in_seq in Hx. apply Hfg. lia.
Qed.

(** A sum with a NaN term is NaN. *)
Lemma sumF_nan (n : Z) (f : Z -> float) (j : Z) :
  0 <= j < n -> f j = NaN -> sumF round n f = NaN.
Proof.
  intros Hj Hnan. unfold sumF.
  assert (Hl : forall l : list nat,
             In (Z.to_nat j) l ->
             fold_right (fun k acc => add round (f (Z.of_nat k)) acc) (Fin 0) l = NaN).
  { induction l as [| x l IH]; intros Hin; [contradiction |]. cbn [fold_right].
    destruct Hin as [-> | Hin].
    - rewrite Z2Nat.id by lia. rewrite Hnan. reflexivity.
    - rewrite IH by exact Hin. apply add_nan_r. }
  apply Hl. apply in_seq. lia.
Qed.

Hypothesis round_0 : round 0 = Fin 0.

(** Zero divided by anything is zero or NaN, and so is NaN. *)
Lemma div_zero (y : float) :
  div round (Fin 0) y = Fin 0 \/ div round (Fin 0) y = NaN.
Proof.
  destruct y as [b | | |]; cbn [div]; auto.
  destruct (Req_dec_T b 0) as [_ | Hb].
  - destruct (Req_dec_T 0 0) as [_ | H0]; [right; reflexivity | contradiction H0; reflexivity].
  - left. unfold Rdiv. rewrite Rmult_0_l. exact round_0.
Qed.

Lemma div_zero_or_nan (w y : float) :
  w = Fin 0 \/ w = NaN ->
  div round w y = Fin 0 \/ div round w y = NaN.
Proof.
  intros [-> | ->]; [apply div_zero | right; reflexivity].
Qed.

(** Zero or NaN times a finite value is itself; times any other value it
    is NaN. *)
Lemma mul_zero_or_nan_finite (w v : float) :
  w = Fin 0 \/ w = NaN -> is_finite v = true -> mul round w v = w.
Proof.
  intros [-> | ->] Hv; [| reflexivity].
  destruct v as [r | | |]; try discriminate.
  cbn [mul]. rewrite Rmult_0_l. exact round_0.
Qed.

Lemma mul_zero_or_nan_nonfinite (w v : float) :
  w = Fin 0 \/ w = NaN -> is_finite v = false -> mul round w v = NaN.
Proof.
  intros [-> | ->] Hv; [| reflexivity].
  destruct v as [r | | |]; try discriminate; cbn [mul]; unfold scaled_inf;
    destruct (Req_dec_T 0 0) as [_ | H0]; try reflexivity; contradiction H0; reflexivity.
Qed.

End FloatLemmas.

(** ** MultiHeadAttention.forward on floats, self-attention *)

Section FloatSelfAttention.
Import Torch Float FloatAttention.
Variable round : R -> float.

Lemma Linear_forward_3d_float (l : FloatTorch.Linear) (g : list Z -> float)
      (B S_ E : Z) :
  E = FloatTorch.in_features l ->
  FloatTorch.Linear_forward round l (mkTensor [B; S_; E] g)
  = Ok (mkTensor [B; S_; FloatTorch.out_features l]
          (fun idx =>
             add round
                 (sumF round (FloatTorch.in_features l)
                       (fun c => mul round (g (removelast idx ++ [c]))
                                     (get (FloatTorch.weight l) [last idx 0%Z; c])))
                 (get (FloatTorch.bias l) [last idx 0%Z]))).
Proof.
  intros ->. unfold FloatTorch.Linear_forward. cbn [shape rev app get].
  rewrite Z.eqb_refl. reflexivity.
Qed.

Lemma heads_times_dim_float (self : MultiHeadAttention) :
  well_formed self ->
  n_head self * head_dim self = d_model self /\ 0 < head_dim self.
Proof.
  intros (HH & HE & Hmod & _). unfold head_dim.
  assert (Heq : d_model self = n_head self * (d_model self / n_head self)).
  { apply Z.div_exact; lia. }
  split; [lia | nia].
Qed.

(** In the self-attention case [forward] returns a tensor of the shape of
    its input whose elements are [mha_value]. *)
Lemma forward_self_value_float (self : MultiHeadAttention) (training : bool)
      (keep : list Z -> bool) (x : Tensor float) (mask : option (Tensor bool))
      (B S_ : Z) :
  well_formed self ->
  shape x = [B; S_; d_model self] -> 0 <= B -> 0 <= S_ ->
  Attention.mask_fits B S_ mask = true ->
  exists y,
    forward round self training keep x [] mask = Ok y
    /\ shape y = [B; S_; d_model self]
    /\ forall b i o, 0 <= b < B -> 0 <= i < S_ ->
         get y [b; i; o]
         = mha_value round self training keep (get x) S_
                     (Attention.unsqueezed mask) b i o.
Proof.
  intros Hwf Hx HB HS Hmask.
  destruct (heads_times_dim_float self Hwf) as [HHD HD].
  destruct Hwf as (HH & HE & Hmod & Hai & Hao & Hpi & Hpo).
  destruct x as [sx gx]. cbn [shape get] in *. subst sx.
  unfold forward.
  change (size3 (mkTensor [B; S_; d_model self] gx)) with (Ok (B, S_, d_model self)).
  cbn [bind].
  rewrite Linear_forward_3d_float by (symmetry; exact Hai). cbn [bind].
  rewrite Hao, split_thirds by exact HE. cbn [bind unpack3].
  unfold py_floordiv.
  replace (n_head self =? 0) with false by (symmetry; apply Z.eqb_neq; lia).
  cbn [bind]. fold (head_dim self).
  assert (Hsz : Forall (fun d => 0 <= d) [B; S_; n_head self; head_dim self]).
  { repeat constructor; lia. }
  assert (Hnum : numel [B; S_; n_head self; head_dim self]
                 = numel [B; S_; d_model self]).
  { cbn [numel fold_right]. rewrite <- HHD. ring. }
  rewrite !view_exact by (cbn [shape]; assumption). cbn [bind shape].
  rewrite !transpose_heads. cbn [bind].
  match goal with
  | |- context [FloatSDP.forward _ _ _ _ ?q ?k ?v _] =>
      set (Q := q); set (K := k); set (V := v)
  end.
  assert (Hheads : forall b h s d,
             0 <= b < B -> 0 <= h < n_head self -> 0 <= s < S_ ->
             0 <= d < head_dim self ->
             get Q [b; h; s; d] = qkv_at round self gx 0 b s (h * head_dim self + d)
             /\ get K [b; h; s; d] = qkv_at round self gx 1 b s (h * head_dim self + d)
             /\ get V [b; h; s; d] = qkv_at round self gx 2 b s (h * head_dim self + d)).
  { intros b h s d Hb Hh Hs Hd. subst Q K V. cbn [get].
    cbn [swap_nth length seq map nth Nat.eqb].
    rewrite (unravel_heads B S_ (n_head self) (head_dim self) (d_model self))
      by (auto; lia).
    cbn [update_nth removelast last app].
    unfold qkv_at, linear_at. repeat split; reflexivity. }
  assert (HQs : shape Q = [B; n_head self; S_; head_dim self]) by reflexivity.
  assert (HKs : shape K = [B; n_head self; S_; head_dim self]) by reflexivity.
  assert (HVs : shape V = [B; n_head self; S_; head_dim self]) by reflexivity.
  clearbody Q K V.
  destruct (unsqueeze_mask B (n_head self) S_ mask Hmask) as [-> Hbc].
  cbn [bind]. unfold FloatSDP.forward. rewrite HQs, HKs, HVs.
  rewrite !Z.eqb_refl. cbn [andb]. rewrite Hbc. cbn [bind].
  rewrite transpose_heads. cbn [bind]. unfold contiguous.
  rewrite view_exact;
    [| repeat constructor; lia | cbn [shape]; symmetry; exact Hnum].
  cbn [bind shape].
  rewrite Linear_forward_3d_float by (symmetry; exact Hpi).
  eexists. split; [reflexivity |]. cbn [shape get].
  split; [rewrite Hpo; reflexivity |].
  intros b i o Hb Hi. cbn [removelast last app].
  unfold mha_value, linear_at. f_equal.
  apply sumF_ext. intros e He. rewrite Hpi in He. f_equal.
  rewrite (unravel_merge B S_ (n_head self) (head_dim self) (d_model self))
    by (auto; lia).
  cbn [swap_nth length seq map nth Nat.eqb].
  destruct (head_of_feature (n_head self) (head_dim self) e HD) as [Hh Hd];
    [rewrite HHD; exact He |].
  unfold head_out. apply sumF_ext. intros j Hj.
  destruct (Hheads b (e / head_dim self) j (e mod head_dim self)) as (_ & _ & ->);
    try assumption.
  f_equal.
  assert (Hexp : forall j', 0 <= j' < S_ ->
             exp round
               (FloatSDP.masked_fill (Attention.unsqueezed mask)
                  (FloatSDP.scores round Q K (head_dim self))
                  [b; e / head_dim self; i; j'])
             = exp_weight round self gx (Attention.unsqueezed mask) b
                          (e / head_dim self) i j').
  { intros j' Hj'. unfold FloatSDP.masked_fill, exp_weight.
    destruct (ScaledDP.permits _ _); [| reflexivity].
    f_equal. unfold FloatSDP.scores, score_at. f_equal.
    apply sumF_ext. intros c Hc.
    destruct (Hheads b (e / head_dim self) i c) as (-> & _ & _); try assumption.
    destruct (Hheads b (e / head_dim self) j' c) as (_ & -> & _); try assumption.
    reflexivity. }
  assert (Hsoft : FloatSDP.softmax round S_
                    (FloatSDP.masked_fill (Attention.unsqueezed mask)
                       (FloatSDP.scores round Q K (head_dim self)))
                    [b; e / head_dim self; i; j]
                  = div round
                        (exp_weight round self gx (Attention.unsqueezed mask) b
                                    (e / head_dim self) i j)
                        (sumF round S_
                              (fun j' => exp_weight round self gx
                                           (Attention.unsqueezed mask) b
                                           (e / head_dim self) i j'))).
  { unfold FloatSDP.softmax. cbn [removelast app]. rewrite Hexp by exact Hj.
    f_equal. apply sumF_ext. intros j' Hj'. apply Hexp. exact Hj'. }
  unfold attn_weight, FloatTorch.dropout.
  destruct training; cbn [get]; rewrite Hsoft; reflexivity.
Qed.

End FloatSelfAttention.

(** ** Causal masking on floats *)

Section FloatCausality.
Import Torch Float FloatAttention.
Variable round : R -> float.
Hypothesis round_0 : round 0 = Fin 0.
Variable self : MultiHeadAttention.
Hypothesis Hwf : well_formed self.
Variables (training : bool) (keep : list Z -> bool).

Lemma qkv_at_local_float (gx gx' : list Z -> float) (part b s e : Z) :
  (forall c, 0 <= c < d_model self -> gx [b; s; c] = gx' [b; s; c]) ->
  qkv_at round self gx part b s e = qkv_at round self gx' part b s e.
Proof.
  intros Hagree. destruct Hwf as (_ & _ & _ & Hai & _).
  unfold qkv_at, linear_at. f_equal. apply sumF_ext. intros c Hc.
  rewrite Hai in Hc. rewrite Hagree by exact Hc. reflexivity.
Qed.

(** The weight of a forbidden position is zero, or NaN when the whole
    row of weights is. *)
Lemma masked_weight (gx : list Z -> float) (S_ : Z) (m : option (Tensor bool))
      (b h i j : Z) :
  ScaledDP.permits m [b; h; i; j] = false ->
  attn_weight round self training keep gx S_ m b h i j = Fin 0
  \/ attn_weight round self training keep gx S_ m b h i j = NaN.
Proof.
  intros Hmask.
  assert (He : exp_weight round self gx m b h i j = Fin 0)
    by (unfold exp_weight; rewrite Hmask; reflexivity).
  unfold attn_weight. rewrite He.
  destruct training; [destruct (keep [b; h; i; j]) |].
  - apply (div_zero_or_nan round round_0). apply (div_zero round round_0).
  - left. reflexivity.
  - apply (div_zero round round_0).
Qed.

(** A feature [e] of the width is coordinate [e mod head_dim] of head
    [e / head_dim]. *)
Lemma feature_of_head (e : Z) :
  0 <= e < d_model self ->
  e / head_dim self * head_dim self + e mod head_dim self = e.
Proof.
  intros He. destruct (heads_times_dim_float self Hwf) as [_ HD].
  rewrite Z.mul_comm. symmetry. apply Z.div_mod. lia.
Qed.

(** Under a mask that forbids position [i] every later position, the
    output at [i] is the same for inputs that agree up to [i], if the
    values of both at the later positions are finite. *)
Lemma mha_value_local_float (gx gx' : list Z -> float) (S_ : Z)
      (m : option (Tensor bool)) (b i o : Z) :
  0 <= i < S_ ->
  (forall s c, 0 <= s <= i -> 0 <= c < d_model self -> gx [b; s; c] = gx' [b; s; c]) ->
  (forall h j, i < j < S_ -> ScaledDP.permits m [b; h; i; j] = false) ->
  (forall j e, i < j < S_ -> 0 <= e < d_model self ->
               is_finite (qkv_at round self gx 2 b j e) = true) ->
  (forall j e, i < j < S_ -> 0 <= e < d_model self ->
               is_finite (qkv_at round self gx' 2 b j e) = true) ->
  mha_value round self training keep gx S_ m b i o
  = mha_value round self training keep gx' S_ m b i o.
Proof.
  intros Hi Hagree Hcausal Hfin Hfin'.
  assert (Hq : forall part s e, 0 <= s <= i ->
             qkv_at round self gx part b s e = qkv_at round self gx' part b s e).
  { intros part s e Hs. apply qkv_at_local_float.
    intros c Hc. apply Hagree; assumption. }
  assert (Hexp : forall h j, 0 <= j < S_ ->
             exp_weight round self gx m b h i j = exp_weight round self gx' m b h i j).
  { intros h j Hj. unfold exp_weight.
    destruct (Z_le_gt_dec j i) as [Hle | Hgt].
    - unfold score_at.
      rewrite (sumF_ext round (head_dim self)
                 (fun c => mul round (qkv_at round self gx 0 b i (h * head_dim self + c))
                               (qkv_at round self gx 1 b j (h * head_dim self + c)))
                 (fun c => mul round (qkv_at round self gx' 0 b i (h * head_dim self + c))
                               (qkv_at round self gx' 1 b j (h * head_dim self + c))));
        [reflexivity |].
      intros c _. rewrite (Hq 0 i), (Hq 1 j) by lia. reflexivity.
    - rewrite Hcausal by lia. reflexivity. }
  assert (Hw : forall h j, 0 <= j < S_ ->
             attn_weight round self training keep gx S_ m b h i j
             = attn_weight round self training keep gx' S_ m b h i j).
  { intros h j Hj. unfold attn_weight. rewrite Hexp by exact Hj.
    rewrite (sumF_ext round S_ (fun j' => exp_weight round self gx m b h i j')
                      (fun j' => exp_weight round self gx' m b h i j'))
      by (intros j' Hj'; apply Hexp; exact Hj').
    reflexivity. }
  destruct Hwf as (_ & _ & _ & _ & _ & Hpi & _).
  unfold mha_value, linear_at. f_equal. apply sumF_ext. intros e He. f_equal.
  rewrite Hpi in He.
  unfold head_out. apply sumF_ext. intros j Hj. rewrite Hw by exact Hj.
  rewrite (feature_of_head e He).
  destruct (Z_le_gt_dec j i) as [Hle | Hgt].
  - rewrite (Hq 2 j) by lia. reflexivity.
  - assert (Hzero : attn_weight round self training keep gx' S_ m b
                                (e / head_dim self) i j = Fin 0
                    \/ attn_weight round self training keep gx' S_ m b
                                   (e / head_dim self) i j = NaN)
      by (apply masked_weight; apply Hcausal; lia).
    rewrite !(mul_zero_or_nan_finite round round_0) by
        (first [exact Hzero | apply Hfin; lia | apply Hfin'; lia]).
    reflexivity.
Qed.

(** A value at a forbidden position that is not finite makes the output
    at [i] NaN. *)
Lemma nonfinite_future_value_reaches (gx : list Z -> float) (S_ : Z)
      (m : option (Tensor bool)) (b i j e o : Z) :
  0 <= j < S_ -> 0 <= e < d_model self ->
  (forall h, ScaledDP.permits m [b; h; i; j] = false) ->
  is_finite (qkv_at round self gx 2 b j e) = false ->
  mha_value round self training keep gx S_ m b i o = NaN.
Proof.
  intros Hj He Hmask Hinf.
  destruct Hwf as (_ & _ & _ & _ & _ & Hpi & _).
  unfold mha_value, linear_at.
  rewrite (sumF_nan round _ _ e); [reflexivity | rewrite Hpi; exact He |].
  unfold head_out.
  rewrite (sumF_nan round _ _ j); [reflexivity | exact Hj |].
  rewrite (feature_of_head e He).
  apply (mul_zero_or_nan_nonfinite round); [| exact Hinf].
  apply masked_weight. apply Hmask.
Qed.

End FloatCausality.

Section FloatExamples.
Import Torch Float FloatAttention.

Lemma tril_permits (n h i j : Z) :
  0 <= i < n -> 0 <= j < n ->
  ScaledDP.permits (Attention.unsqueezed (Some (tril 1 n))) [0; h; i; j] = (j <=? i).
Proof.
  intros Hi Hj. cbn.
  destruct (Z.eqb_spec n 1) as [-> | _]; [| reflexivity].
  assert (i = 0) by lia. assert (j = 0) by lia. subst. reflexivity.
Qed.

Lemma scaled_inf_pos (a : R) : (0 < a)%R -> scaled_inf a false = PInf.
Proof.
  intros Ha. unfold scaled_inf.
  destruct (Req_dec_T a 0) as [H0 | _]; [lra |].
  destruct (Rlt_dec a 0) as [Hlt | _]; [lra |]. reflexivity.
Qed.

Lemma div_fin (a b : R) : b <> 0%R -> div Fin (Fin a) (Fin b) = Fin (a / b).
Proof.
  intros Hb. cbn [div]. destruct (Req_dec_T b 0) as [H0 | _]; [contradiction |].
  reflexivity.
Qed.

Lemma sqrt_fin (a : R) : (0 <= a)%R -> sqrt Fin (Fin a) = Fin (R_sqrt.sqrt a).
Proof.
  intros Ha. cbn [sqrt]. destruct (Rlt_dec a 0) as [Hlt | _]; [lra |]. reflexivity.
Qed.

Lemma float_layer_well_formed : well_formed FloatExample.layer.
Proof. unfold well_formed. cbn. repeat split; lia. Qed.

(** The value of position 1 is what the input holds there. *)
Lemma example_value (future : float) :
  qkv_at Fin FloatExample.layer (get (FloatExample.input future)) 2 0 1 0
  = add Fin (add Fin (mul Fin future (Fin 1)) (Fin 0)) (Fin 0).
Proof.
  unfold qkv_at, linear_at, sumF.
  cbn [FloatExample.layer FloatExample.input FloatExample.ones
       FloatExample.zeros get shape
       FloatAttention.c_attn FloatTorch.in_features FloatTorch.weight FloatTorch.bias].
  change (Z.to_nat 1) with 1%nat. cbn [seq fold_right Z.eqb]. reflexivity.
Qed.

Lemma example_values_finite (r : R) :
  future_values_finite Fin FloatExample.layer (FloatExample.input (Fin r)) 1 2 0.
Proof.
  intros y Hy b j c Hb Hj Hc. cbn in Hc.
  assert (b = 0) by lia. assert (j = 1) by lia. assert (c = 0) by lia. subst b j c.
  unfold FloatExample.input in Hy.
  rewrite Linear_forward_3d_float in Hy by reflexivity.
  injection Hy as <-.
  cbn [get removelast last app FloatExample.layer FloatAttention.c_attn
       FloatAttention.d_model FloatTorch.in_features FloatTorch.weight FloatTorch.bias
       FloatExample.ones FloatExample.zeros].
  unfold sumF. change (Z.to_nat 1) with 1%nat.
  cbn [seq fold_right Z.eqb Z.of_nat add mul is_finite]. reflexivity.
Qed.

(** On the input that holds 1 at both positions the output at position 0
    is a finite number. *)
Lemma example_output_finite (keep : list Z -> bool) :
  is_finite (mha_value Fin FloatExample.layer false keep (get FloatExample.x1) 2
                       (Attention.unsqueezed (Some (tril 1 2))) 0 0 0) = true.
Proof.
  unfold mha_value, linear_at, head_out, attn_weight, exp_weight, score_at, qkv_at,
    linear_at, head_dim, sumF, of_Z.
  cbn [FloatExample.layer FloatExample.x1 FloatExample.input FloatExample.ones
       FloatExample.zeros get shape
       FloatAttention.c_attn FloatAttention.c_proj FloatAttention.n_head
       FloatAttention.d_model FloatAttention.attn FloatTorch.in_features
       FloatTorch.out_features FloatTorch.weight FloatTorch.bias].
  change (1 / 1) with 1. change (0 / 1) with 0.
  change (Z.to_nat 1) with 1%nat. change (Z.to_nat 2) with 2%nat.
  cbn [seq fold_right Z.of_nat Pos.of_succ_nat Pos.succ].
  rewrite !tril_permits by lia.
  cbn [Z.leb Z.compare Z.eqb Pos.eqb add mul exp].
  rewrite sqrt_fin by lra.
  rewrite !div_fin by (rewrite sqrt_1; lra).
  cbn [add mul exp].
  rewrite !div_fin
    by (match goal with
        | |- (Rtrigo_def.exp ?a + _ <> 0)%R => pose proof (exp_pos a); lra
        end).
  cbn [add mul exp is_finite]. reflexivity.
Qed.

End FloatExamples.

(** C2, as amended.  Under any causal mask, the self-attention output at
    position [i] is the same for two inputs that agree at all positions
    up to [i], whatever finite numbers they hold later: it is required
    that the value projections of both inputs at the positions after [i]
    are finite (no NaN, no infinity, no overflow).  This holds for every
    rounding of the float format that leaves zero as it is. *)
Theorem causal_self_attention_ignores_finite_future :
  forall (round : R -> Float.float) (self : FloatAttention.MultiHeadAttention)
         (training : bool) (keep : list Z -> bool) (x x' : Tensor Float.float)
         (mask : option (Tensor bool)) (B S_ i : Z),
    round 0%R = Float.Fin 0 ->
    FloatAttention.well_formed self ->
    shape x = [B; S_; FloatAttention.d_model self] ->
    shape x' = [B; S_; FloatAttention.d_model self] ->
    0 <= B -> 0 <= i < S_ ->
    Attention.mask_fits B S_ mask = true ->
    is_causal B S_ mask ->
    (forall b s c, 0 <= b < B -> 0 <= s <= i -> 0 <= c < FloatAttention.d_model self ->
                   get x [b; s; c] = get x' [b; s; c]) ->
    FloatAttention.future_values_finite round self x B S_ i ->
    FloatAttention.future_values_finite round self x' B S_ i ->
    exists y y',
      FloatAttention.forward round self training keep x [] mask = Ok y
      /\ FloatAttention.forward round self training keep x' [] mask = Ok y'
      /\ forall b o, 0 <= b < B -> get y [b; i; o] = get y' [b; i; o].
Proof.
  intros round self training keep x x' mask B S_ i Hround Hwf Hx Hx' HB Hi Hfits
         Hcausal Hagree Hfin Hfin'.
  destruct (forward_self_value_float round self training keep x mask B S_ Hwf Hx HB)
    as (y & Hy & _ & Hval); [lia | exact Hfits |].
  destruct (forward_self_value_float round self training keep x' mask B S_ Hwf Hx' HB)
    as (y' & Hy' & _ & Hval'); [lia | exact Hfits |].
  exists y, y'. split; [exact Hy |]. split; [exact Hy' |].
  intros b o Hb. rewrite Hval, Hval' by assumption.
  assert (Hvalues : forall z : Tensor Float.float,
             shape z = [B; S_; FloatAttention.d_model self] ->
             FloatAttention.future_values_finite round self z B S_ i ->
             forall j e, i < j < S_ -> 0 <= e < FloatAttention.d_model self ->
               Float.is_finite (FloatAttention.qkv_at round self (get z) 2 b j e)
               = true).
  { intros [sz gz] Hz Hf j e Hj He. cbn [shape get] in *. subst sz.
    destruct Hwf as (_ & _ & _ & Hai & _).
    specialize (Hf _ (Linear_forward_3d_float round _ gz B S_ _ (eq_sym Hai))
                  b j e Hb Hj He).
    cbn [get removelast last app] in Hf.
    unfold FloatAttention.qkv_at, FloatAttention.linear_at.
    rewrite Z.add_comm. exact Hf. }
  apply (mha_value_local_float round Hround self Hwf); try assumption.
  - intros s c Hs Hc. apply Hagree; assumption.
  - intros h j Hj. apply Hcausal; lia.
  - apply Hvalues; assumption.
  - apply Hvalues; assumption.
Qed.

Lemma causal_self_attention_ignores_finite_future_witness :
  exists y y',
    FloatAttention.forward Float.Fin FloatExample.layer true (fun _ => true)
                           FloatExample.x1 [] (Some (tril 1 2)) = Ok y
    /\ FloatAttention.forward Float.Fin FloatExample.layer true (fun _ => true)
                              FloatExample.x2 [] (Some (tril 1 2)) = Ok y'
    /\ forall b o, 0 <= b < 1 -> get y [b; 0; o] = get y' [b; 0; o].
Proof.
  apply (causal_self_attention_ignores_finite_future Float.Fin FloatExample.layer
           true (fun _ => true) FloatExample.x1 FloatExample.x2 (Some (tril 1 2))
           1 2 0).
  - reflexivity.
  - apply float_layer_well_formed.
  - reflexivity.
  - reflexivity.
  - lia.
  - lia.
  - reflexivity.
  - apply tril_is_causal.
  - intros b s c Hb Hs Hc. assert (s = 0) by lia. subst s. reflexivity.
  - apply example_values_finite.
  - apply example_values_finite.
Defined.

(** C2, as stated, fails on float tensors: the layer of weight 1 under
    the causal mask of length 2 returns a finite number at position 0
    for the input (1, 1) and NaN for the input (1, infinity); the inputs
    agree at position 0, whose weight for position 1 is zero, and zero
    times infinity is NaN. *)
Lemma future_infinity_counterexample :
  (exists y y',
      FloatAttention.forward Float.Fin FloatExample.layer false (fun _ => true)
                             FloatExample.x1 [] (Some (tril 1 2)) = Ok y
      /\ FloatAttention.forward Float.Fin FloatExample.layer false (fun _ => true)
                                FloatExample.x_inf [] (Some (tril 1 2)) = Ok y'
      /\ get FloatExample.x1 [0; 0; 0] = get FloatExample.x_inf [0; 0; 0]
      /\ Float.is_finite (get y [0; 0; 0]) = true
      /\ get y' [0; 0; 0] = Float.NaN)
  /\ is_causal 1 2 (Some (tril 1 2))
  /\ ~ FloatAttention.ignores_future Float.Fin FloatExample.layer
         (Some (tril 1 2)) 1 2 0.
Proof.
  destruct (forward_self_value_float Float.Fin FloatExample.layer false (fun _ => true)
              FloatExample.x1 (Some (tril 1 2)) 1 2 float_layer_well_formed)
    as (y & Hy & _ & Hval); [reflexivity | lia | lia | reflexivity |].
  destruct (forward_self_value_float Float.Fin FloatExample.layer false (fun _ => true)
              FloatExample.x_inf (Some (tril 1 2)) 1 2 float_layer_well_formed)
    as (y' & Hy' & _ & Hval'); [reflexivity | lia | lia | reflexivity |].
  assert (Hfinite : Float.is_finite (get y [0; 0; 0]) = true).
  { rewrite Hval by lia. apply example_output_finite. }
  assert (Hnan : get y' [0; 0; 0] = Float.NaN).
  { rewrite Hval' by lia.
    apply (nonfinite_future_value_reaches Float.Fin eq_refl FloatExample.layer
             float_layer_well_formed false (fun _ => true) (get FloatExample.x_inf)
             2 _ 0 0 1 0 0).
    - lia.
    - cbn. lia.
    - intros h. rewrite tril_permits by lia. reflexivity.
    - unfold FloatExample.x_inf. rewrite example_value.
      cbn [Float.mul]. rewrite scaled_inf_pos by lra. reflexivity. }
  split.
  - exists y, y'. repeat (split; [first [assumption | reflexivity] |]). exact Hnan.
  - split; [apply tril_is_causal |].
    intros Hclaim.
    specialize (Hclaim false (fun _ => true) FloatExample.x1 FloatExample.x_inf y y'
                       eq_refl eq_refl).
    assert (Heq : get y [0; 0; 0] = get y' [0; 0; 0]).
    { apply Hclaim; try assumption; try (cbn; lia).
      intros b s c Hb Hs Hc. assert (s = 0) by lia. subst s. reflexivity. }
    rewrite Hnan in Heq. rewrite Heq in Hfinite. discriminate.
Qed.
(** ** Decoding against a memory *)

Section Decode.
Import Torch Decoder.

Lemma decode_eq (p : PositionalEmbedding) (blocks : list DecoderBlock)
      (memory : Tensor R) (mm : option (Tensor bool)) (tgt : Transformer.LongTensor)
      (mask : option (Tensor bool)) :
  Transformer._decode sub memory mm tgt mask (model p blocks, tt)
  = (we <- p_emb_forward p tgt ;;
     forward blocks false (fun _ => true) we memory mask mm,
     (model p blocks, tt)).
Proof.
  unfold Transformer._decode, se_bind, Transformer.call. cbn.
  unfold se_lift. destruct (p_emb_forward p tgt) as [we | e]; cbn; [| reflexivity].
  destruct (forward blocks false _ we memory mask mm); reflexivity.
Qed.

(** The embedding of one row of tokens: a shape error beyond the maximum
    length, else a hidden state (1, length, width). *)
Lemma p_emb_row (p : PositionalEmbedding) (row : list Z) :
  p_emb_forward p [row] = Raise RuntimeError
  \/ exists we, p_emb_forward p [row] = Ok we
                /\ shape we = [1; Z.of_nat (length row); width p].
Proof.
  unfold p_emb_forward. cbn [hd length].
  destruct (max_len p <? Z.of_nat (length row)); [left; reflexivity |].
  right. eexists. split; reflexivity.
Qed.

Variable blk : DecoderBlock.
Variable d : Z.
Hypothesis Hself : Attention.well_formed (self_attn blk).
Hypothesis Hcross : Attention.well_formed (cross_attn blk).
Hypothesis Hself_d : Attention.d_model (self_attn blk) = d.
Hypothesis Hcross_d : Attention.d_model (cross_attn blk) = d.

(** A block whose hidden state is not as long as the memory raises in its
    cross-attention. *)
Lemma block_forward_length_mismatch (training : bool) (keep : list Z -> bool)
      (x memory : Tensor R) (B T M : Z) :
  shape x = [B; T; d] -> shape memory = [B; M; d] ->
  0 < B -> 0 <= T -> T <> M ->
  block_forward blk training keep x memory None None = Raise RuntimeError.
Proof.
  intros Hx Hm HB HT Hne. unfold block_forward.
  rewrite <- Hself_d in Hx.
  destruct (forward_self_value (self_attn blk) training keep x None B T Hself Hx)
    as (a & -> & Ha & _); [lia | exact HT | reflexivity |].
  cbn [bind]. rewrite Hself_d in Hx.
  rewrite (forward_cross_length_mismatch (cross_attn blk) training keep _ _ memory
             memory None B T M);
    try assumption; try reflexivity; try (cbn [rowwise add shape]; congruence).
Qed.

(** A block whose hidden state is as long as the memory returns a hidden
    state of the same shape. *)
Lemma block_forward_equal_lengths (training : bool) (keep : list Z -> bool)
      (x memory : Tensor R) (B T : Z) :
  shape x = [B; T; d] -> shape memory = [B; T; d] -> 0 <= B -> 0 <= T ->
  exists y, block_forward blk training keep x memory None None = Ok y
            /\ shape y = [B; T; d].
Proof.
  intros Hx Hm HB HT. unfold block_forward.
  rewrite <- Hself_d in Hx.
  destruct (forward_self_value (self_attn blk) training keep x None B T Hself Hx)
    as (a & -> & Ha & _); [exact HB | exact HT | reflexivity |].
  cbn [bind]. rewrite Hself_d in Hx.
  set (x1 := rowwise (norm1 blk) (add x a)).
  assert (Hx1 : shape x1 = [B; T; Attention.d_model (cross_attn blk)])
    by (rewrite Hcross_d; exact Hx).
  rewrite <- Hcross_d in Hm.
  destruct (forward_cross_equal_lengths (cross_attn blk) training keep x1 x1 memory
              memory None B T Hcross Hx1 Hx1 Hm Hm HB HT eq_refl)
    as (c & -> & Hc).
  cbn [bind]. eexists. split; [reflexivity |].
  cbn [rowwise add shape]. rewrite <- Hcross_d. exact Hx1.
Qed.

End Decode.

Section DecodeStack.
Import Torch Decoder.

Lemma forward_equal_lengths (d : Z) (training : bool) (keep : list Z -> bool)
      (memory : Tensor R) (B T : Z) :
  shape memory = [B; T; d] -> 0 <= B -> 0 <= T ->
  forall (blocks : list DecoderBlock) (x : Tensor R),
    Forall (fun blk => Attention.well_formed (self_attn blk)
                       /\ Attention.well_formed (cross_attn blk)
                       /\ Attention.d_model (self_attn blk) = d
                       /\ Attention.d_model (cross_attn blk) = d) blocks ->
    shape x = [B; T; d] ->
    exists y, forward blocks training keep x memory None None = Ok y
              /\ shape y = [B; T; d].
Proof.
  intros Hm HB HT blocks.
  induction blocks as [| blk blocks IH]; intros x Hall Hx; cbn [forward].
  - exists x. split; [reflexivity | exact Hx].
  - pose proof (Forall_inv Hall) as (Hs & Hc & Hsd & Hcd).
    pose proof (Forall_inv_tail Hall) as Hrest.
    destruct (block_forward_equal_lengths blk d Hs Hc Hsd Hcd training keep x memory
                B T Hx Hm HB HT) as (y & -> & Hy).
    cbn [bind]. apply IH; assumption.
Qed.

End DecodeStack.

(** C8.  Through the cross-attention of MultiHeadAttention.forward, a
    decoder of at least one block decodes a target against a memory only
    when the two have the same length.  For a memory of [M] positions,
    the decode call of [generate] on a target of any other length raises
    RuntimeError, so that of a target and a proper extension of it at
    least one raises; a target of [M] tokens, up to the maximum length,
    is decoded to a hidden state (1, M, d_model). *)
Theorem decode_of_growing_target_raises :
  forall (p : Decoder.PositionalEmbedding) (blk : Decoder.DecoderBlock)
         (blocks : list Decoder.DecoderBlock) (memory : Tensor R) (M : Z),
    Forall (fun b => Attention.well_formed (Decoder.self_attn b)
                     /\ Attention.well_formed (Decoder.cross_attn b)
                     /\ Attention.d_model (Decoder.self_attn b) = Decoder.width p
                     /\ Attention.d_model (Decoder.cross_attn b) = Decoder.width p)
           (blk :: blocks) ->
    shape memory = [1; M; Decoder.width p] ->
    (forall row : list Z,
        Z.of_nat (length row) <> M ->
        fst (Transformer._decode Decoder.sub memory None [row] None
                                 (Decoder.model p (blk :: blocks), tt))
        = Raise RuntimeError)
    /\ (forall row ext : list Z,
          ext <> [] ->
          fst (Transformer._decode Decoder.sub memory None [row] None
                                   (Decoder.model p (blk :: blocks), tt))
          = Raise RuntimeError
          \/ fst (Transformer._decode Decoder.sub memory None [row ++ ext] None
                                      (Decoder.model p (blk :: blocks), tt))
             = Raise RuntimeError)
    /\ (forall row : list Z,
          Z.of_nat (length row) = M -> M <= Decoder.max_len p ->
          exists y,
            fst (Transformer._decode Decoder.sub memory None [row] None
                                     (Decoder.model p (blk :: blocks), tt))
            = Ok y
            /\ shape y = [1; M; Decoder.width p]).
Proof.
  intros p blk blocks memory M Hall Hm.
  assert (Hraise : forall row : list Z,
             Z.of_nat (length row) <> M ->
             fst (Transformer._decode Decoder.sub memory None [row] None
                                      (Decoder.model p (blk :: blocks), tt))
             = Raise RuntimeError).
  { intros row Hne. rewrite decode_eq. cbn [fst].
    destruct (p_emb_row p row) as [-> | (we & -> & Hwe)]; [reflexivity |].
    cbn [bind Decoder.forward].
    inversion Hall as [| ? ? (Hs & Hc & Hsd & Hcd) _]; subst.
    rewrite (block_forward_length_mismatch blk (Decoder.width p) Hs Hc Hsd Hcd
               false (fun _ => true) we memory 1 (Z.of_nat (length row)) M);
      try assumption; try lia. reflexivity. }
  split; [exact Hraise |]. split.
  - intros row ext Hext.
    destruct (Z.eq_dec (Z.of_nat (length row)) M) as [Heq | Hne].
    + right. apply Hraise. rewrite length_app.
      destruct ext as [| t ext]; [congruence |]. cbn [length]. lia.
    + left. apply Hraise. exact Hne.
  - intros row Hlen Hmax. rewrite decode_eq. cbn [fst].
    unfold Decoder.p_emb_forward. cbn [hd length].
    replace (Decoder.max_len p <? Z.of_nat (length row)) with false
      by (symmetry; apply Z.ltb_ge; lia).
    cbn [bind]. rewrite Hlen.
    apply (forward_equal_lengths (Decoder.width p) false (fun _ => true) memory 1 M);
      try assumption; try lia. reflexivity.
Qed.

Lemma decode_of_growing_target_raises_witness :
  (forall row : list Z,
      Z.of_nat (length row) <> 3 ->
      fst (Transformer._decode Decoder.sub OneBlock.memory3 None [row] None
                               (Decoder.model OneBlock.p_emb [OneBlock.block], tt))
      = Raise RuntimeError)
  /\ (forall row ext : list Z,
        ext <> [] ->
        fst (Transformer._decode Decoder.sub OneBlock.memory3 None [row] None
                                 (Decoder.model OneBlock.p_emb [OneBlock.block], tt))
        = Raise RuntimeError
        \/ fst (Transformer._decode Decoder.sub OneBlock.memory3 None [row ++ ext] None
                                    (Decoder.model OneBlock.p_emb [OneBlock.block], tt))
           = Raise RuntimeError)
  /\ (forall row : list Z,
        Z.of_nat (length row) = 3 -> 3 <= Decoder.max_len OneBlock.p_emb ->
        exists y,
          fst (Transformer._decode Decoder.sub OneBlock.memory3 None [row] None
                                   (Decoder.model OneBlock.p_emb [OneBlock.block], tt))
          = Ok y
          /\ shape y = [1; 3; Decoder.width OneBlock.p_emb]).
Proof.
  apply (decode_of_growing_target_raises OneBlock.p_emb OneBlock.block []
           OneBlock.memory3 3).
  - constructor; [| constructor].
    split; [apply example_layer_well_formed |].
    split; [apply example_layer_well_formed |]. split; reflexivity.
  - reflexivity.
Defined.

(** * Further properties *)

(** ** Construction *)

Section ConstructionExtras.
Import Torch.

Lemma nn_Linear_ok (init : nat -> list Z -> R) (i o : Z) (log : list TensorOp) :
  0 <= i -> 0 <= o ->
  nn_Linear init i o log
  = (Ok (mkLinear i o (mkTensor [o; i] (init (length log)))
                  (mkTensor [o] (init (S (length log))))),
     log ++ [Alloc [o; i]; Alloc [o]]).
Proof.
  intros Hi Ho. unfold nn_Linear, se_bind, se_ret, empty. cbn [existsb].
  replace (o <? 0) with false by (symmetry; apply Z.ltb_ge; lia).
  replace (i <? 0) with false by (symmetry; apply Z.ltb_ge; lia).
  cbn [orb]. rewrite length_app, <- app_assoc. cbn [length app].
  replace (length log + 1)%nat with (S (length log)) by lia. reflexivity.
Qed.

End ConstructionExtras.

(** X2.  The constructor of transformer/common/attention.py checks the
    dropout rate last: with a valid width and head count, a rate outside
    [0, 1] raises ValueError only after the four parameter tensors have
    been created, and a rate inside constructs the layer. *)
Theorem common_init_checks_dropout_last :
  forall (init : nat -> list Z -> R) (d h : Z) (p : R) (log : list Torch.TensorOp),
    h <> 0 -> d mod h = 0 -> 0 <= d ->
    ((p < 0 \/ 1 < p)%R ->
     CommonAttention.__init__ init d h p log
     = (Raise ValueError,
        log ++ [Torch.Alloc [3 * d; d]; Torch.Alloc [3 * d];
                Torch.Alloc [d; d]; Torch.Alloc [d]]))
    /\ ((0 <= p <= 1)%R ->
        exists m,
          CommonAttention.__init__ init d h p log
          = (Ok m, log ++ [Torch.Alloc [3 * d; d]; Torch.Alloc [3 * d];
                           Torch.Alloc [d; d]; Torch.Alloc [d]])
          /\ CommonAttention.dropout m = p
          /\ CommonAttention.p (CommonAttention.resid_dropout m) = p
          /\ CommonAttention.n_head m = h /\ CommonAttention.d_model m = d).
Proof.
  intros init d h p log Hh Hmod Hd. rewrite common_init_guard.
  replace (h =? 0) with false by (symmetry; apply Z.eqb_neq; exact Hh).
  rewrite Hmod. cbn [Z.eqb].
  unfold se_bind, CommonAttention.nn_Dropout, se_lift, se_ret.
  rewrite nn_Linear_ok by lia. cbv iota beta.
  rewrite nn_Linear_ok by lia. cbv iota beta.
  rewrite <- app_assoc. cbn [app].
  split.
  - intros Hout. destruct (Rlt_dec p 0) as [? | Hlo]; [reflexivity |].
    destruct (Rlt_dec 1 p) as [? | Hhi]; [reflexivity | lra].
  - intros Hin. destruct (Rlt_dec p 0) as [? | Hlo]; [lra |].
    destruct (Rlt_dec 1 p) as [? | Hhi]; [lra |].
    eexists. split; [reflexivity |]. cbn. repeat split; reflexivity.
Qed.

Lemma common_init_checks_dropout_last_witness :
  CommonAttention.__init__ (fun _ _ => 0%R) 4 2 2%R []
  = (Raise ValueError,
     [] ++ [Torch.Alloc [3 * 4; 4]; Torch.Alloc [3 * 4];
            Torch.Alloc [4; 4]; Torch.Alloc [4]]).
Proof.
  apply (proj1 (common_init_checks_dropout_last (fun _ _ => 0%R) 4 2 2%R []
                  ltac:(lia) eq_refl ltac:(lia))).
  right. lra.
Defined.

(** ** MultiHeadAttention.forward: inputs it refuses *)

Section ForwardErrors.
Import Torch Attention.

Lemma infer_size_negative_heads (B S_ h D n : Z) :
  h < 0 -> (h = -1 -> D <= -1) ->
  infer_size [B; S_; h; D] n = Raise RuntimeError.
Proof.
  intros Hh HD. unfold infer_size.
  destruct (existsb (fun d => d <? -1) [B; S_; h; D]) eqn:Hex; [reflexivity |].
  cbn [existsb] in Hex. apply orb_false_iff in Hex. destruct Hex as [_ Hex].
  apply orb_false_iff in Hex. destruct Hex as [_ Hex].
  apply orb_false_iff in Hex. destruct Hex as [Hh1 Hex].
  apply orb_false_iff in Hex. destruct Hex as [HD1 _].
  apply Z.ltb_ge in Hh1, HD1.
  assert (h = -1) by lia. assert (D = -1) by lia. subst h D.
  cbn [count_occ].
  destruct (Z.eq_dec (-1) (-1)) as [_ | Hne]; [| congruence].
  destruct (Z.eq_dec B (-1)); destruct (Z.eq_dec S_ (-1)); reflexivity.
Qed.

(** A layer of width zero raises on every self-attention call. *)
Lemma forward_self_zero_width (self : MultiHeadAttention) (training : bool)
      (keep : list Z -> bool) (x : Tensor R) (mask : option (Tensor bool)) :
  d_model self = 0 -> in_features (c_attn self) = 0 -> out_features (c_attn self) = 0 ->
  exists e, forward self training keep x [] mask = Raise e.
Proof.
  intros Hd Hin Hout. destruct x as [sx gx]. unfold forward, size3. cbn [shape].
  destruct sx as [| B [| S_ [| E [| ? ?]]]]; try (eexists; reflexivity).
  cbn [bind]. unfold Linear_forward. cbn [shape rev app]. rewrite Hin.
  destruct (E =? 0) eqn:HE; [| eexists; reflexivity].
  apply Z.eqb_eq in HE. subst E. cbn [bind removelast app]. rewrite Hout, Hd.
  eexists. reflexivity.
Qed.

(** A layer with a negative head count raises on every self-attention
    call. *)
Lemma forward_self_negative_heads (self : MultiHeadAttention) (training : bool)
      (keep : list Z -> bool) (x : Tensor R) (mask : option (Tensor bool)) :
  n_head self < 0 -> 0 < d_model self ->
  in_features (c_attn self) = d_model self ->
  out_features (c_attn self) = 3 * d_model self ->
  exists e, forward self training keep x [] mask = Raise e.
Proof.
  intros Hh Hd Hin Hout. destruct x as [sx gx]. unfold forward, size3. cbn [shape].
  destruct sx as [| B [| S_ [| E [| ? ?]]]]; try (eexists; reflexivity).
  cbn [bind]. unfold Linear_forward. cbn [shape rev app]. rewrite Hin.
  destruct (E =? d_model self) eqn:HE; [| eexists; reflexivity].
  apply Z.eqb_eq in HE. subst E. cbn [bind removelast app].
  rewrite Hout, split_thirds by exact Hd. cbn [bind unpack3].
  unfold py_floordiv.
  replace (n_head self =? 0) with false by (symmetry; apply Z.eqb_neq; lia).
  cbn [bind]. unfold view at 1.
  rewrite infer_size_negative_heads; [eexists; reflexivity | exact Hh |].
  intros ->. change (-1) with (- (1)). rewrite Z.div_opp_r_z; [| lia |].
  - rewrite Z.div_1_r. lia.
  - apply Z.mod_1_r.
Qed.

End ForwardErrors.

(** X3.  The converse of shape preservation: if [forward] of a layer that
    [__init__] built returns on a self-attention call, then the head count
    and the width are positive.  Layers with a negative head count or
    width 0 are constructed without complaint and raise on every call. *)
Theorem forward_self_needs_positive_configuration :
  forall (init : nat -> list Z -> R) (d h : Z) (p : R) (log log' : list Torch.TensorOp)
         (self : Attention.MultiHeadAttention) (training : bool)
         (keep : list Z -> bool) (x : Tensor R) (mask : option (Tensor bool))
         (y : Tensor R),
    Attention.__init__ init d h p log = (Ok self, log') ->
    Attention.forward self training keep x [] mask = Ok y ->
    0 < h /\ 0 < d /\ Attention.well_formed self.
Proof.
  intros init d h p log log' self training keep x mask y Hinit Hfwd.
  destruct (attention_init_ok init d h p log self log' Hinit)
    as (Hh & Hmod & Hd & Hn & Hdm & H1 & H2 & H3 & H4).
  assert (Hdpos : 0 < d).
  { destruct (Z.eq_dec d 0) as [-> | ?]; [| lia].
    destruct (forward_self_zero_width self training keep x mask) as [e He];
      try congruence. rewrite H2. reflexivity. }
  assert (Hhpos : 0 < h).
  { destruct (Z_lt_dec h 0) as [Hneg | ?]; [| lia].
    destruct (forward_self_negative_heads self training keep x mask) as [e He];
      try congruence; lia. }
  split; [exact Hhpos |]. split; [exact Hdpos |].
  apply (init_well_formed init d h p log log' self Hinit Hdpos Hhpos).
Qed.

Lemma forward_self_needs_positive_configuration_witness :
  0 < 2 /\ 0 < 4 /\ Attention.well_formed Built.layer.
Proof.
  apply (forward_self_needs_positive_configuration (fun _ _ => 0%R) 4 2 (1 / 2)%R []
           [Torch.Alloc [12; 4]; Torch.Alloc [12]; Torch.Alloc [4; 4]; Torch.Alloc [4]]
           Built.layer false (fun _ => true) Example.x1 None Built.out).
  - reflexivity.
  - reflexivity.
Defined.

(** X4.  Cross-attention works for equal lengths only: with query of the
    shape of [x] and key and value of shape (B, Sk, d_model), the call
    returns a tensor of the shape of [x] if [Sk] is the length of [x] and
    raises RuntimeError for every other [Sk]. *)
Theorem forward_cross_succeeds_iff_equal_lengths :
  forall (self : Attention.MultiHeadAttention) (training : bool)
         (keep : list Z -> bool) (x q k v : Tensor R) (B S_ Sk : Z),
    Attention.well_formed self ->
    shape x = [B; S_; Attention.d_model self] ->
    shape q = [B; S_; Attention.d_model self] ->
    shape k = [B; Sk; Attention.d_model self] ->
    shape v = [B; Sk; Attention.d_model self] ->
    0 < B -> 0 <= S_ ->
    (Sk = S_ ->
     exists y, Attention.forward self training keep x [q; k; v] None = Ok y
               /\ shape y = shape x)
    /\ (Sk <> S_ ->
        Attention.forward self training keep x [q; k; v] None = Raise RuntimeError).
Proof.
  intros self training keep x q k v B S_ Sk Hwf Hx Hq Hk Hv HB HS. split.
  - intros ->. rewrite Hx.
    apply (forward_cross_equal_lengths self training keep x q k v None B S_);
      try assumption; try lia. reflexivity.
  - intros Hne.
    apply (forward_cross_length_mismatch self training keep x q k v None B S_ Sk);
      assumption.
Qed.

Lemma forward_cross_succeeds_iff_equal_lengths_witness :
  (3 = 1 ->
   exists y, Attention.forward Example.layer false (fun _ => true) Example.query
                               [Example.query; Example.memory; Example.memory] None
             = Ok y
             /\ shape y = shape Example.query)
  /\ (3 <> 1 ->
      Attention.forward Example.layer false (fun _ => true) Example.query
                        [Example.query; Example.memory; Example.memory] None
      = Raise RuntimeError).
Proof.
  apply (forward_cross_succeeds_iff_equal_lengths Example.layer false (fun _ => true)
           Example.query Example.query Example.memory Example.memory 1 1 3).
  - unfold Attention.well_formed. cbn. repeat split; lia.
  - reflexivity.
  - reflexivity.
  - reflexivity.
  - reflexivity.
  - lia.
  - lia.
Defined.

(** X5.  Malformed calls of [forward]: an [x] that is not 3-D raises
    ValueError (unpacking [x.size()]); so does a [qkv] of one, two or more
    than three tensors; and in the self-attention case an [x] whose last
    axis is not the input width of [c_attn] raises RuntimeError. *)
Theorem forward_refuses_malformed_input :
  forall (self : Attention.MultiHeadAttention) (training : bool)
         (keep : list Z -> bool) (x : Tensor R) (qkv : list (Tensor R))
         (mask : option (Tensor bool)),
    (length (shape x) <> 3%nat ->
     Attention.forward self training keep x qkv mask = Raise ValueError)
    /\ (length (shape x) = 3%nat -> qkv <> [] -> length qkv <> 3%nat ->
        Attention.forward self training keep x qkv mask = Raise ValueError)
    /\ (length (shape x) = 3%nat ->
        last (shape x) 0 <> Torch.in_features (Attention.c_attn self) ->
        Attention.forward self training keep x [] mask = Raise RuntimeError).
Proof.
  intros self training keep x qkv mask. destruct x as [sx gx].
  unfold Attention.forward, Torch.size3. cbn [shape].
  split; [| split].
  - intros Hlen. destruct sx as [| B [| S_ [| E [| ? ?]]]]; try reflexivity.
    cbn in Hlen. congruence.
  - intros Hlen Hne Hq.
    destruct sx as [| B [| S_ [| E [| ? ?]]]]; try discriminate.
    cbn [bind].
    destruct qkv as [| q [| k [| v [| ? ?]]]]; try reflexivity; try congruence.
    cbn in Hq. congruence.
  - intros Hlen Hlast.
    destruct sx as [| B [| S_ [| E [| ? ?]]]]; try discriminate.
    cbn [bind last] in *. unfold Torch.Linear_forward. cbn [shape rev app].
    apply Z.eqb_neq in Hlast. rewrite Hlast. reflexivity.
Qed.

Lemma forward_refuses_malformed_input_witness :
  Attention.forward Example.layer false (fun _ => true) Example.x1
                    [Example.x1; Example.x2] None
  = Raise ValueError.
Proof.
  apply (proj1 (proj2 (forward_refuses_malformed_input Example.layer false
                         (fun _ => true) Example.x1 [Example.x1; Example.x2] None)));
    [reflexivity | discriminate | cbn; lia].
Defined.

(** ** Heads *)

Section HeadsExtras.
Import Torch Heads.

(** [forward], written with [split_heads] and [merge_heads]. *)
Lemma forward_by_heads (self : Attention.MultiHeadAttention) (training : bool)
      (keep : list Z -> bool) (x q k v : Tensor R) :
  Attention.forward self training keep x [q; k; v] None
  = ('(B, S_, E) <- size3 x ;;
     q <- split_heads q B S_ (Attention.n_head self) E ;;
     k <- split_heads k B S_ (Attention.n_head self) E ;;
     v <- split_heads v B S_ (Attention.n_head self) E ;;
     y <- ScaledDP.forward (Attention.attn self) training keep q k v None ;;
     y <- merge_heads y B S_ E ;;
     Linear_forward (Attention.c_proj self) y)%py.
Proof.
  unfold Attention.forward, split_heads, merge_heads.
  destruct (size3 x) as [[[B S_] E] | ?]; cbn [bind unpack3]; [| reflexivity].
  destruct (py_floordiv E (Attention.n_head self)) as [D | ?]; cbn [bind];
    [| reflexivity].
  destruct (view q _) as [q1 | ?]; cbn [bind]; [| reflexivity].
  destruct (transpose q1 1 2) as [q2 | ?]; cbn [bind]; [| reflexivity].
  destruct (view k _) as [k1 | ?]; cbn [bind]; [| reflexivity].
  destruct (transpose k1 1 2) as [k2 | ?]; cbn [bind]; [| reflexivity].
  destruct (view v _) as [v1 | ?]; cbn [bind]; [| reflexivity].
  destruct (transpose v1 1 2) as [v2 | ?]; cbn [bind]; [| reflexivity].
  destruct (ScaledDP.forward _ _ _ _ _ _ _) as [y | ?]; cbn [bind]; [| reflexivity].
  destruct (transpose y 1 2) as [y1 | ?]; cbn [bind]; [| reflexivity].
  destruct (view (contiguous y1) _) as [y2 | ?]; cbn [bind]; [| reflexivity].
  destruct (Linear_forward _ y2); reflexivity.
Qed.

End HeadsExtras.

(** X6.  Splitting into heads and merging are inverse to each other.  For
    a tensor of shape (B, S, E) and a head count H > 0 that divides E,
    [view(B, S, H, E // H).transpose(1, 2)] returns a tensor of shape
    (B, H, S, E // H) that holds feature [h * (E // H) + d] of position
    [s] as coordinate [d] of head [h] at [s]; and
    [transpose(1, 2).contiguous().view(B, S, E)] of that tensor has the
    shape and the elements of the original. *)
Theorem merge_heads_inverts_split_heads :
  forall (A : Type) (t : Tensor A) (B S_ H E : Z),
    shape t = [B; S_; E] -> 0 <= B -> 0 <= S_ -> 0 < H -> 0 < E -> E mod H = 0 ->
    exists u t',
      Heads.split_heads t B S_ H E = Ok u
      /\ shape u = [B; H; S_; E / H]
      /\ (forall b h s d, 0 <= b < B -> 0 <= h < H -> 0 <= s < S_ -> 0 <= d < E / H ->
            get u [b; h; s; d] = get t [b; s; h * (E / H) + d])
      /\ Heads.merge_heads u B S_ E = Ok t'
      /\ shape t' = shape t
      /\ (forall b s e, 0 <= b < B -> 0 <= s < S_ -> 0 <= e < E ->
            get t' [b; s; e] = get t [b; s; e]).
Proof.
  intros A t B S_ H E Ht HB HS HH HE Hmod.
  assert (HHD : E = H * (E / H)) by (apply Z.div_exact; lia).
  assert (HD : 0 < E / H) by nia.
  destruct t as [st gt]. cbn [shape get] in *. subst st.
  unfold Heads.split_heads, Heads.merge_heads, py_floordiv.
  replace (H =? 0) with false by (symmetry; apply Z.eqb_neq; lia).
  cbn [bind].
  set (D := E / H) in *. clearbody D.
  assert (Hnum : numel [B; S_; H; D] = numel [B; S_; E]).
  { cbn [numel fold_right]. rewrite HHD. ring. }
  rewrite view_exact
    by (cbn [shape]; first [exact Hnum | repeat constructor; lia]).
  cbn [bind shape]. rewrite transpose_heads.
  eexists. eexists. split; [reflexivity |]. cbn [shape get].
  split; [reflexivity |]. split.
  - intros b h s d Hb Hh Hs Hd.
    cbn [Torch.swap_nth length seq map nth Nat.eqb].
    rewrite (unravel_heads B S_ H D E) by (auto; lia). reflexivity.
  - rewrite transpose_heads. cbn [bind]. unfold Torch.contiguous.
    rewrite view_exact
      by (cbn [shape]; first [symmetry; exact Hnum | repeat constructor; lia]).
    split; [reflexivity |]. cbn [shape get]. split; [reflexivity |].
    intros b s e Hb Hs He.
    rewrite (unravel_merge B S_ H D E) by (auto; lia).
    cbn [Torch.swap_nth length seq map nth Nat.eqb].
    destruct (head_of_feature H D e HD) as [Hh Hd]; [rewrite <- HHD; exact He |].
    rewrite (unravel_heads B S_ H D E) by (auto; lia).
    replace (e / D * D + e mod D) with e; [reflexivity |].
    rewrite Z.mul_comm. apply Z.div_mod. lia.
Qed.

Lemma merge_heads_inverts_split_heads_witness :
  exists u t',
    Heads.split_heads Example.x2 1 2 2 4 = Ok u
    /\ shape u = [1; 2; 2; 4 / 2]
    /\ (forall b h s d, 0 <= b < 1 -> 0 <= h < 2 -> 0 <= s < 2 -> 0 <= d < 4 / 2 ->
          get u [b; h; s; d] = get Example.x2 [b; s; h * (4 / 2) + d])
    /\ Heads.merge_heads u 1 2 4 = Ok t'
    /\ shape t' = shape Example.x2
    /\ (forall b s e, 0 <= b < 1 -> 0 <= s < 2 -> 0 <= e < 4 ->
          get t' [b; s; e] = get Example.x2 [b; s; e]).
Proof.
  apply (merge_heads_inverts_split_heads R Example.x2 1 2 2 4);
    [reflexivity | lia | lia | lia | lia | reflexivity].
Defined.

(** ** Self-attention, one batch element at a time *)

Section BatchExtras.
Import Torch Attention.
Variable self : MultiHeadAttention.
Hypothesis Hwf : well_formed self.
Variables (training : bool) (keep : list Z -> bool).

Lemma mha_value_batch (gx gx' : list Z -> R) (S_ : Z) (m : option (Tensor bool))
      (b i o : Z) :
  0 <= i < S_ ->
  (forall s c, 0 <= s < S_ -> 0 <= c < d_model self -> gx [b; s; c] = gx' [b; s; c]) ->
  mha_value self training keep gx S_ m b i o
  = mha_value self training keep gx' S_ m b i o.
Proof.
  intros Hi Hagree.
  assert (Hq : forall part s e, 0 <= s < S_ ->
             qkv_at self gx part b s e = qkv_at self gx' part b s e).
  { intros part s e Hs. apply (qkv_at_local self Hwf).
    intros c Hc. apply Hagree; assumption. }
  assert (Hexp : forall h j, 0 <= j < S_ ->
             exp_weight self gx m b h i j = exp_weight self gx' m b h i j).
  { intros h j Hj. unfold exp_weight, score_at.
    destruct (ScaledDP.permits m [b; h; i; j]); [| reflexivity].
    do 2 f_equal. apply sumR_ext. intros c _.
    rewrite (Hq 0 i), (Hq 1 j) by assumption. reflexivity. }
  assert (Hw : forall h j, 0 <= j < S_ ->
             attn_weight self training keep gx S_ m b h i j
             = attn_weight self training keep gx' S_ m b h i j).
  { intros h j Hj. unfold attn_weight. rewrite Hexp by exact Hj.
    rewrite (sumR_ext S_ (fun j' => exp_weight self gx m b h i j')
                         (fun j' => exp_weight self gx' m b h i j'))
      by (intros j' Hj'; apply Hexp; exact Hj').
    reflexivity. }
  unfold mha_value, linear_at. f_equal. apply sumR_ext. intros e _. f_equal.
  unfold head_out. apply sumR_ext. intros j Hj.
  rewrite Hw, (Hq 2 j) by exact Hj. reflexivity.
Qed.

End BatchExtras.

(** X7.  The elements of a batch do not influence each other: with the
    attention primitive as the spec has it, two self-attention calls on
    batches that agree on element [b] return the same rows for [b],
    whatever the other elements hold (same mask, same dropout draw). *)
Theorem forward_self_treats_batch_elements_apart :
  forall (self : Attention.MultiHeadAttention) (training : bool)
         (keep : list Z -> bool) (x x' : Tensor R) (mask : option (Tensor bool))
         (B S_ b : Z),
    Attention.well_formed self ->
    shape x = [B; S_; Attention.d_model self] ->
    shape x' = [B; S_; Attention.d_model self] ->
    0 <= b < B -> 0 <= S_ ->
    Attention.mask_fits B S_ mask = true ->
    (forall s c, 0 <= s < S_ -> 0 <= c < Attention.d_model self ->
                 get x [b; s; c] = get x' [b; s; c]) ->
    exists y y',
      Attention.forward self training keep x [] mask = Ok y
      /\ Attention.forward self training keep x' [] mask = Ok y'
      /\ forall i o, 0 <= i < S_ -> get y [b; i; o] = get y' [b; i; o].
Proof.
  intros self training keep x x' mask B S_ b Hwf Hx Hx' Hb HS Hfits Hagree.
  destruct (forward_self_value self training keep x mask B S_ Hwf Hx)
    as (y & Hy & _ & Hval); [lia | exact HS | exact Hfits |].
  destruct (forward_self_value self training keep x' mask B S_ Hwf Hx')
    as (y' & Hy' & _ & Hval'); [lia | exact HS | exact Hfits |].
  exists y, y'. split; [exact Hy |]. split; [exact Hy' |].
  intros i o Hi. rewrite Hval, Hval' by assumption.
  apply mha_value_batch; assumption.
Qed.

Lemma forward_self_treats_batch_elements_apart_witness :
  exists y y',
    Attention.forward Example.layer true (fun _ => true) Built.batch_a [] None = Ok y
    /\ Attention.forward Example.layer true (fun _ => true) Built.batch_b [] None = Ok y'
    /\ forall i o, 0 <= i < 2 -> get y [0; i; o] = get y' [0; i; o].
Proof.
  apply (forward_self_treats_batch_elements_apart Example.layer true (fun _ => true)
           Built.batch_a Built.batch_b None 2 2 0).
  - unfold Attention.well_formed. cbn. repeat split; lia.
  - reflexivity.
  - reflexivity.
  - lia.
  - lia.
  - reflexivity.
  - intros s c _ _. reflexivity.
Defined.

(** ** transformer/common/attention.py *)

Section CommonExtras.
Import Torch CommonAttention.
Variable init : nat -> list Z -> R.
Variables (d h : Z) (p : R).
Variable log : list TensorOp.

Lemma common_init_ok (m : MultiHeadAttention) (log' : list TensorOp) :
  __init__ init d h p log = (Ok m, log') ->
  h <> 0 /\ d mod h = 0 /\ 0 <= d
  /\ n_head m = h /\ d_model m = d /\ dropout m = p
  /\ in_features (c_attn m) = d /\ out_features (c_attn m) = 3 * d
  /\ in_features (c_proj m) = d /\ out_features (c_proj m) = d.
Proof.
  rewrite common_init_guard.
  destruct (Z.eqb_spec h 0) as [? | Hh]; [discriminate |].
  destruct (Z.eqb_spec (d mod h) 0) as [Hm | ?]; [| discriminate].
  unfold nn_Linear, nn_Dropout, se_bind, se_ret, se_lift, empty. cbn [existsb orb].
  destruct (3 * d <? 0) eqn:H3; cbn [orb]; [discriminate |].
  destruct (d <? 0) eqn:Hd; cbn [orb]; [discriminate |].
  destruct (Rlt_dec p 0); [discriminate |].
  destruct (Rlt_dec 1 p); [discriminate |].
  intros Heq. inversion Heq; subst; cbn.
  apply Z.ltb_ge in Hd. repeat split; auto.
Qed.

End CommonExtras.

Lemma built_common_layer :
  CommonAttention.__init__ (fun _ _ => 0%R) 4 2 (1 / 2)%R []
  = (Ok BuiltCommon.layer,
     [Torch.Alloc [12; 4]; Torch.Alloc [12]; Torch.Alloc [4; 4]; Torch.Alloc [4]]).
Proof.
  rewrite common_init_guard. cbn [Z.eqb Z.modulo Z.div_eucl Z.pos_div_eucl].
  unfold se_bind, CommonAttention.nn_Dropout, se_lift, se_ret.
  rewrite nn_Linear_ok by lia. cbv iota beta.
  rewrite nn_Linear_ok by lia. cbv iota beta.
  destruct (Rlt_dec (1 / 2) 0) as [? | _]; [lra |].
  destruct (Rlt_dec 1 (1 / 2)) as [? | _]; [lra |].
  reflexivity.
Qed.

(** X8.  [forward] of transformer/common/attention.py hands the attention
    function three tensors of shape (B, n_head, S, d_model // n_head), the
    layer's dropout rate and its [mask] argument as [is_causal]; what the
    function raises on them, [forward] raises; and if it returns a tensor
    of that shape, [forward] returns a tensor of the shape of [x]. *)
Theorem common_forward_follows_sdpa :
  forall (sdpa : Tensor R -> Tensor R -> Tensor R -> R -> option bool
                 -> result (Tensor R))
         (init : nat -> list Z -> R) (d h : Z) (p : R)
         (log log' : list Torch.TensorOp) (self : CommonAttention.MultiHeadAttention)
         (training : bool) (keep : list Z -> bool) (x : Tensor R)
         (mask : option bool) (B S_ : Z),
    CommonAttention.__init__ init d h p log = (Ok self, log') ->
    0 < d -> 0 < h -> shape x = [B; S_; d] -> 0 <= B -> 0 <= S_ ->
    exists q k v,
      shape q = [B; h; S_; d / h] /\ shape k = [B; h; S_; d / h]
      /\ shape v = [B; h; S_; d / h]
      /\ match sdpa q k v p mask with
         | Raise e =>
             CommonAttention.forward sdpa self training keep x mask = Raise e
         | Ok a =>
             shape a = [B; h; S_; d / h] ->
             exists y,
               CommonAttention.forward sdpa self training keep x mask = Ok y
               /\ shape y = shape x
         end.
Proof.
  intros sdpa init d h p log log' self training keep x mask B S_ Hinit Hd Hh Hx HB HS.
  destruct (common_init_ok init d h p log self log' Hinit)
    as (_ & Hmod & _ & Hn & Hdm & Hp & Hai & Hao & Hpi & Hpo).
  assert (HHD : d = h * (d / h)) by (apply Z.div_exact; lia).
  assert (HD : 0 < d / h) by nia.
  destruct x as [sx gx]. cbn [shape] in Hx. subst sx.
  unfold CommonAttention.forward.
  change (Torch.size3 (mkTensor [B; S_; d] gx)) with (Ok (B, S_, d)).
  cbn [bind].
  rewrite Linear_forward_3d by (symmetry; exact Hai). cbn [bind].
  rewrite Hao, Hdm, Hn, Hp, split_thirds by exact Hd. cbn [bind Torch.unpack3].
  unfold py_floordiv.
  replace (h =? 0) with false by (symmetry; apply Z.eqb_neq; lia).
  cbn [bind].
  set (D := d / h) in *. clearbody D.
  assert (Hsz : Forall (fun n => 0 <= n) [B; S_; h; D]).
  { repeat constructor; lia. }
  assert (Hnum : numel [B; S_; h; D] = numel [B; S_; d]).
  { cbn [numel fold_right]. rewrite HHD. ring. }
  rewrite !view_exact by (cbn [shape]; assumption). cbn [bind shape].
  rewrite !transpose_heads. cbn [bind].
  match goal with
  | |- context [sdpa ?q ?k ?v p mask] => exists q, k, v
  end.
  split; [reflexivity |]. split; [reflexivity |]. split; [reflexivity |].
  match goal with
  | |- context [sdpa ?q ?k ?v p mask] => destruct (sdpa q k v p mask) as [a | e]
  end; cbn [bind]; [| reflexivity].
  intros Ha. destruct a as [sa ga]. cbn [shape] in Ha. subst sa.
  rewrite transpose_heads. cbn [bind]. unfold Torch.contiguous.
  rewrite view_exact;
    [| repeat constructor; lia | cbn [shape]; symmetry; exact Hnum].
  cbn [bind shape].
  rewrite Linear_forward_3d by (symmetry; exact Hpi).
  eexists. split; [reflexivity |].
  unfold Torch.dropout. destruct training; cbn [shape]; rewrite Hpo; reflexivity.
Qed.

Lemma common_forward_follows_sdpa_witness :
  exists q k v,
    shape q = [1; 2; 2; 4 / 2] /\ shape k = [1; 2; 2; 4 / 2]
    /\ shape v = [1; 2; 2; 4 / 2]
    /\ match Example.sdpa_refusing q k v (1 / 2)%R None with
       | Raise e =>
           CommonAttention.forward Example.sdpa_refusing BuiltCommon.layer true
                                   (fun _ => true) Example.x1 None = Raise e
       | Ok a =>
           shape a = [1; 2; 2; 4 / 2] ->
           exists y,
             CommonAttention.forward Example.sdpa_refusing BuiltCommon.layer true
                                     (fun _ => true) Example.x1 None = Ok y
             /\ shape y = shape Example.x1
       end.
Proof.
  apply (common_forward_follows_sdpa Example.sdpa_refusing (fun _ _ => 0%R) 4 2
           (1 / 2)%R []
           [Torch.Alloc [12; 4]; Torch.Alloc [12]; Torch.Alloc [4; 4]; Torch.Alloc [4]]
           BuiltCommon.layer true (fun _ => true) Example.x1 None 1 2).
  - exact built_common_layer.
  - lia.
  - lia.
  - reflexivity.
  - lia.
  - lia.
Defined.

(** ** Transformer.generate: the mode of the model *)

Section ModeExtras.
Import Transformer.
Context {P : Type}.

Lemma train_fixes (mode : bool) (m : Module P) :
  all_flags mode m = true -> train mode m = m.
Proof.
  induction m as [t p cs IH] using Module_tree_ind. cbn [all_flags train].
  intros Hflags. apply andb_true_iff in Hflags. destruct Hflags as [Ht Hcs].
  apply Bool.eqb_prop in Ht. subst t. f_equal.
  rewrite forallb_forall in Hcs. rewrite Forall_forall in IH.
  rewrite <- (map_id cs) at 2. apply map_ext_in.
  intros c Hc. apply IH; [exact Hc | apply Hcs, Hc].
Qed.

Lemma model_train_fixes (mode : bool) (m : Model P) :
  model_all_flags mode m = true -> model_train mode m = m.
Proof.
  destruct m as [t c [et ep ee] [dt dp dd dg]].
  unfold model_all_flags, model_train. cbn.
  intros Hflags.
  repeat match type of Hflags with
         | (_ && _)%bool = true =>
             let H := fresh "H" in
             apply andb_true_iff in Hflags; destruct Hflags as [Hflags H]
         end.
  apply Bool.eqb_prop in Hflags.
  repeat match goal with
         | H : Bool.eqb _ _ = true |- _ => apply Bool.eqb_prop in H
         | H : all_flags _ _ = true |- _ => apply train_fixes in H; rewrite H; clear H
         end.
  subst. reflexivity.
Qed.

Lemma train_absorbs (a b : bool) (m : Module P) :
  train a (train b m) = train a m.
Proof.
  induction m as [t p cs IH] using Module_tree_ind. cbn [train].
  f_equal. rewrite map_map. apply map_ext_in. intros c Hc.
  rewrite Forall_forall in IH. apply IH, Hc.
Qed.

Lemma model_train_absorbs (a b : bool) (m : Model P) :
  model_train a (model_train b m) = model_train a m.
Proof.
  unfold model_train. cbn. rewrite !train_absorbs. reflexivity.
Qed.

End ModeExtras.

(** X9.  [generate] leaves the model object as it found it exactly when
    the model was in evaluation mode throughout, the Transformer, its two
    module dictionaries and every submodule: on any other model the
    switch to evaluation mode is a change that outlasts the call, whether
    it returns or raises. *)
Theorem generate_keeps_model_iff_eval :
  forall (P Rng : Type) (sub : Transformer.Submodules P Rng)
         (input : Transformer.LongTensor) (max_new_tokens s e : Z)
         (m : Transformer.Model P) (g : Rng),
    fst (snd (Transformer.generate sub input max_new_tokens s e (m, g))) = m
    <-> Transformer.model_all_flags false m = true.
Proof.
  intros P Rng sub input n s e m g. rewrite generate_model. cbn [fst]. split.
  - intros Heq. rewrite <- Heq. apply model_train_all_flags.
  - apply model_train_fixes.
Qed.

(** X10.  What [generate] does is the same whether the model was put in
    training or in evaluation mode before the call: the ids returned or
    the exception raised, the state of the random source and the model
    afterwards do not depend on a preceding [model.train(mode)]. *)
Theorem generate_ignores_previous_mode :
  forall (P Rng : Type) (sub : Transformer.Submodules P Rng)
         (input : Transformer.LongTensor) (max_new_tokens s e : Z)
         (mode : bool) (m : Transformer.Model P) (g : Rng),
    Transformer.generate sub input max_new_tokens s e
                         (Transformer.model_train mode m, g)
    = Transformer.generate sub input max_new_tokens s e (m, g).
Proof.
  intros P Rng sub input n s e mode m g.
  rewrite !generate_eq. cbn [fst snd]. rewrite model_train_absorbs. reflexivity.
Qed.

(** ** Transformer.generate: the bound on new tokens *)

Section BoundExtras.
Import Transformer.
Context {P Rng : Type}.
Variable sub : Submodules P Rng.

(** The loop returns the row it was given, grown by the sampled tokens. *)
Lemma generate_loop_row mem e n row st out st' :
  generate_loop sub mem e n [row] st = (Ok out, st') ->
  exists ts, out = [row ++ ts] /\ (length ts <= n)%nat.
Proof.
  intros Hloop.
  destruct (generate_loop_unroll sub mem e n [row] st) as [k [Hk [_ Hrun]]].
  destruct (iterate_step sub mem k [row] st) as [[[out' ts] | err] st''] eqn:Hit.
  - destruct Hrun as [Hloop' _]. rewrite Hloop in Hloop'.
    inversion Hloop'; subst out' st''.
    apply iterate_step_appends in Hit. destruct Hit as [-> Hlen].
    exists ts. split; [reflexivity | lia].
  - rewrite Hloop in Hrun. discriminate.
Qed.

(** A run that ended on the end token is the run under every larger
    bound. *)
Lemma generate_loop_stable mem e : forall n row st row' st',
  generate_loop sub mem e n [row] st = (Ok [row'], st') ->
  (length row < length row')%nat -> last row' 0 = e ->
  forall k, generate_loop sub mem e (n + k) [row] st = (Ok [row'], st').
Proof.
  induction n as [| n IH]; intros row st row' st' Hloop Hlen Hlast k.
  - cbn in Hloop. unfold se_ret in Hloop. inversion Hloop; subst. lia.
  - cbn [plus]. rewrite generate_loop_S in *.
    destruct (generate_step sub mem [row] st) as [[[toks' t] | err] st1] eqn:Hstep;
      [| discriminate].
    apply generate_step_appends in Hstep. subst toks'.
    destruct (Z.eqb_spec t e) as [Hte | Hte]; [exact Hloop |].
    destruct (generate_loop_row _ _ _ _ _ _ _ Hloop) as [ts [Hrow _]].
    inversion Hrow; subst row'. clear Hrow.
    destruct ts as [| t0 ts].
    + rewrite app_nil_r, last_last in Hlast. contradiction.
    + apply IH; [exact Hloop | | exact Hlast].
      rewrite !length_app. cbn [length]. lia.
Qed.

(** Under a smaller bound the loop returns the beginning of what it
    returns under a larger one. *)
Lemma generate_loop_truncates mem e : forall n' row st row' st',
  generate_loop sub mem e n' [row] st = (Ok [row'], st') ->
  forall n, (n <= n')%nat ->
    exists st'', generate_loop sub mem e n [row] st
                 = (Ok [firstn (length row + n) row'], st'').
Proof.
  induction n' as [| n' IH]; intros row st row' st' Hloop n Hn.
  - assert (n = 0%nat) by lia. subst n.
    cbn in Hloop. unfold se_ret in Hloop. inversion Hloop; subst.
    exists st'. cbn [generate_loop]. unfold se_ret.
    rewrite Nat.add_0_r, firstn_all. reflexivity.
  - destruct n as [| n].
    + destruct (generate_loop_row _ _ _ _ _ _ _ Hloop) as [ts [Hrow _]].
      inversion Hrow; subst row'.
      exists st. cbn [generate_loop]. unfold se_ret.
      rewrite Nat.add_0_r, firstn_app, Nat.sub_diag, firstn_all. cbn [firstn].
      rewrite app_nil_r. reflexivity.
    + rewrite generate_loop_S in *.
      destruct (generate_step sub mem [row] st) as [[[toks' t] | err] st1] eqn:Hstep;
        [| discriminate].
      apply generate_step_appends in Hstep. subst toks'.
      destruct (Z.eqb_spec t e) as [Hte | Hte].
      * inversion Hloop; subst. exists st'.
        rewrite firstn_all2; [reflexivity |]. rewrite length_app. cbn [length]. lia.
      * destruct (IH _ _ _ _ Hloop n) as [st'' Hrun]; [lia |].
        exists st''. rewrite Hrun. rewrite length_app. cbn [length].
        replace (length row + 1 + n)%nat with (length row + S n)%nat by lia.
        reflexivity.
Qed.

End BoundExtras.

(** X11.  Raising the bound does not change a generation that ended on
    the end token: if [generate] returns a row of at least two ids whose
    last is [end_token_idx], then from the same state it returns the same
    row, and ends in the same state, under every larger
    [max_new_tokens]. *)
Theorem generate_complete_under_larger_bound :
  forall (P Rng : Type) (sub : Transformer.Submodules P Rng)
         (input : Transformer.LongTensor) (n n' s e : Z)
         (st st' : Transformer.State P Rng) (row : list Z),
    Transformer.generate sub input n s e st = (Ok [row], st') ->
    (2 <= length row)%nat -> last row 0 = e -> n <= n' ->
    Transformer.generate sub input n' s e st = (Ok [row], st').
Proof.
  intros P Rng sub input n n' s e st st' row Hgen Hlen Hlast Hle.
  rewrite generate_eq in *.
  destruct (Transformer._encode sub input None _) as [[mem | err] st2];
    [| discriminate].
  replace (Z.to_nat n') with (Z.to_nat n + (Z.to_nat n' - Z.to_nat n))%nat by lia.
  apply generate_loop_stable; [exact Hgen | cbn [length]; lia | exact Hlast].
Qed.

Lemma generate_complete_under_larger_bound_witness :
  Transformer.generate Toy.sub [[1; 7; 9; 2]] 50 1 2 (Toy.model, [0; 1; 2; 0; 0])
  = (Ok [[1; 0; 1; 2]], (Transformer.model_train false Toy.model, [0; 0])).
Proof.
  apply (generate_complete_under_larger_bound unit (list Z) Toy.sub [[1; 7; 9; 2]]
           3 50 1 2 (Toy.model, [0; 1; 2; 0; 0])).
  - vm_compute. reflexivity.
  - cbn. lia.
  - reflexivity.
  - lia.
Defined.

(** X12.  Lowering the bound only cuts the generation short: if
    [generate] returns [out] under the bound [n'], then from the same
    state and under a bound [0 <= n <= n'] it returns the first [n + 1]
    ids of the row of [out]. *)
Theorem generate_under_smaller_bound_is_prefix :
  forall (P Rng : Type) (sub : Transformer.Submodules P Rng)
         (input : Transformer.LongTensor) (n n' s e : Z)
         (st st' : Transformer.State P Rng) (out : Transformer.LongTensor),
    Transformer.generate sub input n' s e st = (Ok out, st') ->
    0 <= n <= n' ->
    exists st'',
      Transformer.generate sub input n s e st
      = (Ok (map (firstn (Z.to_nat n + 1)) out), st'').
Proof.
  intros P Rng sub input n n' s e st st' out Hgen Hle.
  rewrite generate_eq in *.
  destruct (Transformer._encode sub input None _) as [[mem | err] st2];
    [| discriminate].
  destruct (generate_loop_row _ _ _ _ _ _ _ _ Hgen) as [ts [-> _]].
  destruct (generate_loop_truncates sub mem e _ _ _ _ _ Hgen (Z.to_nat n))
    as [st'' Hrun]; [lia |].
  exists st''. rewrite Hrun. cbn [map length].
  replace (Z.to_nat n + 1)%nat with (1 + Z.to_nat n)%nat by lia. reflexivity.
Qed.

Lemma generate_under_smaller_bound_is_prefix_witness :
  exists st'',
    Transformer.generate Toy.sub [[1; 7; 9; 2]] 2 1 2 (Toy.model, [0; 1; 2; 0; 0])
    = (Ok (map (firstn (Z.to_nat 2 + 1)) [[1; 0; 1; 2]]), st'').
Proof.
  apply (generate_under_smaller_bound_is_prefix unit (list Z) Toy.sub [[1; 7; 9; 2]]
           2 10 1 2 (Toy.model, [0; 1; 2; 0; 0])
           (Transformer.model_train false Toy.model, [0; 0])).
  - vm_compute. reflexivity.
  - lia.
Defined.

(** ** Transformer.generate and Transformer.forward *)

(** X13.  When encoding the source is repeatable on the model at hand
    (it returns the memory [enc_mem] and leaves the random source alone,
    as in evaluation mode), a pass of the loop of [generate] over the
    held memory is a pass that calls [self.forward(input, tokens, None,
    None)] and samples from its logits: reusing the memory of the one
    [_encode] call changes nothing. *)
Theorem generate_step_scores_like_forward :
  forall (P Rng : Type) (sub : Transformer.Submodules P Rng)
         (input toks : Transformer.LongTensor) (enc_mem : Tensor R)
         (m : Transformer.Model P) (g : Rng),
    (forall g0, Transformer._encode sub input None (m, g0) = (Ok enc_mem, (m, g0))) ->
    Transformer.generate_step sub enc_mem toks (m, g)
    = Stepwise.step_by_forward sub input toks (m, g).
Proof.
  intros P Rng sub input toks mem m g Hpure.
  unfold Stepwise.step_by_forward, Transformer.forward, Transformer.generate_step,
    Stepwise.sample_next.
  unfold se_bind. rewrite Hpure.
  destruct (Transformer._decode sub mem None toks None (m, g)) as [[dec | ?] st1];
    [| reflexivity].
  destruct (Transformer.gen sub dec st1) as [[logits | ?] st2]; reflexivity.
Qed.

Lemma generate_step_scores_like_forward_witness :
  Transformer.generate_step Toy.sub (Toy.zeros [1; 4; 1]) [[1; 0]]
                            (Toy.model, [2; 0])
  = Stepwise.step_by_forward Toy.sub [[1; 7; 9; 2]] [[1; 0]] (Toy.model, [2; 0]).
Proof.
  apply (generate_step_scores_like_forward unit (list Z) Toy.sub [[1; 7; 9; 2]]
           [[1; 0]] (Toy.zeros [1; 4; 1]) Toy.model [2; 0]).
  intros g0. reflexivity.
Defined.

(** ** How often generate runs the encoder and the decoder *)

Section CountExtras.
Import Transformer Counted.
Context {P Rng : Type}.
Variable sub : Submodules P Rng.

Lemma tracks_ret {A : Type} (a : A) :
  tracks (se_ret a : SE (State P (Rng * Calls)) A) (se_ret a) 0 0.
Proof. intros st. cbn. repeat split; lia. Qed.

Lemma tracks_lift {A : Type} (r : result A) :
  tracks (se_lift r : SE (State P (Rng * Calls)) A) (se_lift r) 0 0.
Proof. intros st. cbn. repeat split; lia. Qed.

Lemma tracks_bind {A B : Type} (c1 : SE (State P (Rng * Calls)) A)
      (c2 : SE (State P Rng) A) (f1 : A -> SE (State P (Rng * Calls)) B)
      (f2 : A -> SE (State P Rng) B) (enc dec enc' dec' : nat) :
  tracks c1 c2 enc dec -> (forall a, tracks (f1 a) (f2 a) enc' dec') ->
  tracks (se_bind c1 f1) (se_bind c2 f2) (enc + enc') (dec + dec').
Proof.
  intros Hc Hf st. destruct (Hc st) as (H1 & H2 & H3). unfold se_bind.
  destruct (c1 st) as [[a | e] st1]; destruct (c2 (erase st)) as [[a' | e'] st2];
    cbn [fst snd] in *; try discriminate.
  - inversion H1; subst a'. subst st2.
    destruct (Hf a st1) as (F1 & F2 & F3).
    split; [exact F1 |]. split; [exact F2 |].
    intros b Hb. destruct (H3 a eq_refl) as [He Hd].
    destruct (F3 b Hb) as [He' Hd']. rewrite He', Hd', He, Hd. lia.
  - inversion H1; subst e'.
    split; [reflexivity |]. split; [exact H2 |]. intros a Ha. discriminate.
Qed.

Lemma tracks_call {A : Type} (sel : Model P -> Module P) (tick : Calls -> Calls)
      (f : Module P -> SE Rng A) (enc dec : nat) :
  (forall c, encoder_calls (tick c) = (encoder_calls c + enc)%nat
             /\ decoder_calls (tick c) = (decoder_calls c + dec)%nat) ->
  tracks (call sel (fun md => counted tick (f md))) (call sel f) enc dec.
Proof.
  intros Htick st. unfold call, counted, erase, calls. cbn [fst snd].
  destruct (f (sel (fst st)) (fst (snd st))) as [r g]. cbn [fst snd].
  split; [reflexivity |]. split; [reflexivity |]. intros _ _. apply Htick.
Qed.

Lemma draw_rows_counting (prob : Tensor R) (n : Z) (rows : list nat) :
  forall gc,
    draw_rows (counting sub) prob n rows gc
    = (fst (draw_rows sub prob n rows (fst gc)),
       (snd (draw_rows sub prob n rows (fst gc)), snd gc)).
Proof.
  induction rows as [| i rows IH]; intros [g c]; cbn [draw_rows fst snd].
  - reflexivity.
  - unfold se_bind. cbn [draw counting]. unfold counted at 1. cbn [fst snd].
    destruct (draw sub _ n g) as [[t | e] g1]; [| reflexivity].
    rewrite IH. cbn [fst snd].
    destruct (draw_rows sub prob n rows g1) as [[ts | e] g2]; reflexivity.
Qed.

Lemma tracks_multinomial (prob : Tensor R) :
  tracks (with_rng (multinomial (counting sub) prob) : SE (State P (Rng * Calls)) _)
         (with_rng (multinomial sub prob)) 0 0.
Proof.
  intros st. unfold with_rng, multinomial, erase, calls. cbn [fst snd].
  destruct (shape prob) as [| rows [| n [| ? ?]]];
    try (cbn; repeat split; lia).
  rewrite draw_rows_counting.
  destruct (draw_rows sub prob n (seq 0 (Z.to_nat rows)) (fst (snd st))) as [r g].
  cbn [fst snd]. repeat split; lia.
Qed.

Lemma quiet_tick (c : Calls) :
  encoder_calls c = (encoder_calls c + 0)%nat
  /\ decoder_calls c = (decoder_calls c + 0)%nat.
Proof. split; lia. Qed.

Lemma encoder_tick (c : Calls) :
  encoder_calls (tick_encoder c) = (encoder_calls c + 1)%nat
  /\ decoder_calls (tick_encoder c) = (decoder_calls c + 0)%nat.
Proof. cbn. split; lia. Qed.

Lemma decoder_tick (c : Calls) :
  encoder_calls (tick_decoder c) = (encoder_calls c + 0)%nat
  /\ decoder_calls (tick_decoder c) = (decoder_calls c + 1)%nat.
Proof. cbn. split; lia. Qed.

Lemma tracks_encode src mask :
  tracks (_encode (counting sub) src mask) (_encode sub src mask) 1 0.
Proof.
  unfold _encode.
  apply (tracks_bind _ _ _ _ 0 0 1 0).
  - apply (tracks_call _ (fun c => c) (fun md => p_emb_forward sub md src) 0 0).
    exact quiet_tick.
  - intros we.
    apply (tracks_call _ tick_encoder (fun md => Encoder_forward sub md we mask) 1 0).
    exact encoder_tick.
Qed.

Lemma tracks_step mem toks :
  tracks (generate_step (counting sub) mem toks) (generate_step sub mem toks) 0 1.
Proof.
  unfold generate_step, _decode, gen.
  apply (tracks_bind _ _ _ _ 0 1 0 0).
  - apply (tracks_bind _ _ _ _ 0 0 0 1).
    + apply (tracks_call _ (fun c => c) (fun md => p_emb_forward sub md toks) 0 0).
      exact quiet_tick.
    + intros we.
      apply (tracks_call _ tick_decoder
               (fun md => Decoder_forward sub md we mem None None) 0 1).
      exact decoder_tick.
  - intros dec_out. apply (tracks_bind _ _ _ _ 0 0 0 0).
    + apply (tracks_call _ (fun c => c) (fun md => Generator_forward sub md dec_out) 0 0).
      exact quiet_tick.
    + intros logits. apply (tracks_bind _ _ _ _ 0 0 0 0); [apply tracks_lift |].
      intros last_logits.
      apply (tracks_bind _ _ _ _ 0 0 0 0); [apply tracks_multinomial |].
      intros sampled.
      apply (tracks_bind _ _ _ _ 0 0 0 0); [apply tracks_lift |].
      intros toks'.
      apply (tracks_bind _ _ _ _ 0 0 0 0); [apply tracks_lift |].
      intros t. apply tracks_ret.
Qed.

Lemma tracks_iterate mem k : forall toks,
  tracks (iterate_step (counting sub) mem k toks) (iterate_step sub mem k toks) 0 k.
Proof.
  induction k as [| k IH]; intros toks; cbn [iterate_step].
  - apply tracks_ret.
  - apply (tracks_bind _ _ _ _ 0 1 0 k); [apply tracks_step |].
    intros [toks' t].
    replace k with (k + 0)%nat at 3 by lia.
    apply (tracks_bind _ _ _ _ 0 k 0 0); [apply IH |].
    intros [out ts]. apply tracks_ret.
Qed.

Lemma tracks_eval :
  tracks (eval : SE (State P (Rng * Calls)) unit) eval 0 0.
Proof.
  intros st. unfold eval, erase, calls. cbn [fst snd].
  split; [reflexivity |]. split; [reflexivity |]. intros _ _. split; lia.
Qed.

Lemma tracks_unrolled k input s :
  tracks (generate_unrolled (counting sub) k input s) (generate_unrolled sub k input s)
         1 k.
Proof.
  unfold generate_unrolled.
  apply (tracks_bind _ _ _ _ 0 0 1 k); [apply tracks_eval |]. intros _.
  replace k with (0 + k)%nat at 3 by lia.
  apply (tracks_bind _ _ _ _ 1 0 0 k); [apply tracks_encode |]. intros mem.
  apply tracks_iterate.
Qed.

Lemma loop_erasure mem e n : forall toks st,
  fst (generate_loop (counting sub) mem e n toks st)
  = fst (generate_loop sub mem e n toks (erase st))
  /\ erase (snd (generate_loop (counting sub) mem e n toks st))
     = snd (generate_loop sub mem e n toks (erase st)).
Proof.
  induction n as [| n IH]; intros toks st.
  - cbn. split; reflexivity.
  - rewrite !generate_loop_S.
    destruct (tracks_step mem toks st) as (H1 & H2 & _).
    destruct (generate_step (counting sub) mem toks st) as [[[toks1 t1] | e1] st1];
      destruct (generate_step sub mem toks (erase st)) as [[[toks2 t2] | e2] st2];
      cbn [fst snd] in *; try discriminate.
    + inversion H1; subst toks2 t2. subst st2.
      destruct (t1 =? e); [split; reflexivity | apply IH].
    + inversion H1; subst e2. subst st2. split; reflexivity.
Qed.

Lemma generate_erasure input n s e st :
  fst (generate (counting sub) input n s e st)
  = fst (generate sub input n s e (erase st)).
Proof.
  rewrite !generate_eq.
  destruct (tracks_encode input None (model_train false (fst st), snd st))
    as (H1 & H2 & _).
  change (erase (model_train false (fst st), snd st))
    with (model_train false (fst (erase st)), snd (erase st)) in *.
  destruct (_encode (counting sub) input None _) as [[mem1 | e1] st1];
    destruct (_encode sub input None _) as [[mem2 | e2] st2];
    cbn [fst snd] in *; try discriminate.
  - inversion H1; subst mem2. subst st2. apply loop_erasure.
  - inversion H1. reflexivity.
Qed.

End CountExtras.

(** X15.  A call of [generate] that returns has run the encoder exactly
    once and the decoder once for each id it appended to the start token,
    each time on the whole sequence so far; counting the calls changes
    nothing in what is returned. *)
Theorem generate_encodes_once_decodes_per_token :
  forall (P Rng : Type) (sub : Transformer.Submodules P Rng)
         (input : Transformer.LongTensor) (max_new_tokens s e : Z)
         (m : Transformer.Model P) (g : Rng) (c : Counted.Calls)
         (out : Transformer.LongTensor)
         (st' : Transformer.State P (Rng * Counted.Calls)),
    Transformer.generate (Counted.counting sub) input max_new_tokens s e (m, (g, c))
    = (Ok out, st') ->
    fst (Transformer.generate sub input max_new_tokens s e (m, g)) = Ok out
    /\ Counted.encoder_calls (Counted.calls st') = S (Counted.encoder_calls c)
    /\ exists row,
         out = [row]
         /\ (Counted.decoder_calls (Counted.calls st') + 1
             = Counted.decoder_calls c + length row)%nat.
Proof.
  intros P Rng sub input n s e m g c out st' Hgen. split.
  - change (m, g) with (Counted.erase (m, (g, c))).
    rewrite <- generate_erasure, Hgen. reflexivity.
  - destruct (generate_unroll (Counted.counting sub) input n s e (m, (g, c)))
      as [k [_ [_ Hrun]]].
    destruct (tracks_unrolled sub k input s (m, (g, c))) as (_ & _ & H3).
    destruct (Transformer.generate_unrolled (Counted.counting sub) k input s
                (m, (g, c))) as [[[out' ts] | err] st''].
    2:{ rewrite Hgen in Hrun. discriminate. }
    destruct Hrun as [Hgen' [Hout [Hlen _]]].
    rewrite Hgen in Hgen'. injection Hgen' as Ho Hst. subst out' st''.
    destruct (H3 (out, ts) eq_refl) as [Henc Hdec]. cbn [fst snd] in *.
    unfold Counted.calls at 2 in Henc. unfold Counted.calls at 2 in Hdec.
    cbn [fst snd] in *.
    split; [lia |]. exists (s :: ts). split; [exact Hout |]. cbn [length]. lia.
Qed.

Lemma generate_encodes_once_decodes_per_token_witness :
  fst (Transformer.generate Toy.sub [[1; 7; 9; 2]] 10 1 2 (Toy.model, [0; 1; 2; 0; 0]))
  = Ok [[1; 0; 1; 2]]
  /\ Counted.encoder_calls
       (Counted.calls (Transformer.model_train false Toy.model,
                       ([0; 0], Counted.mkCalls 1 3)))
     = S (Counted.encoder_calls (Counted.mkCalls 0 0))
  /\ exists row,
       [[1; 0; 1; 2]] = [row]
       /\ (Counted.decoder_calls
             (Counted.calls (Transformer.model_train false Toy.model,
                             ([0; 0], Counted.mkCalls 1 3))) + 1
           = Counted.decoder_calls (Counted.mkCalls 0 0) + length row)%nat.
Proof.
  apply (generate_encodes_once_decodes_per_token unit (list Z) Toy.sub [[1; 7; 9; 2]]
           10 1 2 Toy.model [0; 1; 2; 0; 0] (Counted.mkCalls 0 0)).
  vm_compute. reflexivity.
Defined.

(** ** Python dicts *)

Section DictExtras.
Import PyDict.
Context {K V : Type} (eqb : K -> K -> bool).
Hypothesis eqb_eq : forall a b, eqb a b = true <-> a = b.

Lemma eqb_refl_true (k : K) : eqb k k = true.
Proof. apply eqb_eq. reflexivity. Qed.

Lemma eqb_neq_false (a b : K) : a <> b -> eqb a b = false.
Proof.
  intros Hne. destruct (eqb a b) eqn:Hab; [| reflexivity].
  apply eqb_eq in Hab. contradiction.
Qed.

Lemma dict_get_set_same (d : @dict K V) (k : K) (v : V) :
  dict_get eqb (dict_set eqb d k v) k = Some v.
Proof.
  induction d as [| [k' v'] d IH]; cbn [dict_set dict_get].
  - rewrite eqb_refl_true. reflexivity.
  - destruct (eqb k' k) eqn:Hk; cbn [dict_get]; rewrite Hk; [reflexivity | exact IH].
Qed.

Lemma dict_get_set_other (d : @dict K V) (k k0 : K) (v : V) :
  k <> k0 -> dict_get eqb (dict_set eqb d k v) k0 = dict_get eqb d k0.
Proof.
  intros Hne. induction d as [| [k' v'] d IH]; cbn [dict_set dict_get].
  - rewrite (eqb_neq_false k k0 Hne). reflexivity.
  - destruct (eqb k' k) eqn:Hk; cbn [dict_get].
    + apply eqb_eq in Hk. subst k'. rewrite (eqb_neq_false k k0 Hne). reflexivity.
    + rewrite IH. reflexivity.
Qed.

Lemma of_pairs_snoc (pairs : list (K * V)) (k : K) (v : V) :
  of_pairs eqb (pairs ++ [(k, v)]) = dict_set eqb (of_pairs eqb pairs) k v.
Proof. unfold of_pairs. rewrite fold_left_app. reflexivity. Qed.

(** A pair whose key occurs once is found in the dict of the pairs. *)
Lemma of_pairs_complete (pairs : list (K * V)) (k : K) (v : V) :
  NoDup (map fst pairs) -> In (k, v) pairs ->
  dict_get eqb (of_pairs eqb pairs) k = Some v.
Proof.
  induction pairs as [| [k0 v0] pairs IH] using rev_ind; intros Hnd Hin;
    [contradiction |].
  rewrite of_pairs_snoc. rewrite map_app in Hnd. cbn [map fst] in Hnd.
  apply in_app_or in Hin. destruct Hin as [Hin | [Heq | []]].
  - assert (Hne : k0 <> k).
    { intros ->. apply NoDup_remove_2 in Hnd. rewrite app_nil_r in Hnd.
      apply Hnd. apply (in_map fst) in Hin. exact Hin. }
    rewrite dict_get_set_other by exact Hne.
    apply IH; [| exact Hin].
    apply NoDup_remove_1 in Hnd. rewrite app_nil_r in Hnd. exact Hnd.
  - inversion Heq; subst. apply dict_get_set_same.
Qed.

(** What is found in the dict of some pairs is one of the pairs. *)
Lemma of_pairs_sound (pairs : list (K * V)) (k : K) (v : V) :
  dict_get eqb (of_pairs eqb pairs) k = Some v -> In (k, v) pairs.
Proof.
  induction pairs as [| [k0 v0] pairs IH] using rev_ind; [discriminate |].
  rewrite of_pairs_snoc. intros Hget. apply in_or_app.
  destruct (eqb k0 k) eqn:Hk.
  - apply eqb_eq in Hk. subst k0. rewrite dict_get_set_same in Hget.
    inversion Hget; subst. right. left. reflexivity.
  - rewrite dict_get_set_other in Hget.
    + left. apply IH, Hget.
    + intros ->. rewrite eqb_refl_true in Hk. discriminate.
Qed.

Lemma dict_get_In (d : @dict K V) (k : K) (v : V) :
  dict_get eqb d k = Some v -> In (k, v) d.
Proof.
  induction d as [| [k' v'] d IH]; cbn [dict_get]; [discriminate |].
  destruct (eqb k' k) eqn:Hk.
  - apply eqb_eq in Hk. subst k'. intros Heq. inversion Heq; subst. left. reflexivity.
  - intros Hget. right. apply IH, Hget.
Qed.

End DictExtras.

Section InjectiveExtras.
Context {K V : Type}.

Lemma NoDup_values (d : list (K * V)) :
  NoDup (map fst d) ->
  (forall k1 k2 v, In (k1, v) d -> In (k2, v) d -> k1 = k2) ->
  NoDup (map snd d).
Proof.
  induction d as [| [k v] d IH]; intros Hkeys Hinj; cbn [map]; [constructor |].
  cbn [map fst] in Hkeys. inversion Hkeys as [| ? ? Hk Hkeys']; subst.
  constructor.
  - cbn [snd]. intros Hin. apply in_map_iff in Hin. destruct Hin as [[k' v'] [Hv Hin]].
    cbn [snd] in Hv. subst v'.
    assert (k = k') by (apply (Hinj k k' v); [left; reflexivity | right; exact Hin]).
    subst k'. apply Hk. apply (in_map fst) in Hin. exact Hin.
  - apply IH; [exact Hkeys' |].
    intros k1 k2 v0 H1 H2. apply (Hinj k1 k2 v0); right; assumption.
Qed.

End InjectiveExtras.

(** ** server.py *)

Section ServerExtras.
Import String PyDict Server.

(** X16.  [tgt_idx2token] undoes [tgt_token2idx] exactly when the mapping
    gives no two tokens the same id: for a mapping with distinct ids
    every item [(token, idx)] has [tgt_idx2token[idx] == token], and if
    that holds for every item then the ids are distinct. *)
Theorem idx2token_inverts_iff_ids_distinct :
  forall token2idx : @dict string Z,
    NoDup (map fst token2idx) ->
    ((forall token idx, In (token, idx) token2idx ->
                        index Z.eqb (invert token2idx) idx = Done token)
     <-> NoDup (map snd token2idx)).
Proof.
  intros d Hkeys. split.
  - intros Hround. apply NoDup_values; [exact Hkeys |].
    intros t1 t2 idx H1 H2.
    apply Hround in H1. apply Hround in H2. rewrite H1 in H2.
    inversion H2. reflexivity.
  - intros Hids token idx Hin. unfold index, invert.
    rewrite (of_pairs_complete Z.eqb Z.eqb_eq _ idx token); [reflexivity | |].
    + rewrite map_map. cbn [fst]. exact Hids.
    + apply in_map_iff. exists (token, idx). split; [reflexivity | exact Hin].
Qed.

Lemma idx2token_inverts_iff_ids_distinct_witness :
  (forall token idx, In (token, idx) ToyServer.tgt_token2idx ->
                     index Z.eqb (invert ToyServer.tgt_token2idx) idx = Done token)
  <-> NoDup (map snd ToyServer.tgt_token2idx).
Proof.
  apply (idx2token_inverts_iff_ids_distinct ToyServer.tgt_token2idx).
  cbn. repeat constructor; cbn; intuition discriminate.
Defined.

Lemma for_each_unk (src_token2idx : @dict string Z) (tokens : list string) :
  for_each (fun token =>
              and_then (index String.eqb src_token2idx "<unk>"%string)
                       (fun unk => Done (get_default String.eqb src_token2idx token unk)))
           tokens
  = match tokens with
    | [] => Done []
    | _ :: _ =>
        match dict_get String.eqb src_token2idx "<unk>"%string with
        | Some unk =>
            Done (map (fun token => get_default String.eqb src_token2idx token unk)
                      tokens)
        | None => Fail KeyError
        end
    end.
Proof.
  unfold index. destruct tokens as [| t0 tokens]; [reflexivity |].
  destruct (dict_get String.eqb src_token2idx "<unk>"%string) as [unk |]; [| reflexivity].
  generalize (t0 :: tokens). intros l. cbn [and_then].
  induction l as [| t l IH]; cbn [for_each map and_then]; [reflexivity |].
  rewrite IH. reflexivity.
Qed.

(** X17.  The ids sent to the model.  They exist exactly when the source
    mapping has [<sos>] and [<eos>] and, unless the query has no tokens,
    [<unk>]; anything else is a KeyError.  They are then one id per token
    between the id of [<sos>] and the id of [<eos>]: the id of the token
    if the mapping has it and the id of [<unk>] if not. *)
Theorem source_ids_frame_the_query :
  forall (src_token2idx : @dict string Z) (tokens : list string),
    ((exists ids, source_ids src_token2idx tokens = Done ids)
     <-> dict_get String.eqb src_token2idx "<sos>"%string <> None
         /\ dict_get String.eqb src_token2idx "<eos>"%string <> None
         /\ (tokens = [] \/ dict_get String.eqb src_token2idx "<unk>"%string <> None))
    /\ ((forall ids, source_ids src_token2idx tokens <> Done ids) ->
        source_ids src_token2idx tokens = Fail KeyError)
    /\ (forall ids sos eos,
          source_ids src_token2idx tokens = Done ids ->
          dict_get String.eqb src_token2idx "<sos>"%string = Some sos ->
          dict_get String.eqb src_token2idx "<eos>"%string = Some eos ->
          List.length ids = (List.length tokens + 2)%nat
          /\ hd_error ids = Some sos /\ last ids 0%Z = eos
          /\ forall i token unk,
               nth_error tokens i = Some token ->
               dict_get String.eqb src_token2idx "<unk>"%string = Some unk ->
               nth_error ids (S i)
               = Some (match dict_get String.eqb src_token2idx token with
                       | Some idx => idx
                       | None => unk
                       end)).
Proof.
  intros src tokens. unfold source_ids. rewrite for_each_unk. unfold index.
  destruct (dict_get String.eqb src "<sos>"%string) as [sos |];
    cbn [and_then].
  2:{ split; [| split].
      - split; [intros [ids H]; discriminate | intros [H _]; congruence].
      - reflexivity.
      - intros; discriminate. }
  destruct (dict_get String.eqb src "<eos>"%string) as [eos |].
  2:{ destruct tokens as [| t0 tokens];
        [| destruct (dict_get String.eqb src "<unk>"%string)]; cbn [and_then];
        (split; [| split];
         [ split; [intros [ids H]; discriminate | intros [_ [H _]]; congruence]
         | reflexivity
         | intros; discriminate ]). }
  destruct tokens as [| t0 tokens].
  - cbn [and_then app]. split; [| split].
    + split; [intros _ | intros _; eexists; reflexivity].
      split; [discriminate |]. split; [discriminate | left; reflexivity].
    + intros Hno. exfalso. apply (Hno [sos; eos]). reflexivity.
    + intros ids sos' eos' Hids Hsos Heos.
      inversion Hids; subst ids. inversion Hsos; inversion Heos; subst.
      cbn. split; [reflexivity |]. split; [reflexivity |]. split; [reflexivity |].
      intros [| i] token unk Hnth; discriminate.
  - destruct (dict_get String.eqb src "<unk>"%string) as [unk |]; cbn [and_then].
    + split; [| split].
      * split; [intros _ | intros _; eexists; reflexivity].
        split; [discriminate |]. split; [discriminate | right; discriminate].
      * intros Hno. exfalso. eapply Hno. reflexivity.
      * intros ids sos' eos' Hids Hsos Heos.
        remember (t0 :: tokens) as l eqn:Hl. clear Hl.
        injection Hids as <-. injection Hsos as <-. injection Heos as <-.
        split.
        { cbn [app List.length]. rewrite length_app, length_map. cbn [List.length].
          lia. }
        split; [reflexivity |]. split.
        { rewrite app_comm_cons. apply last_last. }
        intros i token unk' Hnth Hunk. injection Hunk as <-.
        cbn [app nth_error].
        rewrite nth_error_app1
          by (rewrite length_map; apply nth_error_Some; congruence).
        rewrite nth_error_map, Hnth. reflexivity.
    + split; [| split].
      * split; [intros [ids H]; discriminate |].
        intros [_ [_ [H | H]]]; [discriminate | congruence].
      * reflexivity.
      * intros; discriminate.
Qed.

Lemma source_ids_frame_the_query_witness :
  List.length [1; 4; 3; 2]%Z = (List.length ["show"; "tables"]%string + 2)%nat
  /\ hd_error [1; 4; 3; 2]%Z = Some 1%Z /\ last [1; 4; 3; 2]%Z 0%Z = 2%Z
  /\ forall i token unk,
       nth_error ["show"; "tables"]%string i = Some token ->
       dict_get String.eqb ToyServer.src_token2idx "<unk>"%string = Some unk ->
       nth_error [1; 4; 3; 2]%Z (S i)
       = Some (match dict_get String.eqb ToyServer.src_token2idx token with
               | Some idx => idx
               | None => unk
               end).
Proof.
  apply (proj2 (proj2 (source_ids_frame_the_query ToyServer.src_token2idx
                         ["show"; "tables"]%string)));
    reflexivity.
Defined.

Lemma keys_determine_values {K V : Type} (d : list (K * V)) (k : K) (v1 v2 : V) :
  NoDup (map fst d) -> In (k, v1) d -> In (k, v2) d -> v1 = v2.
Proof.
  induction d as [| [k0 v0] d IH]; intros Hnd H1 H2; [contradiction |].
  cbn [map fst] in Hnd. inversion Hnd as [| ? ? Hk Hnd']; subst.
  destruct H1 as [H1 | H1]; destruct H2 as [H2 | H2].
  - congruence.
  - inversion H1; subst. exfalso. apply Hk. apply (in_map fst) in H2. exact H2.
  - inversion H2; subst. exfalso. apply Hk. apply (in_map fst) in H1. exact H1.
  - apply IH; assumption.
Qed.

Section TargetTokens.
Variable tgt_token2idx : @dict string Z.

(** Every token of the reply is the token of a generated id that is
    none of the three special ids. *)
Lemma target_tokens_sound (row : list Z) : forall tokens,
  target_tokens tgt_token2idx row = Done tokens ->
  forall token, In token tokens ->
    exists idx sos eos pad,
      In idx row
      /\ dict_get String.eqb tgt_token2idx "<sos>"%string = Some sos
      /\ dict_get String.eqb tgt_token2idx "<eos>"%string = Some eos
      /\ dict_get String.eqb tgt_token2idx "<pad>"%string = Some pad
      /\ idx <> sos /\ idx <> eos /\ idx <> pad
      /\ dict_get Z.eqb (tgt_idx2token tgt_token2idx) idx = Some token.
Proof.
  induction row as [| idx row IH]; intros tokens Hrun token Hin.
  - cbn in Hrun. inversion Hrun; subst. contradiction.
  - cbn [target_tokens] in Hrun. unfold index in Hrun.
    destruct (dict_get String.eqb tgt_token2idx "<sos>"%string) as [sos |] eqn:Hsos;
      [| discriminate].
    destruct (dict_get String.eqb tgt_token2idx "<eos>"%string) as [eos |] eqn:Heos;
      [| discriminate].
    destruct (dict_get String.eqb tgt_token2idx "<pad>"%string) as [pad |] eqn:Hpad;
      [| discriminate].
    cbn [and_then] in Hrun.
    destruct (existsb (Z.eqb idx) [sos; eos; pad]) eqn:Hspecial.
    + destruct (IH tokens Hrun token Hin)
        as (i & s1 & e1 & p1 & Hi & H1 & H2 & H3 & Hrest).
      exists i, s1, e1, p1. split; [right; exact Hi |]. auto.
    + destruct (dict_get Z.eqb (tgt_idx2token tgt_token2idx) idx) as [tok |] eqn:Htok;
        [| discriminate].
      cbn [and_then] in Hrun.
      destruct (target_tokens tgt_token2idx row) as [tokens' |] eqn:Hrow;
        [| discriminate].
      cbn [and_then] in Hrun. inversion Hrun; subst tokens. clear Hrun.
      destruct Hin as [<- | Hin].
      * cbn [existsb] in Hspecial.
        apply orb_false_iff in Hspecial. destruct Hspecial as [Hs Hspecial].
        apply orb_false_iff in Hspecial. destruct Hspecial as [He Hspecial].
        apply orb_false_iff in Hspecial. destruct Hspecial as [Hp _].
        apply Z.eqb_neq in Hs, He, Hp.
        exists idx, sos, eos, pad. split; [left; reflexivity |]. auto 10.
      * destruct (IH tokens' eq_refl token Hin)
          as (i & s1 & e1 & p1 & Hi & H1 & H2 & H3 & Hrest).
        exists i, s1, e1, p1. split; [right; exact Hi |]. auto.
Qed.

Lemma target_tokens_length (row : list Z) : forall tokens,
  target_tokens tgt_token2idx row = Done tokens ->
  (List.length tokens <= List.length row)%nat.
Proof.
  induction row as [| idx row IH]; intros tokens Hrun.
  - cbn in Hrun. inversion Hrun. cbn. lia.
  - cbn [target_tokens] in Hrun.
    destruct (index String.eqb tgt_token2idx "<sos>"%string) as [sos |]; [| discriminate].
    destruct (index String.eqb tgt_token2idx "<eos>"%string) as [eos |]; [| discriminate].
    destruct (index String.eqb tgt_token2idx "<pad>"%string) as [pad |]; [| discriminate].
    cbn [and_then] in Hrun.
    destruct (existsb (Z.eqb idx) [sos; eos; pad]).
    + apply IH in Hrun. cbn [List.length]. lia.
    + destruct (index Z.eqb (tgt_idx2token tgt_token2idx) idx) as [tok |];
        [| discriminate].
      cbn [and_then] in Hrun.
      destruct (target_tokens tgt_token2idx row) as [tokens' |]; [| discriminate].
      cbn [and_then] in Hrun. inversion Hrun; subst.
      specialize (IH tokens' eq_refl). cbn [List.length]. lia.
Qed.

Lemma target_tokens_drops_sos (idx : Z) (row : list Z) (tokens : list string) :
  target_tokens tgt_token2idx (idx :: row) = Done tokens ->
  dict_get String.eqb tgt_token2idx "<sos>"%string = Some idx ->
  target_tokens tgt_token2idx row = Done tokens.
Proof.
  intros Hrun Hsos. cbn [target_tokens] in Hrun. unfold index in Hrun at 1.
  rewrite Hsos in Hrun. cbn [and_then] in Hrun.
  destruct (index String.eqb tgt_token2idx "<eos>"%string) as [eos |]; [| discriminate].
  destruct (index String.eqb tgt_token2idx "<pad>"%string) as [pad |]; [| discriminate].
  cbn [and_then existsb] in Hrun. rewrite Z.eqb_refl in Hrun. exact Hrun.
Qed.

End TargetTokens.

(** X18.  None of the tokens [<sos>], [<eos>] and [<pad>] is ever handed
    to the sub-word decoder: whatever ids the model generated, the tokens
    of the reply are tokens of generated ids none of which is one of the
    three special ids, and none of them is one of the three special
    tokens. *)
Theorem reply_holds_no_special_token :
  forall (tgt_token2idx : @dict string Z) (row : list Z) (tokens : list string),
    NoDup (map fst tgt_token2idx) ->
    target_tokens tgt_token2idx row = Done tokens ->
    ~ In "<sos>"%string tokens /\ ~ In "<eos>"%string tokens
    /\ ~ In "<pad>"%string tokens.
Proof.
  intros tgt row tokens Hkeys Hrun.
  assert (Hno : forall special sid,
             dict_get String.eqb tgt special = Some sid ->
             forall idx, idx <> sid ->
               dict_get Z.eqb (tgt_idx2token tgt) idx <> Some special).
  { intros special sid Hsid idx Hne Hget.
    apply (of_pairs_sound Z.eqb Z.eqb_eq) in Hget.
    apply in_map_iff in Hget. destruct Hget as [[tok i] [Heq Hin]].
    cbn [fst snd] in Heq. inversion Heq; subst i tok.
    apply (dict_get_In String.eqb String.eqb_eq) in Hsid.
    apply Hne. apply (keys_determine_values tgt special idx sid Hkeys Hin Hsid). }
  split; [| split]; intros Hin;
    destruct (target_tokens_sound tgt row tokens Hrun _ Hin)
      as (idx & sos & eos & pad & _ & Hsos & Heos & Hpad & Hs & He & Hp & Hget).
  - exact (Hno _ _ Hsos idx Hs Hget).
  - exact (Hno _ _ Heos idx He Hget).
  - exact (Hno _ _ Hpad idx Hp Hget).
Qed.

Lemma reply_holds_no_special_token_witness :
  ~ In "<sos>"%string ["SELECT"; "SELECT"]%string
  /\ ~ In "<eos>"%string ["SELECT"; "SELECT"]%string
  /\ ~ In "<pad>"%string ["SELECT"; "SELECT"]%string.
Proof.
  apply (reply_holds_no_special_token ToyServer.tgt_token2idx [1; 3; 0; 3; 2]%Z).
  - cbn. repeat constructor; cbn; intuition discriminate.
  - reflexivity.
Defined.

(** X19.  The replies of the route.  A missing or empty query is answered
    with status 400 and neither the model nor the random source is
    touched.  Any other reply has status 200 and carries what the
    sub-word decoder made of at most 101 tokens, at most 100 when the
    target mapping gives [<sos>] the id 1 that [generate] starts from;
    the model is then in evaluation mode. *)
Theorem route_replies :
  forall (P Rng : Type) (sub : Transformer.Submodules P Rng)
         (src_tokenizer : string -> list string) (token_to_id : string -> option Z)
         (bpe_decode : list (option Z) -> outcome string)
         (src_token2idx tgt_token2idx : @dict string Z)
         (query : option string) (st st' : Transformer.State P Rng) (r : Response),
    Server.generate sub src_tokenizer token_to_id bpe_decode src_token2idx
                    tgt_token2idx query st = (Done r, st') ->
    ((query = None \/ query = Some EmptyString)
     /\ r = mkResponse (error_body "query is required"%string) 400 /\ st' = st)
    \/ (query <> None /\ query <> Some EmptyString
        /\ status r = 200%Z
        /\ fst st' = Transformer.model_train false (fst st)
        /\ exists tokens sql,
             body r = sql_body sql
             /\ bpe_decode (map token_to_id tokens) = Done sql
             /\ (List.length tokens <= 101)%nat
             /\ (dict_get String.eqb tgt_token2idx "<sos>"%string = Some 1%Z ->
                 (List.length tokens <= 100)%nat)).
Proof.
  intros P Rng sub src_tokenizer token_to_id bpe_decode src tgt query st st' r.
  unfold Server.generate.
  destruct (falsy query) eqn:Hfalsy.
  - intros Heq. inversion Heq; subst. left.
    split; [| split; reflexivity].
    destruct query as [q |]; [| left; reflexivity].
    right. cbn in Hfalsy. apply String.eqb_eq in Hfalsy. subst q. reflexivity.
  - intros Hrun. right.
    assert (Hq : query <> None /\ query <> Some EmptyString).
    { split; intros ->; discriminate. }
    destruct Hq as [Hq1 Hq2]. split; [exact Hq1 |]. split; [exact Hq2 |].
    destruct (source_ids src _) as [ids | ?]; [| discriminate].
    pose proof (generate_model sub [ids] 100 1 2 st) as Hmodel.
    destruct (generate_unroll sub [ids] 100 1 2 st) as [k [Hk [_ Hunroll]]].
    destruct (Transformer.generate sub [ids] 100 1 2 st) as [[res | ?] st1];
      [| discriminate].
    destruct (Transformer.generate_unrolled sub k [ids] 1 st) as [[[out ts] | ?] st2];
      [| discriminate].
    destruct Hunroll as [Hgen [Hout [Hlen _]]].
    injection Hgen as -> _. subst out.
    cbn [response_tokens] in Hrun.
    destruct (target_tokens tgt (1 :: ts)%Z) as [tokens |] eqn:Htok; [| discriminate].
    cbn [and_then] in Hrun.
    destruct (bpe_decode (map token_to_id tokens)) as [sql |] eqn:Hsql; [| discriminate].
    cbn [and_then] in Hrun. injection Hrun as <- <-.
    split; [reflexivity |]. split; [exact Hmodel |].
    exists tokens, sql. split; [reflexivity |]. split; [exact Hsql |].
    change (Z.to_nat 100) with 100%nat in Hk.
    split.
    + apply target_tokens_length in Htok. cbn [List.length] in Htok. lia.
    + intros Hsos. apply (target_tokens_drops_sos tgt 1%Z ts tokens Htok) in Hsos.
      apply target_tokens_length in Hsos. lia.
Qed.

Lemma route_replies_witness :
  ((Some "show"%string = None \/ Some "show"%string = Some EmptyString)
   /\ mkResponse (sql_body EmptyString) 200
      = mkResponse (error_body "query is required"%string) 400
   /\ (Transformer.model_train false Toy.model, [0; 0]%Z)
      = (Toy.model, [0; 1; 2; 0; 0]%Z))
  \/ (Some "show"%string <> None /\ Some "show"%string <> Some EmptyString
      /\ status (mkResponse (sql_body EmptyString) 200) = 200%Z
      /\ fst (Transformer.model_train false Toy.model, [0; 0]%Z)
         = Transformer.model_train false (fst (Toy.model, [0; 1; 2; 0; 0]%Z))
      /\ exists tokens sql,
           body (mkResponse (sql_body EmptyString) 200) = sql_body sql
           /\ ToyServer.bpe_decode (map ToyServer.token_to_id tokens) = Done sql
           /\ (List.length tokens <= 101)%nat
           /\ (dict_get String.eqb ToyServer.tgt_token2idx "<sos>"%string = Some 1%Z ->
               (List.length tokens <= 100)%nat)).
Proof.
  apply (route_replies unit (list Z) Toy.sub ToyServer.src_tokenizer
           ToyServer.token_to_id ToyServer.bpe_decode ToyServer.src_token2idx
           ToyServer.tgt_token2idx (Some "show"%string)
           (Toy.model, [0; 1; 2; 0; 0]%Z)).
  vm_compute. reflexivity.
Defined.

Section Serving.
Context {P Rng : Type} (sub : Transformer.Submodules P Rng).
Variable src_tokenizer : string -> list string.
Variable token_to_id : string -> option Z.
Variable bpe_decode : list (option Z) -> outcome string.
Variables src_token2idx tgt_token2idx : @dict string Z.

Lemma route_keeps_eval_model (query : option string) (st : Transformer.State P Rng) :
  Transformer.model_all_flags false (fst st) = true ->
  fst (snd (Server.generate sub src_tokenizer token_to_id bpe_decode src_token2idx
                            tgt_token2idx query st)) = fst st.
Proof.
  intros Hflags. unfold Server.generate.
  destruct (falsy query); [reflexivity |].
  destruct (source_ids src_token2idx _) as [ids | ?]; [| reflexivity].
  pose proof (generate_model sub [ids] 100 1 2 st) as Hmodel.
  rewrite (model_train_fixes false (fst st) Hflags) in Hmodel.
  destruct (Transformer.generate sub [ids] 100 1 2 st) as [[res | ?] st1];
    exact Hmodel.
Qed.

Lemma serve_keeps_eval_model (queries : list (option string)) :
  forall st : Transformer.State P Rng,
    Transformer.model_all_flags false (fst st) = true ->
    fst (snd (serve sub src_tokenizer token_to_id bpe_decode src_token2idx
                    tgt_token2idx queries st)) = fst st
    /\ List.length (fst (serve sub src_tokenizer token_to_id bpe_decode src_token2idx
                               tgt_token2idx queries st)) = List.length queries.
Proof.
  induction queries as [| query queries IH]; intros st Hflags; cbn [serve].
  - split; reflexivity.
  - pose proof (route_keeps_eval_model query st Hflags) as Hroute.
    destruct (Server.generate sub src_tokenizer token_to_id bpe_decode src_token2idx
                              tgt_token2idx query st) as [r st1].
    cbn [fst snd] in Hroute.
    assert (Hflags1 : Transformer.model_all_flags false (fst st1) = true)
      by (rewrite Hroute; exact Hflags).
    destruct (IH st1 Hflags1) as [Hmodel Hlen].
    destruct (serve sub src_tokenizer token_to_id bpe_decode src_token2idx
                    tgt_token2idx queries st1) as [rs st2].
    cbn [fst snd List.length] in *. split; [congruence | lia].
Qed.

End Serving.

(** X20.  Serving never changes the model: started on the model as
    [load_model] returns it, in evaluation mode, any sequence of requests
    (answered, refused or failed with an exception) leaves the model
    object exactly as loaded, and every request gets its outcome. *)
Theorem serving_keeps_loaded_model :
  forall (P Rng : Type) (sub : Transformer.Submodules P Rng)
         (src_tokenizer : string -> list string) (token_to_id : string -> option Z)
         (bpe_decode : list (option Z) -> outcome string)
         (src_token2idx tgt_token2idx : @dict string Z)
         (queries : list (option string)) (constructed : Transformer.Model P)
         (g : Rng),
    let run := serve sub src_tokenizer token_to_id bpe_decode src_token2idx
                     tgt_token2idx queries (load_model constructed, g) in
    fst (snd run) = load_model constructed
    /\ Transformer.model_all_flags false (fst (snd run)) = true
    /\ List.length (fst run) = List.length queries.
Proof.
  intros P Rng sub src_tokenizer token_to_id bpe_decode src tgt queries constructed g.
  cbv zeta.
  assert (Hflags : Transformer.model_all_flags false
                     (fst (load_model constructed, g)) = true).
  { cbn [fst]. apply model_train_all_flags. }
  destruct (serve_keeps_eval_model sub src_tokenizer token_to_id bpe_decode src tgt
              queries (load_model constructed, g) Hflags) as [Hmodel Hlen].
  cbn [fst] in Hmodel. rewrite Hmodel.
  split; [reflexivity |]. split; [apply model_train_all_flags | exact Hlen].
Qed.

End ServerExtras.
